(** * Provenance recording of viral-ngs commands ([util/metadata.py])

    A shallow embedding of the metadata module: the content-identity
    service ([Hasher]), the file-role argument types ([InFile], [OutFile]),
    the step recorder ([add_metadata_tracking] and the wrapper
    [_run_cmd_with_tracking] it returns) and the provenance-graph loader
    ([ProvenanceGraph.load]).

    Python values are a small inductive type, exceptions are values of an
    error monad that distinguishes instances of [Exception] from other
    [BaseException]s, the file system and the metadata store are explicit
    state, and dictionaries are finite maps. *)

From Stdlib Require Import ZArith Lia.
From stdpp Require Import gmap strings list fin_maps pretty.

Open Scope string_scope.
Open Scope list_scope.
Open Scope Z_scope.

(** ** Python exceptions and results *)

(** An exception object.  [exn_is_Exception] tells whether its class derives
    from [Exception] (what an [except Exception] clause catches) and
    [exn_truth] is the value of [bool(e)], which a class may override through
    [__bool__] or [__len__]. *)
Record exn := Exn {
  exn_class : string;
  exn_text : string;
  exn_is_Exception : bool;
  exn_truth : bool
}.

Definition builtin_error (cls msg : string) : exn := Exn cls msg true true.
Definition IOError := builtin_error "IOError".
Definition KeyError := builtin_error "KeyError".
Definition NameError := builtin_error "NameError".
Definition AttributeError := builtin_error "AttributeError".

Inductive result (A : Type) : Type :=
| Ok (a : A)
| Raise (e : exn).
Arguments Ok {A} a.
Arguments Raise {A} e.

#[global] Instance result_ret : MRet result := fun A a => Ok a.

#[global] Instance result_bind : MBind result := fun A B k r =>
  match r with
  | Ok a => k a
  | Raise e => Raise e
  end.

(** [try: body except Exception as e: handler(e)] *)
Definition try_except_Exception {A} (body : result A) (handler : exn → result A)
  : result A :=
  match body with
  | Ok a => Ok a
  | Raise e => if exn_is_Exception e then handler e else Raise e
  end.

Definition raises {A} (r : result A) : Prop :=
  match r with Ok _ => False | Raise _ => True end.

(** [traceback.format_exc()] *)
Definition format_exc (e : exn) : string :=
  exn_class e +:+ ": " +:+ exn_text e.

(** ** Python values *)

Inductive role := Input | Output.

#[global] Instance role_eq_dec : EqDecision role.
Proof. solve_decision. Defined.

(** [VFileArg] is an instance of a subclass of [FileArg] (itself a subclass
    of [str]): [InFile] for [Input], [OutFile] for [Output]. *)
#[warnings="-register-all"]
Inductive pyval :=
| VNone
| VBool (b : bool)
| VInt (z : Z)
| VStr (s : string)
| VFileArg (r : role) (s : string)
| VList (l : list pyval)
| VTuple (l : list pyval)
| VDict (d : list (string * pyval)).

(** The underlying [str] of a value of type [str] or of a subclass. *)
Definition as_str (v : pyval) : option string :=
  match v with
  | VStr s | VFileArg _ s => Some s
  | _ => None
  end.

(** [bool(v)] *)
Definition truthy (v : pyval) : bool :=
  match v with
  | VNone => false
  | VBool b => b
  | VInt z => negb (z =? 0)
  | VStr s | VFileArg _ s => negb (String.eqb s "")
  | VList l | VTuple l => match l with [] => false | _ => true end
  | VDict d => match d with [] => false | _ => true end
  end.

(** ** External collaborators

    Helpers of [util.file] and of the operating system that the module calls
    but does not define. *)
Class External := {
  (** the hex digest of a byte string under a named algorithm *)
  digest : string → list Byte.byte → string;
  (** [util.file.string_to_file_name] *)
  string_to_file_name : string → string;
  (** [os.path.realpath], [os.path.abspath] *)
  realpath : string → string;
  abspath : string → string;
  (** [os.path.join], [os.path.basename] *)
  path_join : string → string → string;
  basename : string → string;
  (** [time.strftime('%Y%m%d%H%M%S', time.localtime(t))] *)
  strftime : Z → string;
  (** [str.__hash__] *)
  str_hash : string → Z
}.

(** ** The process environment

    [os.environ], as a finite map.  It is fixed for the time of one call:
    neither the wrapper nor the loader writes to it, and a command body is
    taken not to. *)

Definition is_metadata_tracking_enabled (environ : gmap string string) : bool :=
  bool_decide ("VIRAL_NGS_METADATA_PATH" ∈ dom environ).

Definition metadata_dir (environ : gmap string string) : result string :=
  match environ !! "VIRAL_NGS_METADATA_PATH" with
  | Some d => Ok d
  | None => Raise (KeyError "VIRAL_NGS_METADATA_PATH")
  end.

Definition skip_cmd (environ : gmap string string) : bool :=
  bool_decide ("VIRAL_NGS_SKIP_CMD" ∈ dom environ).

(** ** The file system *)

Inductive file_kind := Regular | Directory | Fifo | Special.

#[global] Instance file_kind_eq_dec : EqDecision file_kind.
Proof. solve_decision. Defined.

Record inode := Inode {
  i_kind : file_kind;
  i_bytes : list Byte.byte;
  i_size : Z;
  i_mtime : Z;
  i_ctime : Z;
  i_uid : Z;
  i_readable : bool;
  i_writable : bool
}.

(** Paths map to inodes; [fs_creatable p] tells whether a new entry may be
    created at [p] (the parent directory exists and is writable);
    [fs_passwd] is the password database behind [pwd.getpwuid]. *)
Record filesystem := Filesystem {
  fs_files : gmap string inode;
  fs_creatable : string → bool;
  fs_passwd : gmap Z string;
  fs_clock : Z
}.

Definition set_files (fs : filesystem) (m : gmap string inode) : filesystem :=
  Filesystem m (fs_creatable fs) (fs_passwd fs) (fs_clock fs).

Definition path_exists (fs : filesystem) (p : string) : bool :=
  bool_decide (is_Some (fs_files fs !! p)).

Definition isfile (fs : filesystem) (p : string) : bool :=
  match fs_files fs !! p with
  | Some i => bool_decide (i_kind i = Regular)
  | None => false
  end.

Definition isdir (fs : filesystem) (p : string) : bool :=
  match fs_files fs !! p with
  | Some i => bool_decide (i_kind i = Directory)
  | None => false
  end.

(** [os.access(p, os.W_OK)] *)
Definition access_W_OK (fs : filesystem) (p : string) : bool :=
  match fs_files fs !! p with
  | Some i => i_writable i
  | None => false
  end.

(** [os.stat(p)] *)
Definition os_stat (fs : filesystem) (p : string) : result inode :=
  match fs_files fs !! p with
  | Some i => Ok i
  | None => Raise (builtin_error "FileNotFoundError" p)
  end.

Definition S_ISFIFO (st : inode) : bool := bool_decide (i_kind st = Fifo).

(** Whether [open(p)] succeeds: the path exists, is no directory and may be
    read. *)
Definition readable_path (fs : filesystem) (p : string) : bool :=
  match fs_files fs !! p with
  | Some i => negb (bool_decide (i_kind i = Directory)) && i_readable i
  | None => false
  end.

(** [with open(p): pass] *)
Definition open_read (fs : filesystem) (p : string) : result unit :=
  match fs_files fs !! p with
  | None => Raise (builtin_error "FileNotFoundError" p)
  | Some i =>
      if bool_decide (i_kind i = Directory)
      then Raise (builtin_error "IsADirectoryError" p)
      else if i_readable i then Ok tt
      else Raise (builtin_error "PermissionError" p)
  end.

Definition empty_inode (fs : filesystem) : inode :=
  Inode Regular [] 0 (fs_clock fs) (fs_clock fs) 0 true true.

(** [with open(p, 'w'): pass] *)
Definition open_write (fs : filesystem) (p : string) : result filesystem :=
  match fs_files fs !! p with
  | None =>
      if fs_creatable fs p
      then Ok (set_files fs (<[p := empty_inode fs]> (fs_files fs)))
      else Raise (builtin_error "PermissionError" p)
  | Some i =>
      if bool_decide (i_kind i = Directory)
      then Raise (builtin_error "IsADirectoryError" p)
      else if i_writable i
      then Ok (set_files fs
                 (<[p := Inode (i_kind i) [] 0 (fs_clock fs) (fs_clock fs)
                           (i_uid i) (i_readable i) (i_writable i)]>
                    (fs_files fs)))
      else Raise (builtin_error "PermissionError" p)
  end.

(** [os.unlink(p)] *)
Definition unlink (fs : filesystem) (p : string) : result filesystem :=
  match fs_files fs !! p with
  | Some _ => Ok (set_files fs (delete p (fs_files fs)))
  | None => Raise (builtin_error "FileNotFoundError" p)
  end.

(** ** File-role argument types: [FileArg], [InFile], [OutFile] *)

(** [FileArg.__new__]: [str.__new__(cls, *args, **kw)]. *)
Definition FileArg_new (cls : role) (fname : string) : pyval := VFileArg cls fname.

(** [InFile(fname)].  When tracking is off at import time the name [InFile]
    is bound to [str]. *)
Definition InFile (environ : gmap string string) (fs : filesystem)
    (fname : string) : result pyval :=
  if is_metadata_tracking_enabled environ then
    (_ ← open_read fs fname ;
     Ok (FileArg_new Input fname))
  else Ok (VStr fname).

(** [OutFile(fname)]; it may touch the file system, so the state after the
    call is returned with the result. *)
Definition OutFile (environ : gmap string string) (fs : filesystem)
    (fname : string) : result pyval * filesystem :=
  if is_metadata_tracking_enabled environ then
    if negb (skip_cmd environ) then
      if negb (path_exists fs fname) then
        match open_write fs fname with
        | Raise e => (Raise e, fs)
        | Ok fs1 =>
            match unlink fs1 fname with
            | Raise e => (Raise e, fs1)
            | Ok fs2 => (Ok (FileArg_new Output fname), fs2)
            end
        end
      else if negb (isfile fs fname && access_W_OK fs fname) then
        (Raise (IOError ("Output filel not writable: " +:+ fname)), fs)
      else (Ok (FileArg_new Output fname), fs)
    else (Ok (FileArg_new Output fname), fs)
  else (Ok (VStr fname), fs).

(** [a == b] and [hash(a)] on strings and their subclasses, which inherit
    both from [str]. *)
Definition py_eq (a b : pyval) : bool :=
  match as_str a, as_str b with
  | Some s, Some t => String.eqb s t
  | _, _ => false
  end.

Definition py_hash `{External} (a : pyval) : option Z :=
  str_hash <$> as_str a.

(** ** Content identity: [Hasher] *)

(** Modelled from the spec: [util.file.hash_file] is not part of the module;
    it reads the file's bytes and returns their hex digest under the given
    algorithm, and fails with an I/O error when the file cannot be read. *)
Definition hash_file `{External} (fs : filesystem) (file : string)
    (hash_algorithm : string) : result string :=
  (_ ← open_read fs file ;
   match fs_files fs !! file with
   | Some i => Ok (digest hash_algorithm (i_bytes i))
   | None => Raise (builtin_error "FileNotFoundError" file)
   end).

(** [Hasher(hash_algorithm).__call__(file)] *)
Definition Hasher_call `{External} (hash_algorithm : string)
    (fs : filesystem) (file : string) : result string :=
  let file_hash := "" in
  try_except_Exception
    (if isfile fs file then
       (st ← os_stat fs file ;
        if negb (S_ISFIFO st) then
          (h ← hash_file fs file hash_algorithm ;
           Ok (hash_algorithm +:+ "_" +:+ h))
        else Ok file_hash)
     else Ok file_hash)
    (fun _ => Ok file_hash).

(** ** The step recorder *)

(** *** Dictionaries with string keys, in insertion order *)

Fixpoint dict_get (k : string) (d : list (string * pyval)) : option pyval :=
  match d with
  | [] => None
  | (k', v) :: d' => if String.eqb k k' then Some v else dict_get k d'
  end.

(** [d.pop(k, default)], the dictionary that is left *)
Fixpoint dict_pop (k : string) (d : list (string * pyval)) : list (string * pyval) :=
  match d with
  | [] => []
  | (k', v) :: d' => if String.eqb k k' then dict_pop k d' else (k', v) :: dict_pop k d'
  end.

(** [delattr(args, name)] on an [argparse.Namespace] *)
Definition delattr (args : list (string * pyval)) (name : string)
  : result (list (string * pyval)) :=
  match dict_get name args with
  | Some _ => Ok (dict_pop name args)
  | None => Raise (AttributeError name)
  end.

(** *** What one invocation obtains from the operating system *)

(** The outcome of a call to a collaborator: a value, or a failure that
    raises an ordinary exception of the named class. *)
Inductive outcome (A : Type) : Type :=
| Done (a : A)
| Fails (cls msg : string).
Arguments Done {A} a.
Arguments Fails {A} cls msg.

Definition call {A} (o : outcome A) : result A :=
  match o with
  | Done a => Ok a
  | Fails cls msg => Raise (builtin_error cls msg)
  end.

Record system := System {
  sys_beg_time : Z;                     (* time.time() before the body *)
  sys_end_time : Z;                     (* time.time() when recording starts *)
  sys_uuid4_a : string;                 (* uuid.uuid4(), first draw *)
  sys_uuid4_b : string;                 (* uuid.uuid4(), second draw *)
  sys_getuser : outcome string;         (* getpass.getuser() *)
  sys_getcwd : outcome string;          (* os.getcwd() *)
  sys_get_version : outcome string;     (* util.version.get_version() *)
  sys_get_project_path : outcome string;(* util.version.get_project_path() *)
  sys_platform : outcome string;        (* platform.platform() *)
  sys_available_cpu_count : outcome Z;  (* util.misc.available_cpu_count() *)
  sys_getfqdn : outcome string;         (* socket.getfqdn() *)
  sys_argv : list string;               (* sys.argv *)
  sys_git_hash : string → option string → string; (* what the git commands of
                                           tag_code_version print *)
  sys_dump_file : string → outcome unit (* util.file.dump_file, by path *)
}.

(** *** The persisted document *)

Record file_info := FileInfo {
  fi_fname : string;
  fi_realpath : string;
  fi_abspath : string;
  fi_arg : string;
  fi_arg_idx : list nat;
  fi_hash : option string;
  fi_size : option Z;
  fi_mtime : option Z;
  fi_ctime : option Z;
  fi_owner : option string
}.

Record version_info := VersionInfo {
  viral_ngs_version : string;
  viral_ngs_path : string;
  viral_ngs_path_real : string;
  code_hash : string
}.

Record run_env := RunEnv {
  re_metadata_dir : string;
  re_platform : string;
  re_cpus : Z;
  re_host : string;
  re_user : string;
  re_cwd : string
}.

Record run_info := RunInfo {
  beg_time : Z;
  end_time : Z;
  duration : Z;
  exception : option string;
  argv : list string;
  cmd_was_skipped : bool
}.

Record step := Step {
  step_id : string;
  run_id : string;
  cmd_module : string;
  cmd_name : string;
  st_version_info : version_info;
  st_run_env : run_env;
  st_run_info : run_info;
  st_args : list (string * pyval);
  metadata_from_cmd_line : pyval;
  metadata_from_cmd_return : list (string * pyval)
}.

Record step_data := StepData {
  sd_format : string;
  sd_step : step;
  in_files : gmap string file_info;
  out_files : gmap string file_info
}.

Definition VIRAL_NGS_METADATA_FORMAT : string := "1.0.0".

(** *** Identifiers and code version *)

(** [s[2:]] and [s[:210]] *)
Definition slice_from (n : nat) (s : string) : string :=
  String.substring n (String.length s - n)%nat s.
Definition slice_to (n : nat) (s : string) : string := String.substring 0 n s.

Definition create_run_id `{External} (sys : system) (uuid4 : string) (t : Z)
  : result string :=
  let stamp := slice_from 2 (strftime t) in
  user ← call (sys_getuser sys);
  cwd ← call (sys_getcwd sys);
  Ok (slice_to 210
        (string_to_file_name
           (String.concat "__" [stamp; user; basename cwd; uuid4]))).

(** [tag_code_version] catches every failure of its git commands and then
    returns the empty string; it does not raise. *)
Definition tag_code_version (sys : system) (tag : string) (push_to : option string)
  : string :=
  sys_git_hash sys tag push_to.

(** *** Discovery of the tracked files *)

(** [get_FileArgs(val, idx_prefix)]: the file arguments inside a parameter
    value, each with its index. *)
Fixpoint get_FileArgs (val : pyval) (idx_prefix : list nat)
  : list (list nat * (role * string)) :=
  match val with
  | VFileArg r s => if truthy val then [(idx_prefix, (r, s))] else []
  | VList l =>
      (fix enumerate (i : nat) (vs : list pyval) :=
         match vs with
         | [] => []
         | v :: vs' => get_FileArgs v (idx_prefix ++ [i]) ++ enumerate (S i) vs'
         end) 0%nat l
  | _ => []
  end.

Definition port_name (arg : string) (idx : list nat) : string :=
  arg +:+ String.concat "" (map (fun i : nat => "_" +:+ pretty i) idx).

(** The inner [try] of the loop body: [os.stat], the three stat fields,
    then the owner; a failure at either call keeps what was stored before
    it. *)
Definition add_stat (fs : filesystem) (file_arg : string) (info : file_info)
  : file_info :=
  match os_stat fs file_arg with
  | Raise _ => info
  | Ok file_stat =>
      let info1 :=
        FileInfo (fi_fname info) (fi_realpath info) (fi_abspath info)
          (fi_arg info) (fi_arg_idx info) (fi_hash info)
          (Some (i_size file_stat)) (Some (i_mtime file_stat))
          (Some (i_ctime file_stat)) (fi_owner info) in
      match fs_passwd fs !! i_uid file_stat with
      | None => info1
      | Some pw_name =>
          FileInfo (fi_fname info1) (fi_realpath info1) (fi_abspath info1)
            (fi_arg info1) (fi_arg_idx info1) (fi_hash info1)
            (fi_size info1) (fi_mtime info1) (fi_ctime info1) (Some pw_name)
      end
  end.

(** The entry of one occurrence. *)
Definition make_file_info `{External} (fs : filesystem)
    (cmd_exception : option exn) (arg : string) (idx : list nat)
    (r : role) (file_arg : string) : result file_info :=
  let info :=
    FileInfo file_arg (realpath file_arg) (abspath file_arg) arg idx
      None None None None None in
  if bool_decide (r = Input) || bool_decide (cmd_exception = None) then
    h ← Hasher_call "sha1" fs file_arg;
    Ok (add_stat fs file_arg
          (FileInfo (fi_fname info) (fi_realpath info) (fi_abspath info)
             (fi_arg info) (fi_arg_idx info) (Some h) None None None None))
  else Ok info.

(** [step_data['in_files' if isinstance(file_arg, InFile) else
    'out_files'][port_name] = file_info], on the pair of mappings. *)
Definition store_port (r : role) (port : string) (info : file_info)
    (files : gmap string file_info * gmap string file_info)
  : gmap string file_info * gmap string file_info :=
  match r with
  | Input => (<[port := info]> files.1, files.2)
  | Output => (files.1, <[port := info]> files.2)
  end.

(** The inner loop, over the file arguments of one parameter. *)
Fixpoint record_file_args `{External} (fs : filesystem)
    (cmd_exception : option exn) (arg : string)
    (occurrences : list (list nat * (role * string)))
    (files : gmap string file_info * gmap string file_info)
  : result (gmap string file_info * gmap string file_info) :=
  match occurrences with
  | [] => Ok files
  | (idx, (r, file_arg)) :: rest =>
      info ← make_file_info fs cmd_exception arg idx r file_arg;
      record_file_args fs cmd_exception arg rest
        (store_port r (port_name arg idx) info files)
  end.

(** The outer loop, over the parameters and the returned metadata. *)
Fixpoint record_params `{External} (fs : filesystem)
    (cmd_exception : option exn) (params : list (string * pyval))
    (files : gmap string file_info * gmap string file_info)
  : result (gmap string file_info * gmap string file_info) :=
  match params with
  | [] => Ok files
  | (arg, val) :: rest =>
      files1 ← record_file_args fs cmd_exception arg (get_FileArgs val []) files;
      record_params fs cmd_exception rest files1
  end.

(** *** Assembling and persisting the record *)

(** The state one invocation acts on: the file system, the documents of the
    metadata store by path, and a count of the executions of command
    bodies.  The store is kept apart from the file system: the file that
    [dump_file] writes under the tracking directory, and what the git
    commands of [tag_code_version] do to the work tree, do not show in
    [w_fs], which holds the files as the command body left them. *)
Record world := World {
  w_fs : filesystem;
  w_store : gmap string step_data;
  w_body_calls : nat
}.

(** A command body: it receives the parsed arguments, may change the file
    system, and returns a value or raises.  Argument values are immutable
    here: a body that updates a list argument in place, which the copy
    [args_dict] would share, is not covered. *)
Definition command := list (string * pyval) → filesystem → result pyval * filesystem.

(** The part of the [finally] block under [if is_metadata_tracking_enabled()]
    up to the document and the path it is written to. *)
Definition assemble_step_data `{External} (environ : gmap string string)
    (sys : system) (module_name command_name : string)
    (args_dict : list (string * pyval)) (cmd_result : pyval)
    (cmd_exception : option exn) (fs : filesystem)
  : result (string * step_data) :=
  let t0 := sys_beg_time sys in
  let t1 := sys_end_time sys in
  md ← metadata_dir environ;
  fresh_run_id ← create_run_id sys (sys_uuid4_a sys) t0;
  let rid := default fresh_run_id (environ !! "VIRAL_NGS_METADATA_RUN_ID") in
  step_stamp ← create_run_id sys (sys_uuid4_b sys) t0;
  let sid := String.concat "__" [step_stamp; module_name; command_name] in
  md1 ← metadata_dir environ;
  let code_repo := path_join md1 "code_repo" in
  let hash_of_code :=
    tag_code_version sys ("cmd_" +:+ sid)
      (if isdir fs code_repo then Some code_repo else None) in
  let from_cmd_line :=
    match dict_get "metadata" args_dict with
    | Some v => if truthy v then v else VDict []
    | None => VDict []
    end in
  let args_dict1 := dict_pop "metadata" args_dict in
  let from_cmd_return :=
    match cmd_result with VDict d => d | _ => [] end in
  let args_dict2 := dict_pop "func_main" args_dict1 in
  version ← call (sys_get_version sys);
  project ← call (sys_get_project_path sys);
  project1 ← call (sys_get_project_path sys);
  md2 ← metadata_dir environ;
  plat ← call (sys_platform sys);
  cpus ← call (sys_available_cpu_count sys);
  host ← call (sys_getfqdn sys);
  user ← call (sys_getuser sys);
  cwd ← call (sys_getcwd sys);
  let the_step :=
    Step sid rid module_name command_name
      (VersionInfo version project (realpath project1) hash_of_code)
      (RunEnv md2 plat cpus host user cwd)
      (RunInfo t0 t1 (t1 - t0) (format_exc <$> cmd_exception) (sys_argv sys)
         (skip_cmd environ))
      args_dict2 from_cmd_line from_cmd_return in
  files ← record_params fs cmd_exception (args_dict2 ++ from_cmd_return) (∅, ∅);
  md3 ← metadata_dir environ;
  Ok (path_join md3 (sid +:+ ".json"),
      StepData VIRAL_NGS_METADATA_FORMAT the_step files.1 files.2).

(** The body of the inner [try] of the [finally] block. *)
Definition record_step `{External} (environ : gmap string string)
    (sys : system) (module_name command_name : string)
    (args_dict : list (string * pyval)) (cmd_result : pyval)
    (cmd_exception : option exn) (w : world) : result world :=
  if is_metadata_tracking_enabled environ then
    '(path, doc) ← assemble_step_data environ sys module_name command_name
                     args_dict cmd_result cmd_exception (w_fs w);
    _ ← call (sys_dump_file sys path);
    Ok (World (w_fs w) (<[path := doc]> (w_store w)) (w_body_calls w))
  else Ok w.

(** The first part of the [try] statement: the command itself, unless it is
    to be skipped. *)
Definition run_body (environ : gmap string string) (cmd_main : command)
    (args : list (string * pyval)) (w : world) : result pyval * world :=
  if negb (skip_cmd environ) then
    let '(r, fs1) := cmd_main args (w_fs w) in
    (r, World fs1 (w_store w) (S (w_body_calls w)))
  else (Ok VNone, w).

(** The variables that the [try] and its [except Exception as e] clause
    leave behind, and the exception that the clause does not catch. *)
Definition cmd_result_of (ran : result pyval) : pyval :=
  match ran with Ok v => v | Raise _ => VNone end.

Definition cmd_exception_of (ran : result pyval) : option exn :=
  match ran with
  | Raise e => if exn_is_Exception e then Some e else None
  | Ok _ => None
  end.

Definition in_flight_of (ran : result pyval) : option exn :=
  match ran with
  | Raise e => if exn_is_Exception e then None else Some e
  | Ok _ => None
  end.

(** The wrapper that [add_metadata_tracking] returns. *)
Definition _run_cmd_with_tracking `{External} (environ : gmap string string)
    (sys : system) (module_name command_name : string) (cmd_main : command)
    (args : list (string * pyval)) (w : world) : result pyval * world :=
  let args_dict := args in
  match delattr args "metadata" with
  | Raise e => (Raise e, w)
  | Ok args1 =>
      let '(ran, w1) := run_body environ cmd_main args1 w in
      let cmd_result := cmd_result_of ran in
      let cmd_exception := cmd_exception_of ran in
      (* finally: recording, under a try of its own *)
      let recorded :=
        try_except_Exception
          (record_step environ sys module_name command_name args_dict
             cmd_result cmd_exception w1)
          (fun _ => Ok w1) in
      match recorded with
      | Raise e => (Raise e, w1)
      | Ok w2 =>
          match in_flight_of ran with
          | Some e => (Raise e, w2)
          | None =>
              (* if cmd_exception: raise cmd_exception *)
              match cmd_exception with
              | Some e => if exn_truth e then (Raise e, w2) else (Ok VNone, w2)
              | None => (Ok VNone, w2)
              end
          end
      end
  end.

Definition add_metadata_tracking `{External} (environ : gmap string string)
    (sys : system) (cmd_main : command) (module_name command_name : string)
  : list (string * pyval) → world → result pyval * world :=
  _run_cmd_with_tracking environ sys module_name command_name cmd_main.

(** ** The provenance graph *)

(** A [networkx.DiGraph]: attribute dictionaries by node, and the set of
    directed edges. *)
Record DiGraph := Graph {
  nodes : gmap string (gmap string pyval);
  edges : gset (string * string)
}.

Definition empty_graph : DiGraph := Graph ∅ ∅.

(** [g.add_node(n, **attrs)]: a new node gets the attributes, an existing
    one has them updated. *)
Definition add_node (n : string) (attrs : gmap string pyval) (g : DiGraph)
  : DiGraph :=
  Graph (<[n := attrs ∪ default ∅ (nodes g !! n)]> (nodes g)) (edges g).

(** [g.add_edge(u, v)]: missing end points are added as nodes. *)
Definition add_edge (u v : string) (g : DiGraph) : DiGraph :=
  let g1 := add_node v ∅ (add_node u ∅ g) in
  Graph (nodes g1) ({[ (u, v) ]} ∪ edges g1).

(** What [json.loads] gives back for a value written with
    [json.dumps(..., default=str)]. *)
#[warnings="-register-all"]
Fixpoint json_value (v : pyval) : pyval :=
  match v with
  | VFileArg _ s => VStr s
  | VList l => VList (map json_value l)
  | VTuple l => VList (map json_value l)
  | VDict d => VDict (map (fun kv => (kv.1, json_value kv.2)) d)
  | _ => v
  end.

Definition json_option {A} (f : A → pyval) (o : option A) : pyval :=
  match o with Some a => f a | None => VNone end.

(** The keyword arguments [**step_record['step']]. *)
Definition step_attrs (s : step) : gmap string pyval :=
  list_to_map
    [("step_id", VStr (step_id s)); ("run_id", VStr (run_id s));
     ("cmd_module", VStr (cmd_module s)); ("cmd_name", VStr (cmd_name s));
     ("version_info",
      VDict [("viral_ngs_version", VStr (viral_ngs_version (st_version_info s)));
             ("viral_ngs_path", VStr (viral_ngs_path (st_version_info s)));
             ("viral_ngs_path_real", VStr (viral_ngs_path_real (st_version_info s)));
             ("code_hash", VStr (code_hash (st_version_info s)))]);
     ("run_env",
      VDict [("metadata_dir", VStr (re_metadata_dir (st_run_env s)));
             ("platform", VStr (re_platform (st_run_env s)));
             ("cpus", VInt (re_cpus (st_run_env s)));
             ("host", VStr (re_host (st_run_env s)));
             ("user", VStr (re_user (st_run_env s)));
             ("cwd", VStr (re_cwd (st_run_env s)))]);
     ("run_info",
      VDict [("beg_time", VInt (beg_time (st_run_info s)));
             ("end_time", VInt (end_time (st_run_info s)));
             ("duration", VInt (duration (st_run_info s)));
             ("exception", json_option VStr (exception (st_run_info s)));
             ("argv", VList (VStr <$> argv (st_run_info s)));
             ("cmd_was_skipped", VBool (cmd_was_skipped (st_run_info s)))]);
     ("args", json_value (VDict (st_args s)));
     ("metadata_from_cmd_line", json_value (metadata_from_cmd_line s));
     ("metadata_from_cmd_return", json_value (VDict (metadata_from_cmd_return s)))].

Definition optional_attr {A} (key : string) (f : A → pyval) (o : option A)
  : gmap string pyval :=
  match o with Some a => {[ key := f a ]} | None => ∅ end.

(** The keyword arguments [**file_info]: the keys that the entry has. *)
Definition file_info_attrs (info : file_info) : gmap string pyval :=
  list_to_map
    [("fname", VStr (fi_fname info)); ("realpath", VStr (fi_realpath info));
     ("abspath", VStr (fi_abspath info)); ("arg", VStr (fi_arg info));
     ("arg_idx", VList ((fun i : nat => VInt (Z.of_nat i)) <$> fi_arg_idx info))]
  ∪ optional_attr "hash" VStr (fi_hash info)
  ∪ optional_attr "size" VInt (fi_size info)
  ∪ optional_attr "mtime" VInt (fi_mtime info)
  ∪ optional_attr "ctime" VInt (fi_ctime info)
  ∪ optional_attr "owner" VStr (fi_owner info).

(** [s.endswith(suffix)] *)
Definition endswith (s suffix : string) : bool :=
  String.prefix (String.rev suffix) (String.rev s).

(** [port_id = step_id + '__' + port_name] *)
Definition port_id (sid port : string) : string := sid +:+ "__" +:+ port.

(** The body of the loop over the ports of one kind. *)
Definition load_port (file_kind : role) (sid : string) (port : string)
    (info : file_info) (pgraph : DiGraph) : DiGraph :=
  let pid := port_id sid port in
  let g1 := add_node pid (file_info_attrs info) pgraph in
  let g2 :=
    add_node pid
      {[ "node_kind" := VStr (match file_kind with
                              | Input => "input" | Output => "output" end) ]}
      g1 in
  let g3 :=
    match file_kind with
    | Input => add_edge pid sid g2
    | Output => add_edge sid pid g2
    end in
  match fi_hash info with
  | Some file_id =>
      if negb (String.eqb file_id "") then
        let g4 := add_node file_id {[ "node_kind" := VStr "file" ]} g3 in
        match file_kind with
        | Input => add_edge file_id pid g4
        | Output => add_edge pid file_id g4
        end
      else g3
  | None => g3
  end.

(** The body of the loop over the files of the store, for one parsed
    document. *)
Definition load_record (step_record : step_data) (pgraph : DiGraph) : DiGraph :=
  let sid := step_id (sd_step step_record) in
  let g1 :=
    add_node sid
      (<["node_kind" := VStr "step"]> (step_attrs (sd_step step_record)))
      pgraph in
  let g2 := map_fold (load_port Input sid) g1 (in_files step_record) in
  map_fold (load_port Output sid) g2 (out_files step_record).

(** The loop over [os.listdir(path)]: other names than [*.json] are passed
    over. *)
Fixpoint load_listing (listing : list (string * step_data)) (pgraph : DiGraph)
  : DiGraph :=
  match listing with
  | [] => pgraph
  | (step_record_fname, step_record) :: rest =>
      load_listing rest
        (if endswith step_record_fname ".json"
         then load_record step_record pgraph
         else pgraph)
  end.

(** [if path is None: path = metadata_dir()] *)
Definition store_path (environ : gmap string string) (path : option string)
  : result string :=
  match path with
  | Some p => Ok p
  | None => metadata_dir environ
  end.

(** [ProvenanceGraph.load(path)].  The function neither creates a graph nor
    receives one: the name [pgraph] in its body is looked up among the
    globals of the module when the function runs, where [globals_pgraph] is
    what that name is bound to, if anything.  The result comes with the
    binding after the call, since the graph object is updated in place. *)
Definition ProvenanceGraph_load (globals_pgraph : option DiGraph)
    (environ : gmap string string)
    (listdir : string → outcome (list (string * step_data)))
    (path : option string) : result DiGraph * option DiGraph :=
  match
    (dir ← store_path environ path;
     call (listdir dir))
  with
  | Raise e => (Raise e, globals_pgraph)
  | Ok listing =>
      match globals_pgraph with
      | None => (Raise (NameError "pgraph"), None)
      | Some pgraph =>
          let g := load_listing listing pgraph in
          (Ok g, Some g)
      end
  end.

(** ** Run identifiers shared by the steps of a workflow *)

(** [set_run_id()]: [os.environ['VIRAL_NGS_METADATA_RUN_ID'] =
    create_run_id()].  Called without a time, [create_run_id] stamps the
    identifier with the current time [now]. *)
Definition set_run_id `{External} (sys : system) (uuid4 : string) (now : Z)
    (environ : gmap string string) : result (gmap string string) :=
  fresh ← create_run_id sys uuid4 now;
  Ok (<["VIRAL_NGS_METADATA_RUN_ID" := fresh]> environ).

(** ** Tagging the code version with git

    The body of [tag_code_version], of which the recorder above only uses
    the returned hash. *)
Module Git.

(** What the function needs from outside: [util.misc.run_and_print] on an
    argument vector, giving the return code and the standard output, and
    the change of directory of [util.file.pushd_popd]. *)
Record shell := Shell {
  run_and_print : list string → outcome (Z * string);
  chdir : string → outcome unit
}.

(** White space as [str.strip] and [str.split] take it, on ASCII text:
    the characters 9 to 13 and 28 to 32. *)
Definition is_space (a : Ascii.ascii) : bool :=
  let n := Ascii.nat_of_ascii a in
  (Nat.leb 9 n && Nat.leb n 13) || (Nat.leb 28 n && Nat.leb n 32).

(** [s.strip()] *)
Fixpoint lstrip (s : string) : string :=
  match s with
  | String a s' => if is_space a then lstrip s' else s
  | EmptyString => EmptyString
  end.
Definition strip (s : string) : string :=
  String.rev (lstrip (String.rev (lstrip s))).

(** [s.split()]: the runs of characters between white space; [cur] holds
    the run being read, last character first. *)
Fixpoint split_go (cur : option string) (s : string) : list string :=
  match s with
  | EmptyString => option_list (String.rev <$> cur)
  | String a s' =>
      if is_space a then option_list (String.rev <$> cur) ++ split_go None s'
      else split_go (Some (String a (default EmptyString cur))) s'
  end.
Definition split (s : string) : list string := split_go None s.

(** The double quote character, for the format argument of [git log]. *)
Definition dquote : string := String (Ascii.ascii_of_nat 34) EmptyString.

Definition git_stash_create : string := "git stash create".
Definition git_log : string :=
  "git log -1 --format=" +:+ dquote +:+ "%H" +:+ dquote.

(** [cmd.strip().split()] *)
Definition argv_of (cmd : string) : list string := split (strip cmd).

(** The inner function [run_cmd(cmd)]; the commands that were started are
    appended to a trace. *)
Definition run_cmd (sh : shell) (cmd : string) (trace : list (list string))
  : result string * list (list string) :=
  let out := "" in
  let argv := argv_of cmd in
  match call (run_and_print sh argv) with
  | Raise e => (Raise e, trace ++ [argv])
  | Ok (returncode, stdout) =>
      (Ok (if returncode =? 0 then strip stdout else out), trace ++ [argv])
  end.

(** [tag_code_version(tag, push_to)]: the returned hash and the commands
    that were started.  Any exception under the [try] ends the attempt with
    a warning; the hash found so far is still returned. *)
Definition tag_code_version (sh : shell) (project_path : outcome string)
    (tag : string) (push_to : option string) (trace : list (list string))
  : string * list (list string) :=
  let code_hash := "" in
  match (dir ← call project_path; call (chdir sh dir)) with
  | Raise _ => (code_hash, trace)
  | Ok _ =>
      match run_cmd sh git_stash_create trace with
      | (Raise _, t1) => (code_hash, t1)
      | (Ok stash, t1) =>
          let '(found, t2) :=
            if truthy (VStr stash) then (Ok stash, t1)
            else run_cmd sh git_log t1 in
          match found with
          | Raise _ => (code_hash, t2)
          | Ok code_hash =>
              match run_cmd sh ("git tag " +:+ tag +:+ " " +:+ code_hash) t2 with
              | (Raise _, t3) => (code_hash, t3)
              | (Ok _, t3) =>
                  if truthy (from_option VStr VNone push_to) then
                    (code_hash,
                     (run_cmd sh ("git push " +:+ default "" push_to +:+ " " +:+ tag)
                        t3).2)
                  else (code_hash, t3)
              end
          end
      end
  end.

End Git.

(** A system whose code hash is what [Git.tag_code_version] returns. *)
Definition with_git (sh : Git.shell) (sys : system) : system :=
  System (sys_beg_time sys) (sys_end_time sys) (sys_uuid4_a sys)
    (sys_uuid4_b sys) (sys_getuser sys) (sys_getcwd sys) (sys_get_version sys)
    (sys_get_project_path sys) (sys_platform sys) (sys_available_cpu_count sys)
    (sys_getfqdn sys) (sys_argv sys)
    (fun tag push_to =>
       (Git.tag_code_version sh (sys_get_project_path sys) tag push_to []).1)
    (sys_dump_file sys).

(** ** Vocabulary of the statements *)

(** What the invoker gets, given how the [try] part ended. *)
Definition surfaced (ran : result pyval) : result pyval :=
  match ran with
  | Ok _ => Ok VNone
  | Raise e =>
      if exn_is_Exception e && negb (exn_truth e) then Ok VNone else Raise e
  end.

(** The world after the [finally] block, given how the [try] part ended
    and the world [w1] it left: a failed recording changes nothing. *)
Definition recorded_world `{External} (environ : gmap string string)
    (sys : system) (module_name command_name : string)
    (args_dict : list (string * pyval)) (ran : result pyval) (w1 : world)
  : world :=
  match record_step environ sys module_name command_name args_dict
          (cmd_result_of ran) (cmd_exception_of ran) w1 with
  | Ok w2 => w2
  | Raise _ => w1
  end.

(** An entry with identity and statistics: the identity is what [Hasher]
    gives for the file, possibly empty; size and times are there when
    [os.stat] succeeds on the path, the owner when moreover the user id is in
    the password database. *)
Definition stat_fields_of (fs : filesystem) (info : file_info) : Prop :=
  match fs_files fs !! fi_fname info with
  | Some st =>
      fi_size info = Some (i_size st) ∧ fi_mtime info = Some (i_mtime st) ∧
      fi_ctime info = Some (i_ctime st) ∧
      fi_owner info = fs_passwd fs !! i_uid st
  | None =>
      fi_size info = None ∧ fi_mtime info = None ∧ fi_ctime info = None ∧
      fi_owner info = None
  end.

Definition full_entry `{External} (fs : filesystem) (info : file_info) : Prop :=
  (∃ h, fi_hash info = Some h ∧ Hasher_call "sha1" fs (fi_fname info) = Ok h) ∧
  stat_fields_of fs info.

(** An entry with path information only. *)
Definition path_only_entry (info : file_info) : Prop :=
  fi_hash info = None ∧ fi_size info = None ∧ fi_mtime info = None ∧
  fi_ctime info = None ∧ fi_owner info = None.

(** The mapping of a document that holds the ports of a role. *)
Definition files_of_role (r : role) (doc : step_data) : gmap string file_info :=
  match r with Input => in_files doc | Output => out_files doc end.

(** The non-empty content identity of an entry, if it has one. *)
Definition identity_of (info : file_info) : option string :=
  match fi_hash info with
  | Some h => if String.eqb h "" then None else Some h
  | None => None
  end.

(** The nodes and the edges that one port brings to the graph. *)
Definition port_nodes (sid port : string) (info : file_info) : gset string :=
  {[ port_id sid port; sid ]} ∪
  match identity_of info with Some h => {[ h ]} | None => ∅ end.

Definition port_edges (file_kind : role) (sid port : string) (info : file_info)
  : gset (string * string) :=
  match file_kind with
  | Input =>
      {[ (port_id sid port, sid) ]} ∪
      match identity_of info with
      | Some h => {[ (h, port_id sid port) ]}
      | None => ∅
      end
  | Output =>
      {[ (sid, port_id sid port) ]} ∪
      match identity_of info with
      | Some h => {[ (port_id sid port, h) ]}
      | None => ∅
      end
  end.

(** The nodes and the edges that one record brings to the graph. *)
Definition record_node (r : step_data) (x : string) : Prop :=
  x = step_id (sd_step r) ∨
  ∃ file_kind port info,
    files_of_role file_kind r !! port = Some info ∧
    x ∈ port_nodes (step_id (sd_step r)) port info.

Definition record_edge (r : step_data) (e : string * string) : Prop :=
  ∃ file_kind port info,
    files_of_role file_kind r !! port = Some info ∧
    e ∈ port_edges file_kind (step_id (sd_step r)) port info.

(** The names that a record gives to its step node and to its port nodes. *)
Definition step_or_port_id (r : step_data) (x : string) : Prop :=
  x = step_id (sd_step r) ∨
  ∃ file_kind port,
    is_Some (files_of_role file_kind r !! port) ∧
    x = port_id (step_id (sd_step r)) port.

(** A node is absent, or is a file node with no attribute but its kind. *)
Definition file_node_or_absent (h : string) (g : DiGraph) : Prop :=
  nodes g !! h = None ∨ nodes g !! h = Some {[ "node_kind" := VStr "file" ]}.

(** The documents of a listing that [load] reads. *)
Definition loaded (listing : list (string * step_data)) (r : step_data) : Prop :=
  ∃ fname, (fname, r) ∈ listing ∧ endswith fname ".json" = true.

(** Every entry of the two mappings was made by [make_file_info] for the
    role of its mapping. *)
Definition entries_made `{External} (fs : filesystem) (ce : option exn)
    (files : gmap string file_info * gmap string file_info) : Prop :=
  (∀ port info, files.1 !! port = Some info →
     ∃ arg idx f, make_file_info fs ce arg idx Input f = Ok info) ∧
  (∀ port info, files.2 !! port = Some info →
     ∃ arg idx f, make_file_info fs ce arg idx Output f = Ok info).

(** A collaborator whose call fails. *)
Definition failed {A} (o : outcome A) : Prop :=
  match o with Fails _ _ => True | Done _ => False end.

(** The value found in [val] by following a list of positions through
    nested lists. *)
Fixpoint value_at (val : pyval) (idx : list nat) : option pyval :=
  match idx with
  | [] => Some val
  | i :: idx' =>
      match val with
      | VList l => l !! i ≫= λ v, value_at v idx'
      | _ => None
      end
  end.

(** A graph transformer that only writes: it updates the attributes of some
    nodes, giving [A n] to node [n] on top of what the node had, and adds
    the edges [E]. *)
Definition writes_only (f : DiGraph → DiGraph) : Prop :=
  ∃ (A : string → option (gmap string pyval)) (E : gset (string * string)),
    ∀ g,
      (∀ n, nodes (f g) !! n
            = match A n with
              | Some a => Some (a ∪ default ∅ (nodes g !! n))
              | None => nodes g !! n
              end) ∧
      edges (f g) = E ∪ edges g.

(** The file occurrences of a list of parameters, in the order in which the
    two loops of the recorder visit them: for each, the argument name, the
    positions, the role and the file name. *)
Definition occurrences_of (params : list (string * pyval))
  : list (string * list nat * role * string) :=
  params ≫= λ p, (λ o, (p.1, o.1, o.2.1, o.2.2)) <$> get_FileArgs p.2 [].

(** The last occurrence of role [r] whose port name is [port], if there is
    one: each occurrence stores its entry under its port name in the mapping
    of its role, over what an earlier one stored there. *)
Fixpoint last_occurrence (r : role) (port : string)
    (occurrences : list (string * list nat * role * string))
  : option (string * list nat * role * string) :=
  match occurrences with
  | [] => None
  | (arg, idx, r0, f) :: rest =>
      match last_occurrence r port rest with
      | Some later => Some later
      | None =>
          if bool_decide (r0 = r ∧ port_name arg idx = port)
          then Some (arg, idx, r0, f) else None
      end
  end.

(** ** Sample instances

    A small concrete system on which the definitions can be run. *)

Definition sample_external : External :=
  {| digest := fun alg bs => alg +:+ pretty (length bs);
     string_to_file_name := fun s => s;
     realpath := fun s => "/data/" +:+ s;
     abspath := fun s => "/data/" +:+ s;
     path_join := fun a b => a +:+ "/" +:+ b;
     basename := fun s => s;
     strftime := fun t => "20" +:+ pretty t;
     str_hash := fun s => Z.of_nat (String.length s) |}.

Definition sample_file (bytes : list Byte.byte) (mtime : Z) : inode :=
  Inode Regular bytes (Z.of_nat (length bytes)) mtime mtime 0 true true.

Definition read_only (i : inode) : inode :=
  Inode (i_kind i) (i_bytes i) (i_size i) (i_mtime i) (i_ctime i) (i_uid i)
    (i_readable i) false.

Definition unreadable (i : inode) : inode :=
  Inode (i_kind i) (i_bytes i) (i_size i) (i_mtime i) (i_ctime i) (i_uid i)
    false (i_writable i).

(** Two copies of the same bytes under different names and times, a
    read-only file, a directory and an unreadable file. *)
Definition sample_fs : filesystem :=
  Filesystem
    (list_to_map
       [("a", sample_file [Byte.x41; Byte.x42] 10);
        ("copy_of_a", sample_file [Byte.x41; Byte.x42] 99);
        ("ro", read_only (sample_file [Byte.x41] 11));
        ("dir", Inode Directory [] 0 12 12 0 true true);
        ("secret", unreadable (sample_file [Byte.x41; Byte.x42] 13))])
    (fun p => negb (String.prefix "/locked/" p))
    {[ 0 := "root" ]}
    50.

Definition tracking_on : gmap string string :=
  {[ "VIRAL_NGS_METADATA_PATH" := "md" ]}.

Definition tracking_off : gmap string string := ∅.

Definition tracking_on_skip : gmap string string :=
  <[ "VIRAL_NGS_SKIP_CMD" := "1" ]> tracking_on.

Definition tracking_off_skip : gmap string string :=
  {[ "VIRAL_NGS_SKIP_CMD" := "1" ]}.

Definition sample_sys : system :=
  System 100 105 "uuid-a" "uuid-b" (Done "me") (Done "work") (Done "v1.0")
    (Done "/opt/viral-ngs") (Done "Linux") (Done 4) (Done "host.example")
    ["prog"; "cmd"] (fun _ _ => "c0ffee") (fun _ => Done tt).

(** The same system with a metadata store that cannot be written. *)
Definition sample_sys_full_disk : system :=
  System 100 105 "uuid-a" "uuid-b" (Done "me") (Done "work") (Done "v1.0")
    (Done "/opt/viral-ngs") (Done "Linux") (Done 4) (Done "host.example")
    ["prog"; "cmd"] (fun _ _ => "c0ffee")
    (fun p => Fails "OSError" "No space left on device").

Definition sample_world : world := World sample_fs ∅ 0.

(** One input file, two declared output files and a plain parameter. *)
Definition sample_args : list (string * pyval) :=
  [("metadata", VNone);
   ("func_main", VStr "<function>");
   ("inp", VFileArg Input "a");
   ("outs", VList [VFileArg Output "b"; VFileArg Output "c"]);
   ("n", VInt 3)].

(** A body that writes the first of its two output files and returns [0]. *)
Definition sample_body : command := fun args fs =>
  (Ok (VInt 0),
   set_files fs (<["b" := sample_file [Byte.x41; Byte.x42; Byte.x43] 60]> (fs_files fs))).

(** A body that writes part of an output file and then raises. *)
Definition failing_body (e : exn) : command := fun args fs =>
  (Raise e, set_files fs (<["b" := sample_file [Byte.x41] 60]> (fs_files fs))).

Definition ValueError : exn := builtin_error "ValueError" "bad input".

(** An exception class that defines [__len__], here with length [0]. *)
Definition empty_error_list : exn := Exn "ErrorList" "" true false.

(** [SystemExit] derives from [BaseException] only. *)
Definition SystemExit : exn := Exn "SystemExit" "1" false true.

Definition sample_step_path : string := "md/100__me__work__uuid-b__mod__cmd.json".

(** Two records of a store: step [A] writes a file that step [B] reads,
    under another name. *)
Definition sample_step (sid : string) : step :=
  Step sid "run-1" "mod" "cmd"
    (VersionInfo "v1.0" "/opt/viral-ngs" "/opt/viral-ngs" "c0ffee")
    (RunEnv "md" "Linux" 4 "host.example" "me" "work")
    (RunInfo 100 105 5 None ["prog"; "cmd"] false)
    [] (VDict []) [].

Definition sample_entry (fname arg : string) (identity : option string)
  : file_info :=
  FileInfo fname ("/data/" +:+ fname) ("/data/" +:+ fname) arg []
    identity (Some 2) (Some 10) (Some 10) (Some "root").

Definition record_A : step_data :=
  StepData "1.0.0" (sample_step "A") ∅
    {[ "out" := sample_entry "b" "out" (Some "sha1_x") ]}.

Definition record_B : step_data :=
  StepData "1.0.0" (sample_step "B")
    {[ "inp" := sample_entry "renamed_b" "inp" (Some "sha1_x") ]}
    {[ "res" := sample_entry "r" "res" None ]}.

Definition sample_listdir (dir : string) : outcome (list (string * step_data)) :=
  if String.eqb dir "md"
  then Done [("A.json", record_A); ("A.json.bak", record_A); ("B.json", record_B)]
  else Fails "FileNotFoundError" dir.

(** A shell in a work tree with uncommitted changes: [git stash create]
    prints the hash of a new commit, followed by a line end. *)
Definition sample_shell : Git.shell :=
  Git.Shell
    (fun argv =>
       if decide (argv = ["git"; "stash"; "create"])
       then Done (0, "abc123" +:+ String (Ascii.ascii_of_nat 10) EmptyString)
       else if decide (argv = ["git"; "log"; "-1"; "--format=" +:+ Git.dquote +:+ "%H" +:+ Git.dquote])
       then Done (0, "fedcba")
       else Done (0, ""))
    (fun dir => Done tt).

(** A value with files two levels deep, a tuple and an empty name. *)
Definition sample_nested : pyval :=
  VList [VList [VFileArg Input "r1"; VFileArg Input "r2"];
         VTuple [VFileArg Input "hidden"];
         VList [VFileArg Output ""; VFileArg Output "o1"]].

(** The sample system on a host where the user name cannot be had. *)
Definition sample_sys_no_user : system :=
  System 100 105 "uuid-a" "uuid-b" (Fails "KeyError" "getpwuid(): uid not found")
    (Done "work") (Done "v1.0") (Done "/opt/viral-ngs") (Done "Linux") (Done 4)
    (Done "host.example") ["prog"; "cmd"] (fun _ _ => "c0ffee") (fun _ => Done tt).

(** The environment of a workflow that has been given the run identifier
    [run-7]. *)
Definition tracking_on_run_7 : gmap string string :=
  <[ "VIRAL_NGS_METADATA_RUN_ID" := "run-7" ]> tracking_on.

(** A graph that already holds one edge between two nodes. *)
Definition sample_graph : DiGraph := add_edge "old_step" "old_port" empty_graph.

(** The sample command run under tracking, with a body that returns and with
    a body that raises. *)
Definition sample_run : result pyval * world :=
  _run_cmd_with_tracking (H := sample_external) tracking_on sample_sys
    "mod" "cmd" sample_body sample_args sample_world.

Definition sample_failed_run : result pyval * world :=
  _run_cmd_with_tracking (H := sample_external) tracking_on sample_sys
    "mod" "cmd" (failing_body ValueError) sample_args sample_world.

(** Arguments of which two have the port name [reads_0]: the first file of
    the list [reads], and the argument [reads_0] itself. *)
Definition colliding_args : list (string * pyval) :=
  [("metadata", VNone);
   ("reads", VList [VFileArg Input "a"]);
   ("reads_0", VFileArg Input "ro")].

(** * Properties *)

Section properties.
Context `{External}.

(** ** Content identity *)

Lemma isfile_lookup fs p :
  isfile fs p = true → ∃ i, fs_files fs !! p = Some i ∧ i_kind i = Regular.
Proof.
  unfold isfile. destruct (fs_files fs !! p) as [i|]; [|done].
  intros Hk. apply bool_decide_eq_true in Hk. eauto.
Qed.

Lemma Hasher_call_regular alg fs p i :
  fs_files fs !! p = Some i → i_kind i = Regular → i_readable i = true →
  Hasher_call alg fs p = Ok (alg +:+ "_" +:+ digest alg (i_bytes i)).
Proof.
  intros Hp Hk Hr. unfold Hasher_call, isfile, os_stat, hash_file, open_read, S_ISFIFO.
  rewrite Hp. cbn. rewrite !Hk, Hr. reflexivity.
Qed.

Lemma Hasher_call_total alg fs p : ∃ s, Hasher_call alg fs p = Ok s.
Proof.
  unfold Hasher_call, try_except_Exception.
  destruct (isfile fs p); [|eauto].
  unfold os_stat. destruct (fs_files fs !! p) as [i|] eqn:Hp; simpl; [|eauto].
  destruct (S_ISFIFO i); simpl; [eauto|].
  unfold hash_file, open_read. rewrite Hp.
  destruct (bool_decide (i_kind i = Directory)); simpl; [eauto|].
  destruct (i_readable i); simpl; eauto.
Qed.

Lemma hash_file_raises_Exception fs p alg e :
  hash_file fs p alg = Raise e → exn_is_Exception e = true.
Proof.
  unfold hash_file, open_read.
  destruct (fs_files fs !! p) as [i|]; simpl; [|by intros [= <-]].
  destruct (bool_decide (i_kind i = Directory)); simpl; [by intros [= <-]|].
  destruct (i_readable i); simpl; [done|by intros [= <-]].
Qed.

Lemma hash_file_ok_readable fs p alg i :
  fs_files fs !! p = Some i → i_kind i = Regular →
  ¬ raises (hash_file fs p alg) → i_readable i = true.
Proof.
  intros Hp Hk Hn. unfold hash_file, open_read in Hn.
  rewrite Hp, Hk in Hn. simpl in Hn.
  destruct (i_readable i); [done|]. by destruct Hn.
Qed.

(** C6.  Two regular files with the same bytes, each of which can be read,
    get the same identity under one algorithm, whatever their paths, names
    and times, and that identity is the algorithm name, an underscore and
    the digest.  A path that is missing or not a regular file gets the empty
    identity, so does a file whose hashing fails, and in no case does the
    call raise. *)
Theorem Hasher_call_identity (alg : string) :
  (∀ fs1 fs2 p1 p2 i1 i2,
     fs_files fs1 !! p1 = Some i1 → fs_files fs2 !! p2 = Some i2 →
     i_kind i1 = Regular → i_kind i2 = Regular →
     i_bytes i1 = i_bytes i2 →
     ¬ raises (hash_file fs1 p1 alg) → ¬ raises (hash_file fs2 p2 alg) →
     Hasher_call alg fs1 p1 = Hasher_call alg fs2 p2 ∧
     Hasher_call alg fs1 p1 = Ok (alg +:+ "_" +:+ digest alg (i_bytes i1))) ∧
  (∀ fs p, isfile fs p = false → Hasher_call alg fs p = Ok "") ∧
  (∀ fs p, raises (hash_file fs p alg) → Hasher_call alg fs p = Ok "") ∧
  (∀ fs p, ∃ identity, Hasher_call alg fs p = Ok identity).
Proof.
  split; [|split; [|split]].
  - intros fs1 fs2 p1 p2 i1 i2 Hp1 Hp2 Hk1 Hk2 Hb Hn1 Hn2.
    rewrite (Hasher_call_regular alg fs1 p1 i1), (Hasher_call_regular alg fs2 p2 i2);
      eauto using hash_file_ok_readable.
    split; congruence.
  - intros fs p Hf. unfold Hasher_call. by rewrite Hf.
  - intros fs p Hr. unfold Hasher_call.
    destruct (isfile fs p); [|done].
    unfold os_stat. destruct (fs_files fs !! p) as [i|] eqn:Hp; [|done]. simpl.
    destruct (S_ISFIFO i); [done|]. simpl.
    destruct (hash_file fs p alg) as [h|e] eqn:Hh; [by destruct Hr|].
    simpl. by rewrite (hash_file_raises_Exception _ _ _ _ Hh).
  - intros fs p. apply Hasher_call_total.
Qed.

(** ** File-role arguments *)

Lemma open_read_readable fs p :
  readable_path fs p = true → open_read fs p = Ok tt.
Proof.
  unfold readable_path, open_read. destruct (fs_files fs !! p) as [i|]; [|done].
  destruct (bool_decide (i_kind i = Directory)); [done|]. simpl. by intros ->.
Qed.

Lemma open_read_unreadable fs p :
  readable_path fs p = false → raises (open_read fs p).
Proof.
  unfold readable_path, open_read. destruct (fs_files fs !! p) as [i|]; [|done].
  destruct (bool_decide (i_kind i = Directory)); [done|]. simpl. by intros ->.
Qed.

Lemma string_eqb_refl (s : string) : String.eqb s s = true.
Proof. apply String.eqb_refl. Qed.

(** C7.  With tracking enabled, [InFile] over a path that does not exist or
    cannot be opened for reading raises from the constructor itself; over a
    readable path it returns a value that is equal to the plain path string,
    in both directions, with the same hash. *)
Theorem InFile_checks_readability environ fs fname :
  is_metadata_tracking_enabled environ = true →
  (fs_files fs !! fname = None → raises (InFile environ fs fname)) ∧
  (readable_path fs fname = false → raises (InFile environ fs fname)) ∧
  (readable_path fs fname = true →
   ∃ v, InFile environ fs fname = Ok v ∧
        as_str v = Some fname ∧
        py_eq v (VStr fname) = true ∧ py_eq (VStr fname) v = true ∧
        py_hash v = py_hash (VStr fname)).
Proof.
  intros Hon. unfold InFile. rewrite Hon.
  assert (Hbad : readable_path fs fname = false →
                 raises (_ ← open_read fs fname; Ok (FileArg_new Input fname))).
  { intros Hr. pose proof (open_read_unreadable _ _ Hr) as Ho.
    by destruct (open_read fs fname). }
  split; [|split].
  - intros Hnone. apply Hbad. unfold readable_path. by rewrite Hnone.
  - exact Hbad.
  - intros Hr. rewrite (open_read_readable _ _ Hr). simpl.
    exists (VFileArg Input fname). unfold py_eq, py_hash. simpl.
    by rewrite string_eqb_refl.
Qed.

Lemma unlink_open_write_fresh fs p fs1 :
  fs_files fs !! p = None → open_write fs p = Ok fs1 →
  path_exists fs1 p = true ∧ unlink fs1 p = Ok fs.
Proof.
  intros Hp. unfold open_write. rewrite Hp.
  destruct (fs_creatable fs p); [|done]. intros [= <-].
  unfold path_exists, unlink, set_files. simpl.
  rewrite lookup_insert_eq. split; [by apply bool_decide_eq_true|].
  rewrite delete_insert_id by done. by destruct fs.
Qed.

Lemma path_exists_false fs p : path_exists fs p = false ↔ fs_files fs !! p = None.
Proof.
  unfold path_exists. rewrite bool_decide_eq_false, <-eq_None_not_Some. done.
Qed.

(** C8, as amended.  With tracking enabled and [VIRAL_NGS_SKIP_CMD] absent,
    [OutFile] over an existing path fails unless the path is a regular file
    that may be written, and then leaves everything as it was; over a path
    that does not exist it creates an empty file there and removes it again,
    fails when the file cannot be created, and on success the file system is
    as before, the path still absent.  With [VIRAL_NGS_SKIP_CMD] present the
    constructor checks nothing and touches nothing. *)
Theorem OutFile_checks_writability environ fs fname :
  is_metadata_tracking_enabled environ = true →
  (skip_cmd environ = false →
   (path_exists fs fname = true →
    (isfile fs fname && access_W_OK fs fname = false →
     raises (OutFile environ fs fname).1 ∧ (OutFile environ fs fname).2 = fs) ∧
    (isfile fs fname && access_W_OK fs fname = true →
     OutFile environ fs fname = (Ok (VFileArg Output fname), fs))) ∧
   (path_exists fs fname = false →
    (raises (open_write fs fname) →
     raises (OutFile environ fs fname).1 ∧ (OutFile environ fs fname).2 = fs) ∧
    (∀ fs1, open_write fs fname = Ok fs1 →
       path_exists fs1 fname = true ∧ i_bytes <$> fs_files fs1 !! fname = Some [] ∧
       unlink fs1 fname = Ok fs ∧
       OutFile environ fs fname = (Ok (VFileArg Output fname), fs) ∧
       path_exists (OutFile environ fs fname).2 fname = false))) ∧
  (skip_cmd environ = true →
   OutFile environ fs fname = (Ok (VFileArg Output fname), fs)).
Proof.
  intros Hon. unfold OutFile. rewrite Hon. split.
  - intros ->. simpl. split.
    + intros ->. simpl. split; intros ->; done.
    + intros Hne. rewrite Hne. simpl. split.
      * intros Hr. by destruct (open_write fs fname).
      * intros fs1 Hw. rewrite Hw.
        apply path_exists_false in Hne as Hnone.
        destruct (unlink_open_write_fresh _ _ _ Hnone Hw) as [Hex Hun].
        rewrite Hun. simpl. repeat split; try done.
        unfold open_write in Hw. rewrite Hnone in Hw.
        destruct (fs_creatable fs fname); [|done]. injection Hw as <-.
        simpl. by rewrite lookup_insert_eq.
  - by intros ->.
Qed.

(** ** The step recorder *)

Lemma bind_Raise {A B} (c : result A) (k : A → result B) e :
  c ≫= k = Raise e → c = Raise e ∨ ∃ a, c = Ok a ∧ k a = Raise e.
Proof. destruct c as [a|e']; simpl; [eauto|]. intros [= ->]. by left. Qed.

Lemma bind_Ok {A B} (c : result A) (k : A → result B) b :
  c ≫= k = Ok b → ∃ a, c = Ok a ∧ k a = Ok b.
Proof. destruct c as [a|e']; simpl; [eauto|done]. Qed.

Ltac raise_inv H :=
  repeat (cbv beta zeta in H;
          match type of H with
          | mbind _ _ = Raise _ => apply bind_Raise in H as [H|(? & ? & H)]
          end).

Ltac ok_inv H :=
  repeat (cbv beta zeta in H;
          match type of H with
          | mbind _ _ = Ok _ =>
              let a := fresh "a" in
              let Ha := fresh "Ha" in
              apply bind_Ok in H as (a & Ha & H)
          end).

Lemma call_raises_Exception {A} (o : outcome A) e :
  call o = Raise e → exn_is_Exception e = true.
Proof. destruct o; simpl; [done|]. by intros [= <-]. Qed.

Lemma metadata_dir_raises_Exception environ e :
  metadata_dir environ = Raise e → exn_is_Exception e = true.
Proof.
  unfold metadata_dir. destruct (environ !! _); [done|]. by intros [= <-].
Qed.

Lemma metadata_dir_enabled environ :
  is_metadata_tracking_enabled environ = true → ∃ md, metadata_dir environ = Ok md.
Proof.
  unfold is_metadata_tracking_enabled, metadata_dir. intros Hon.
  apply bool_decide_eq_true, elem_of_dom in Hon as [md ->]. eauto.
Qed.

Lemma create_run_id_raises_Exception sys uuid t e :
  create_run_id sys uuid t = Raise e → exn_is_Exception e = true.
Proof.
  unfold create_run_id. intros Hr. raise_inv Hr;
    eauto using call_raises_Exception. done.
Qed.

Lemma make_file_info_total fs ce arg idx r file_arg :
  ∃ info, make_file_info fs ce arg idx r file_arg = Ok info.
Proof.
  unfold make_file_info.
  destruct (bool_decide (r = Input) || bool_decide (ce = None)); [|eauto].
  destruct (Hasher_call_total "sha1" fs file_arg) as [h ->]. simpl. eauto.
Qed.

Lemma record_file_args_total fs ce arg occurrences files :
  ∃ files', record_file_args fs ce arg occurrences files = Ok files'.
Proof.
  revert files. induction occurrences as [|[idx [r f]] rest IH]; intros files; simpl.
  - eauto.
  - destruct (make_file_info_total fs ce arg idx r f) as [info ->]. simpl. apply IH.
Qed.

Lemma record_params_total fs ce params files :
  ∃ files', record_params fs ce params files = Ok files'.
Proof.
  revert files. induction params as [|[arg val] rest IH]; intros files; simpl.
  - eauto.
  - destruct (record_file_args_total fs ce arg (get_FileArgs val []) files)
      as [files1 ->]. simpl. apply IH.
Qed.

Lemma assemble_step_data_raises_Exception environ sys m c args_dict res ce fs e :
  assemble_step_data environ sys m c args_dict res ce fs = Raise e →
  exn_is_Exception e = true.
Proof.
  unfold assemble_step_data. intros Hr. raise_inv Hr;
    eauto using call_raises_Exception, metadata_dir_raises_Exception,
      create_run_id_raises_Exception.
  - match type of Hr with
    | record_params ?fs ?ce ?ps ?fl = _ =>
        destruct (record_params_total fs ce ps fl) as [? Hok]; congruence
    end.
  - done.
Qed.

Lemma record_step_raises_Exception environ sys m c args_dict res ce w e :
  record_step environ sys m c args_dict res ce w = Raise e →
  exn_is_Exception e = true.
Proof.
  unfold record_step. destruct (is_metadata_tracking_enabled environ); [|done].
  intros Hr. apply bind_Raise in Hr as [Hr|([path doc] & Ha & Hr)].
  - eauto using assemble_step_data_raises_Exception.
  - raise_inv Hr; eauto using call_raises_Exception. done.
Qed.

(** The recording attempt of the [finally] block leaves the world as the
    body left it, or adds one document to the store. *)
Lemma recorded_world_cases environ sys m c args_dict ran w1 :
  let w2 := recorded_world environ sys m c args_dict ran w1 in
  w_fs w2 = w_fs w1 ∧ w_body_calls w2 = w_body_calls w1 ∧
  (w2 = w1 ∨
   ∃ path doc,
     is_metadata_tracking_enabled environ = true ∧
     assemble_step_data environ sys m c args_dict (cmd_result_of ran)
       (cmd_exception_of ran) (w_fs w1) = Ok (path, doc) ∧
     sys_dump_file sys path = Done tt ∧
     w_store w2 = <[path := doc]> (w_store w1)).
Proof.
  unfold recorded_world.
  destruct (record_step environ sys m c args_dict (cmd_result_of ran)
              (cmd_exception_of ran) w1) as [w2|e] eqn:Hrec; simpl; [|auto].
  unfold record_step in Hrec.
  destruct (is_metadata_tracking_enabled environ) eqn:Hon.
  - apply bind_Ok in Hrec as ([path doc] & Ha & Hrec).
    apply bind_Ok in Hrec as ([] & Hd & Hrec). injection Hrec as <-. simpl.
    repeat split. right. exists path, doc. repeat split; try done.
    destruct (sys_dump_file sys path) as [[]|]; done.
  - injection Hrec as <-. auto.
Qed.

Lemma recorded_world_disabled environ sys m c args_dict ran w1 :
  is_metadata_tracking_enabled environ = false →
  recorded_world environ sys m c args_dict ran w1 = w1.
Proof. intros Hoff. unfold recorded_world, record_step. by rewrite Hoff. Qed.

Lemma recorded_world_persists environ sys m c args_dict ran w1 path doc :
  is_metadata_tracking_enabled environ = true →
  assemble_step_data environ sys m c args_dict (cmd_result_of ran)
    (cmd_exception_of ran) (w_fs w1) = Ok (path, doc) →
  sys_dump_file sys path = Done tt →
  recorded_world environ sys m c args_dict ran w1
    = World (w_fs w1) (<[path := doc]> (w_store w1)) (w_body_calls w1).
Proof.
  intros Hon Ha Hd. unfold recorded_world, record_step.
  rewrite Hon, Ha. simpl. by rewrite Hd.
Qed.

Lemma run_body_store environ cmd_main args1 w :
  w_store (run_body environ cmd_main args1 w).2 = w_store w.
Proof.
  unfold run_body. destruct (negb (skip_cmd environ)); [|done].
  by destruct (cmd_main args1 (w_fs w)).
Qed.

(** The wrapper in one equation: what the invoker gets depends on the body
    alone, and the world is the one the recording attempt leaves. *)
Lemma run_cmd_with_tracking_eq environ sys m c cmd_main args w args1 :
  delattr args "metadata" = Ok args1 →
  _run_cmd_with_tracking environ sys m c cmd_main args w
    = (surfaced (run_body environ cmd_main args1 w).1,
       recorded_world environ sys m c args
         (run_body environ cmd_main args1 w).1
         (run_body environ cmd_main args1 w).2).
Proof.
  intros Hdel. unfold _run_cmd_with_tracking, recorded_world. rewrite Hdel.
  destruct (run_body environ cmd_main args1 w) as [ran w1]. simpl.
  destruct (record_step environ sys m c args (cmd_result_of ran)
              (cmd_exception_of ran) w1) as [w2|e] eqn:Hrec; simpl.
  - destruct ran as [v|e]; simpl; [done|].
    destruct (exn_is_Exception e); simpl; [|done]. by destruct (exn_truth e).
  - rewrite (record_step_raises_Exception _ _ _ _ _ _ _ _ _ Hrec).
    destruct ran as [v|e']; simpl; [done|].
    destruct (exn_is_Exception e'); simpl; [|done]. by destruct (exn_truth e').
Qed.

Lemma delattr_metadata args :
  is_Some (dict_get "metadata" args) →
  delattr args "metadata" = Ok (dict_pop "metadata" args).
Proof. intros [v Hv]. unfold delattr. by rewrite Hv. Qed.

(** The fields of an assembled document. *)
Lemma assemble_step_data_fields environ sys m c args_dict res ce fs path doc :
  assemble_step_data environ sys m c args_dict res ce fs = Ok (path, doc) →
  sd_format doc = VIRAL_NGS_METADATA_FORMAT ∧
  cmd_was_skipped (st_run_info (sd_step doc)) = skip_cmd environ ∧
  exception (st_run_info (sd_step doc)) = format_exc <$> ce ∧
  st_args (sd_step doc) = dict_pop "func_main" (dict_pop "metadata" args_dict) ∧
  metadata_from_cmd_return (sd_step doc)
    = match res with VDict d => d | _ => [] end ∧
  record_params fs ce
    (st_args (sd_step doc) ++ metadata_from_cmd_return (sd_step doc)) (∅, ∅)
    = Ok (in_files doc, out_files doc) ∧
  ∃ md, metadata_dir environ = Ok md ∧
        path = path_join md (step_id (sd_step doc) +:+ ".json").
Proof.
  unfold assemble_step_data. intros Ha. ok_inv Ha.
  injection Ha as <- <-. simpl. repeat split; try done.
  - match goal with
    | Hp : record_params _ _ _ _ = Ok ?f |- _ => rewrite Hp; by destruct f
    end.
  - eauto.
Qed.

(** C1, at the input where it fails.  When the body raises an instance of
    [Exception] whose truth value is false, the final test
    [if cmd_exception:] does not see it: the wrapper returns normally and
    the exception of the body never reaches the invoker. *)
Theorem falsy_exception_not_reraised environ sys m c cmd_main args w e fs1 :
  is_Some (dict_get "metadata" args) →
  skip_cmd environ = false →
  cmd_main (dict_pop "metadata" args) (w_fs w) = (Raise e, fs1) →
  exn_is_Exception e = true → exn_truth e = false →
  (_run_cmd_with_tracking environ sys m c cmd_main args w).1 = Ok VNone.
Proof.
  intros Hm Hskip Hbody Hexc Htruth.
  rewrite (run_cmd_with_tracking_eq _ _ _ _ _ _ _ _ (delattr_metadata _ Hm)).
  unfold run_body. rewrite Hskip, Hbody. simpl. by rewrite Hexc, Htruth.
Qed.

(** Every other exception of the body reaches the invoker unchanged. *)
Theorem body_exception_reraised environ sys m c cmd_main args w e fs1 :
  is_Some (dict_get "metadata" args) →
  skip_cmd environ = false →
  cmd_main (dict_pop "metadata" args) (w_fs w) = (Raise e, fs1) →
  exn_truth e = true ∨ exn_is_Exception e = false →
  (_run_cmd_with_tracking environ sys m c cmd_main args w).1 = Raise e.
Proof.
  intros Hm Hskip Hbody Hcase.
  rewrite (run_cmd_with_tracking_eq _ _ _ _ _ _ _ _ (delattr_metadata _ Hm)).
  unfold run_body. rewrite Hskip, Hbody. simpl.
  destruct Hcase as [->| ->]; [|done]. by rewrite andb_false_r.
Qed.

(** What the invoker gets does not depend on the collaborators of the
    recording: no failure of theirs is raised to the invoker. *)
Theorem recording_failures_invisible environ sys sys' m c cmd_main args w :
  (_run_cmd_with_tracking environ sys m c cmd_main args w).1
  = (_run_cmd_with_tracking environ sys' m c cmd_main args w).1.
Proof.
  destruct (delattr args "metadata") as [args1|e] eqn:Hdel.
  - by rewrite !(run_cmd_with_tracking_eq _ _ _ _ _ _ _ _ Hdel).
  - unfold _run_cmd_with_tracking. by rewrite Hdel.
Qed.

(** A document that an invocation added to the store is the one assembled
    from the outcome of the body, with tracking enabled and the write
    done. *)
Lemma run_cmd_with_tracking_new_document environ sys m c cmd_main args w path doc :
  is_Some (dict_get "metadata" args) →
  w_store (_run_cmd_with_tracking environ sys m c cmd_main args w).2 !! path
    = Some doc →
  w_store w !! path ≠ Some doc →
  is_metadata_tracking_enabled environ = true ∧
  sys_dump_file sys path = Done tt ∧
  w_fs (_run_cmd_with_tracking environ sys m c cmd_main args w).2
    = w_fs (run_body environ cmd_main (dict_pop "metadata" args) w).2 ∧
  assemble_step_data environ sys m c args
    (cmd_result_of (run_body environ cmd_main (dict_pop "metadata" args) w).1)
    (cmd_exception_of (run_body environ cmd_main (dict_pop "metadata" args) w).1)
    (w_fs (run_body environ cmd_main (dict_pop "metadata" args) w).2)
    = Ok (path, doc).
Proof.
  intros Hm. rewrite (run_cmd_with_tracking_eq _ _ _ _ _ _ _ _ (delattr_metadata _ Hm)).
  simpl. intros Hnew Hold.
  pose proof (recorded_world_cases environ sys m c args
                (run_body environ cmd_main (dict_pop "metadata" args) w).1
                (run_body environ cmd_main (dict_pop "metadata" args) w).2)
    as (Hfs & _ & [Hsame|(p & d & Hon & Ha & Hd & Hst)]).
  - rewrite Hsame, run_body_store in Hnew. done.
  - rewrite Hst, run_body_store in Hnew.
    apply lookup_insert_Some in Hnew as [[<- <-]|[_ Hnew]]; done.
Qed.

(** C10.  With [VIRAL_NGS_SKIP_CMD] in the environment the body is not
    executed: the count of executions and the file system stay as they were,
    the result is taken to be [None], and a record that the invocation
    persists has [cmd_was_skipped] set, no returned metadata and no
    exception.  Without the variable the body is executed exactly once. *)
Theorem skip_cmd_controls_execution environ sys cmd_main m c args w :
  is_Some (dict_get "metadata" args) →
  (skip_cmd environ = true →
   w_body_calls (add_metadata_tracking environ sys cmd_main m c args w).2
     = w_body_calls w ∧
   w_fs (add_metadata_tracking environ sys cmd_main m c args w).2 = w_fs w ∧
   (add_metadata_tracking environ sys cmd_main m c args w).1 = Ok VNone ∧
   ∀ path doc,
     w_store (add_metadata_tracking environ sys cmd_main m c args w).2 !! path
       = Some doc →
     w_store w !! path ≠ Some doc →
     cmd_was_skipped (st_run_info (sd_step doc)) = true ∧
     metadata_from_cmd_return (sd_step doc) = [] ∧
     exception (st_run_info (sd_step doc)) = None) ∧
  (skip_cmd environ = false →
   w_body_calls (add_metadata_tracking environ sys cmd_main m c args w).2
     = S (w_body_calls w) ∧
   w_fs (add_metadata_tracking environ sys cmd_main m c args w).2
     = (cmd_main (dict_pop "metadata" args) (w_fs w)).2).
Proof.
  intros Hm. unfold add_metadata_tracking. split; intros Hskip.
  - split; [|split; [|split]].
    1-3: rewrite (run_cmd_with_tracking_eq _ _ _ _ _ _ _ _ (delattr_metadata _ Hm));
      simpl;
      pose proof (recorded_world_cases environ sys m c args
                    (run_body environ cmd_main (dict_pop "metadata" args) w).1
                    (run_body environ cmd_main (dict_pop "metadata" args) w).2)
        as (Hfs & Hcalls & _);
      unfold run_body in *; rewrite Hskip in *; simpl in *; done.
    intros path doc Hnew Hold.
    destruct (run_cmd_with_tracking_new_document _ _ _ _ _ _ _ _ _ Hm Hnew Hold)
      as (_ & _ & _ & Ha).
    apply assemble_step_data_fields in Ha as (_ & Hsk & Hex & _ & Hret & _).
    unfold run_body in Hex, Hret. rewrite Hskip in Hex, Hret. simpl in *.
    by rewrite Hsk, Hskip.
  - rewrite (run_cmd_with_tracking_eq _ _ _ _ _ _ _ _ (delattr_metadata _ Hm)).
    simpl.
    pose proof (recorded_world_cases environ sys m c args
                  (run_body environ cmd_main (dict_pop "metadata" args) w).1
                  (run_body environ cmd_main (dict_pop "metadata" args) w).2)
      as (Hfs & Hcalls & _).
    simpl in *. rewrite Hfs, Hcalls. unfold run_body. rewrite Hskip. simpl.
    by destruct (cmd_main (dict_pop "metadata" args) (w_fs w)).
Qed.

(** C5, as amended.  With tracking disabled the recorder writes nothing to
    the store.  If moreover [VIRAL_NGS_SKIP_CMD] is absent, the body runs
    once on the arguments and the invoker sees its error behaviour: no
    exception when the body raises none, and the exception of the body when
    it raises one (with the usual truth value, or outside [Exception]); if
    the variable is present, nothing is run and nothing is raised.  A record
    is added to the store only if tracking is enabled; with tracking enabled
    it is added when the assembly and the write succeed. *)
Theorem tracking_disabled_writes_nothing environ sys m c cmd_main args w :
  is_Some (dict_get "metadata" args) →
  (is_metadata_tracking_enabled environ = false →
   w_store (_run_cmd_with_tracking environ sys m c cmd_main args w).2 = w_store w ∧
   (skip_cmd environ = false →
    w_fs (_run_cmd_with_tracking environ sys m c cmd_main args w).2
      = (cmd_main (dict_pop "metadata" args) (w_fs w)).2 ∧
    w_body_calls (_run_cmd_with_tracking environ sys m c cmd_main args w).2
      = S (w_body_calls w) ∧
    (¬ raises (cmd_main (dict_pop "metadata" args) (w_fs w)).1 →
     ¬ raises (_run_cmd_with_tracking environ sys m c cmd_main args w).1) ∧
    (∀ e, (cmd_main (dict_pop "metadata" args) (w_fs w)).1 = Raise e →
          exn_truth e = true ∨ exn_is_Exception e = false →
          (_run_cmd_with_tracking environ sys m c cmd_main args w).1 = Raise e)) ∧
   (skip_cmd environ = true →
    (_run_cmd_with_tracking environ sys m c cmd_main args w).2 = w ∧
    ¬ raises (_run_cmd_with_tracking environ sys m c cmd_main args w).1)) ∧
  (w_store (_run_cmd_with_tracking environ sys m c cmd_main args w).2 ≠ w_store w →
   is_metadata_tracking_enabled environ = true) ∧
  (is_metadata_tracking_enabled environ = true →
   ∀ path doc,
     assemble_step_data environ sys m c args
       (cmd_result_of (run_body environ cmd_main (dict_pop "metadata" args) w).1)
       (cmd_exception_of (run_body environ cmd_main (dict_pop "metadata" args) w).1)
       (w_fs (run_body environ cmd_main (dict_pop "metadata" args) w).2)
       = Ok (path, doc) →
     sys_dump_file sys path = Done tt →
     w_store (_run_cmd_with_tracking environ sys m c cmd_main args w).2
       = <[path := doc]> (w_store w)).
Proof.
  intros Hm.
  rewrite (run_cmd_with_tracking_eq _ _ _ _ _ _ _ _ (delattr_metadata _ Hm)).
  simpl.
  assert (Hoff : is_metadata_tracking_enabled environ = false →
                 recorded_world environ sys m c args
                   (run_body environ cmd_main (dict_pop "metadata" args) w).1
                   (run_body environ cmd_main (dict_pop "metadata" args) w).2
                 = (run_body environ cmd_main (dict_pop "metadata" args) w).2)
    by apply recorded_world_disabled.
  split; [|split].
  - intros Hdis. rewrite (Hoff Hdis), run_body_store.
    split; [done|]. unfold run_body. split; intros ->; simpl.
    + destruct (cmd_main (dict_pop "metadata" args) (w_fs w)) as [r fs1]. simpl.
      repeat split.
      * destruct r as [v|e]; simpl; [done|]. intros Hno. by destruct Hno.
      * intros e -> [Ht|Hx]; simpl; [by rewrite Ht, andb_false_r|by rewrite Hx].
    + split; [done|]. by intros [].
  - intros Hchanged. destruct (is_metadata_tracking_enabled environ) eqn:Hon; [done|].
    destruct Hchanged. by rewrite (Hoff eq_refl), run_body_store.
  - intros Hon path doc Ha Hd.
    rewrite (recorded_world_persists _ _ _ _ _ _ _ _ _ Hon Ha Hd). simpl.
    by rewrite run_body_store.
Qed.

(** *** The entries of the port mappings *)

Lemma add_stat_fields fs file_arg info :
  fi_fname info = file_arg →
  fi_size info = None → fi_mtime info = None → fi_ctime info = None →
  fi_owner info = None →
  fi_fname (add_stat fs file_arg info) = file_arg ∧
  fi_hash (add_stat fs file_arg info) = fi_hash info ∧
  stat_fields_of fs (add_stat fs file_arg info).
Proof.
  intros Hf Hs Hm Hc Ho. unfold add_stat, stat_fields_of, os_stat.
  destruct (fs_files fs !! file_arg) as [st|] eqn:Hst.
  - destruct (fs_passwd fs !! i_uid st) as [pw|] eqn:Hpw; simpl;
      rewrite ?Hf, Hst, ?Hpw; done.
  - rewrite Hf, Hst. done.
Qed.

Lemma make_file_info_entry fs ce arg idx r file_arg info :
  make_file_info fs ce arg idx r file_arg = Ok info →
  fi_fname info = file_arg ∧ fi_arg info = arg ∧ fi_arg_idx info = idx ∧
  fi_realpath info = realpath file_arg ∧ fi_abspath info = abspath file_arg ∧
  match r, ce with
  | Output, Some _ => path_only_entry info
  | _, _ => full_entry fs info
  end.
Proof.
  unfold make_file_info.
  assert (Hfull : (h ← Hasher_call "sha1" fs file_arg;
                   Ok (add_stat fs file_arg
                         (FileInfo file_arg (realpath file_arg) (abspath file_arg)
                            arg idx (Some h) None None None None))) = Ok info →
                  fi_fname info = file_arg ∧ fi_arg info = arg ∧
                  fi_arg_idx info = idx ∧
                  fi_realpath info = realpath file_arg ∧
                  fi_abspath info = abspath file_arg ∧ full_entry fs info).
  { intros Hi. apply bind_Ok in Hi as (h & Hh & Hi). injection Hi as <-.
    match goal with
    | |- context [add_stat fs file_arg ?i0] =>
        destruct (add_stat_fields fs file_arg i0) as (Hf & Hhash & Hst); try done
    end.
    unfold full_entry. rewrite Hf, Hhash. simpl.
    repeat split; try done; try (unfold add_stat, os_stat;
      destruct (fs_files fs !! file_arg) as [st|]; [|done];
      by destruct (fs_passwd fs !! i_uid st)).
    eauto. }
  destruct r, ce as [e|]; simpl; try exact Hfull.
  intros [= <-]. by repeat split.
Qed.

Lemma store_port_entries_made fs ce arg idx r f info files :
  make_file_info fs ce arg idx r f = Ok info →
  entries_made fs ce files →
  entries_made fs ce (store_port r (port_name arg idx) info files).
Proof.
  intros Hi [Hin Hout]. destruct r; split; simpl; try done;
    intros port info' [[_ <-]|[_ Hl]]%lookup_insert_Some; eauto.
Qed.

Lemma record_file_args_entries_made fs ce arg occurrences files files' :
  record_file_args fs ce arg occurrences files = Ok files' →
  entries_made fs ce files → entries_made fs ce files'.
Proof.
  revert files. induction occurrences as [|[idx [r f]] rest IH]; intros files; simpl.
  - by intros [= <-].
  - intros Hr Hfiles. apply bind_Ok in Hr as (info & Hi & Hr).
    eauto using store_port_entries_made.
Qed.

Lemma record_params_entries_made fs ce params files files' :
  record_params fs ce params files = Ok files' →
  entries_made fs ce files → entries_made fs ce files'.
Proof.
  revert files. induction params as [|[arg val] rest IH]; intros files; simpl.
  - by intros [= <-].
  - intros Hr Hfiles. apply bind_Ok in Hr as (files1 & H1 & Hr).
    eauto using record_file_args_entries_made.
Qed.

(** C3, as amended.  In a record that an invocation persists, every input
    entry, and every output entry when the body returned or was skipped, has
    a content identity (possibly empty) and has size, modification time and
    creation time when [os.stat] succeeds on the file after the body, with
    the owner when the user id is known; when the body raised an
    [Exception], every output entry has path information only.  Nothing is
    said of the outputs of a body that leaves through an exception that is
    not an [Exception]. *)
Theorem file_entries_of_record environ sys m c cmd_main args w path doc :
  is_Some (dict_get "metadata" args) →
  w_store (_run_cmd_with_tracking environ sys m c cmd_main args w).2 !! path
    = Some doc →
  w_store w !! path ≠ Some doc →
  (∀ port info, in_files doc !! port = Some info →
     full_entry (w_fs (_run_cmd_with_tracking environ sys m c cmd_main args w).2)
       info) ∧
  (∀ port info, out_files doc !! port = Some info →
     match (run_body environ cmd_main (dict_pop "metadata" args) w).1 with
     | Ok _ =>
         full_entry
           (w_fs (_run_cmd_with_tracking environ sys m c cmd_main args w).2) info
     | Raise e => exn_is_Exception e = true → path_only_entry info
     end).
Proof.
  intros Hm Hnew Hold.
  destruct (run_cmd_with_tracking_new_document _ _ _ _ _ _ _ _ _ Hm Hnew Hold)
    as (_ & _ & -> & Ha).
  apply assemble_step_data_fields in Ha as (_ & _ & _ & _ & _ & Hfiles & _).
  apply record_params_entries_made in Hfiles as [Hin Hout]; [|by split].
  split; intros port info Hl.
  - destruct (Hin _ _ Hl) as (arg & idx & f & Hi).
    apply make_file_info_entry in Hi as (_ & _ & _ & _ & _ & Hi).
    by destruct (cmd_exception_of _).
  - destruct (Hout _ _ Hl) as (arg & idx & f & Hi).
    apply make_file_info_entry in Hi as (_ & _ & _ & _ & _ & Hi).
    destruct (run_body environ cmd_main (dict_pop "metadata" args) w).1
      as [returned|e]; simpl in Hi; [done|].
    intros He. by rewrite He in Hi.
Qed.

(** *** Which occurrence a port describes *)

Lemma last_occurrence_app r port l1 l2 :
  last_occurrence r port (l1 ++ l2)
  = match last_occurrence r port l2 with
    | Some later => Some later
    | None => last_occurrence r port l1
    end.
Proof.
  induction l1 as [|[[[arg idx] r0] f] l1 IH]; simpl.
  - by destruct (last_occurrence r port l2).
  - rewrite IH. by destruct (last_occurrence r port l2).
Qed.

Lemma last_occurrence_Some r port occurrences arg idx r0 f :
  last_occurrence r port occurrences = Some (arg, idx, r0, f) →
  (arg, idx, r0, f) ∈ occurrences ∧ r0 = r ∧ port_name arg idx = port.
Proof.
  induction occurrences as [|[[[arg1 idx1] r1] f1] rest IH]; simpl; [done|].
  destruct (last_occurrence r port rest) as [later|].
  - intros Hl. destruct (IH Hl) as (Hin & ? & ?). split; [|done].
    apply elem_of_cons. by right.
  - case_bool_decide as Hhere; [|done]. intros [= <- <- <- <-].
    split; [apply elem_of_cons; by left|done].
Qed.

Lemma last_occurrence_None r port occurrences arg idx f :
  last_occurrence r port occurrences = None →
  (arg, idx, r, f) ∈ occurrences → port_name arg idx ≠ port.
Proof.
  induction occurrences as [|[[[arg1 idx1] r1] f1] rest IH]; simpl.
  - intros _ Hin. by apply elem_of_nil in Hin.
  - destruct (last_occurrence r port rest) as [later|]; [done|].
    case_bool_decide as Hhere; [done|]. intros _ Hin.
    apply elem_of_cons in Hin as [[= -> -> -> ->]|Hin]; [|by apply IH].
    intros Hp. by apply Hhere.
Qed.

Lemma elem_of_occurrences_of params arg idx r f :
  (arg, idx, r, f) ∈ occurrences_of params ↔
  ∃ val, (arg, val) ∈ params ∧ (idx, (r, f)) ∈ get_FileArgs val [].
Proof.
  unfold occurrences_of. rewrite list_elem_of_bind. split.
  - intros ([arg1 val] & Hin & Hp). simpl in Hin.
    apply list_elem_of_fmap in Hin as ([idx1 [r1 f1]] & [= -> -> -> ->] & Hin).
    by exists val.
  - intros (val & Hp & Hin). exists (arg, val). split; [|done]. simpl.
    apply list_elem_of_fmap. by exists (idx, (r, f)).
Qed.

Lemma record_file_args_lookup fs ce arg occurrences files files' r port :
  record_file_args fs ce arg occurrences files = Ok files' →
  match last_occurrence r port
          ((λ o, (arg, o.1, o.2.1, o.2.2)) <$> occurrences) with
  | Some (a, idx, r0, f) =>
      ∃ info, make_file_info fs ce a idx r0 f = Ok info ∧
              match r with Input => files'.1 | Output => files'.2 end !! port
              = Some info
  | None =>
      match r with Input => files'.1 | Output => files'.2 end !! port
      = match r with Input => files.1 | Output => files.2 end !! port
  end.
Proof.
  revert files.
  induction occurrences as [|[idx [r0 f]] rest IH]; intros files; simpl.
  - by intros [= <-].
  - intros Hr. apply bind_Ok in Hr as (info & Hi & Hr).
    specialize (IH _ Hr).
    destruct (last_occurrence r port _) as [[[[a1 idx1] r1] f1]|]; [done|].
    case_bool_decide as Hhere.
    + destruct Hhere as [-> <-]. exists info. split; [done|]. rewrite IH.
      destruct r; simpl; apply lookup_insert_eq.
    + rewrite IH. destruct r0, r; simpl; try done;
        apply lookup_insert_ne; intros Hp; by apply Hhere.
Qed.

Lemma record_params_lookup fs ce params files files' r port :
  record_params fs ce params files = Ok files' →
  match last_occurrence r port (occurrences_of params) with
  | Some (a, idx, r0, f) =>
      ∃ info, make_file_info fs ce a idx r0 f = Ok info ∧
              match r with Input => files'.1 | Output => files'.2 end !! port
              = Some info
  | None =>
      match r with Input => files'.1 | Output => files'.2 end !! port
      = match r with Input => files.1 | Output => files.2 end !! port
  end.
Proof.
  revert files. induction params as [|[arg val] rest IH]; intros files.
  - by intros [= <-].
  - simpl. intros Hr. apply bind_Ok in Hr as (files1 & H1 & Hr).
    specialize (IH _ Hr).
    change (occurrences_of ((arg, val) :: rest))
      with (((λ o, (arg, o.1, o.2.1, o.2.2)) <$> get_FileArgs val [])
              ++ occurrences_of rest).
    rewrite last_occurrence_app.
    destruct (last_occurrence r port (occurrences_of rest))
      as [[[[a1 idx1] r1] f1]|]; [done|].
    pose proof (record_file_args_lookup _ _ _ _ _ _ r port H1) as Hhere.
    destruct (last_occurrence r port _) as [[[[a1 idx1] r1] f1]|].
    + destruct Hhere as (info & Hi & Hl). exists info. by rewrite IH.
    + by rewrite IH.
Qed.

(** The entry of each port of a new record: it is the one made for the last
    occurrence of the role with that port name among the recorded arguments
    followed by the returned mapping, and there is none when no occurrence
    has that name. *)
Lemma new_document_port environ sys m c cmd_main args w path doc r port :
  is_Some (dict_get "metadata" args) →
  w_store (_run_cmd_with_tracking environ sys m c cmd_main args w).2 !! path
    = Some doc →
  w_store w !! path ≠ Some doc →
  match last_occurrence r port
          (occurrences_of
             (st_args (sd_step doc) ++ metadata_from_cmd_return (sd_step doc))) with
  | Some (arg, idx, _, f) =>
      ∃ info,
        files_of_role r doc !! port = Some info ∧
        fi_fname info = f ∧ fi_arg info = arg ∧ fi_arg_idx info = idx ∧
        fi_realpath info = realpath f ∧ fi_abspath info = abspath f
  | None => files_of_role r doc !! port = None
  end.
Proof.
  intros Hm Hnew Hold.
  destruct (run_cmd_with_tracking_new_document _ _ _ _ _ _ _ _ _ Hm Hnew Hold)
    as (_ & _ & _ & Ha).
  apply assemble_step_data_fields in Ha
    as (_ & _ & _ & _ & _ & Hfiles & _).
  pose proof (record_params_lookup _ _ _ _ _ r port Hfiles) as Hport.
  destruct (last_occurrence r port _) as [[[[arg idx] r0] f]|]; simpl in Hport.
  - destruct Hport as (info & Hi & Hl). exists info.
    apply make_file_info_entry in Hi as (? & ? & ? & ? & ? & _).
    split; [by destruct r|done].
  - destruct r; simpl; rewrite Hport; apply lookup_empty.
Qed.

(** C9, as amended.  The [args] field of a persisted record holds all the
    arguments of the command except [metadata] and [func_main], the file
    arguments among them.  For each file argument found in them, the mapping
    of its role has an entry under its port name; the entry describes the
    last occurrence with this role and port name among the recorded
    arguments followed by the returned mapping, and so the file argument
    itself when no other occurrence of its role has its port name. *)
Theorem args_field_of_record environ sys m c cmd_main args w path doc :
  is_Some (dict_get "metadata" args) →
  w_store (_run_cmd_with_tracking environ sys m c cmd_main args w).2 !! path
    = Some doc →
  w_store w !! path ≠ Some doc →
  st_args (sd_step doc) = dict_pop "func_main" (dict_pop "metadata" args) ∧
  ∀ arg val idx r f,
    (arg, val) ∈ st_args (sd_step doc) →
    (idx, (r, f)) ∈ get_FileArgs val [] →
    ∃ info arg' idx' f',
      files_of_role r doc !! port_name arg idx = Some info ∧
      last_occurrence r (port_name arg idx)
        (occurrences_of
           (st_args (sd_step doc) ++ metadata_from_cmd_return (sd_step doc)))
      = Some (arg', idx', r, f') ∧
      fi_fname info = f' ∧ fi_arg info = arg' ∧ fi_arg_idx info = idx' ∧
      ((∀ arg1 idx1 f1,
          (arg1, idx1, r, f1)
          ∈ occurrences_of
              (st_args (sd_step doc) ++ metadata_from_cmd_return (sd_step doc)) →
          port_name arg1 idx1 = port_name arg idx →
          (arg1, idx1, f1) = (arg, idx, f)) →
       fi_fname info = f ∧ fi_arg info = arg ∧ fi_arg_idx info = idx).
Proof.
  intros Hm Hnew Hold. split.
  { destruct (run_cmd_with_tracking_new_document _ _ _ _ _ _ _ _ _ Hm Hnew Hold)
      as (_ & _ & _ & Ha).
    by apply assemble_step_data_fields in Ha as (_ & _ & _ & Hargs & _). }
  intros arg val idx r f Hin Hocc.
  pose proof (new_document_port _ _ _ _ _ _ _ _ _ r (port_name arg idx)
                Hm Hnew Hold) as Hport.
  assert (Hmember : (arg, idx, r, f)
                    ∈ occurrences_of
                        (st_args (sd_step doc)
                           ++ metadata_from_cmd_return (sd_step doc))).
  { apply elem_of_occurrences_of. exists val. split; [|done].
    apply elem_of_app. by left. }
  destruct (last_occurrence r (port_name arg idx) _)
    as [[[[arg' idx'] r'] f']|] eqn:Hlast.
  - apply last_occurrence_Some in Hlast as Hfound.
    destruct Hfound as (Hin' & -> & Hname).
    destruct Hport as (info & Hl & Hf & Harg & Hidx & _).
    exists info, arg', idx', f'. split; [done|]. split; [done|].
    split; [done|]. split; [done|]. split; [done|].
    intros Hunique. specialize (Hunique arg' idx' f' Hin' Hname).
    by injection Hunique as <- <- <-.
  - by destruct (last_occurrence_None _ _ _ _ _ _ Hlast Hmember).
Qed.

(** ** The provenance graph *)

Lemma add_node_dom n attrs g :
  dom (nodes (add_node n attrs g)) = {[ n ]} ∪ dom (nodes g).
Proof. unfold add_node. simpl. by rewrite dom_insert_L. Qed.

Lemma add_node_edges n attrs g : edges (add_node n attrs g) = edges g.
Proof. done. Qed.

Lemma add_edge_dom u v g :
  dom (nodes (add_edge u v g)) = {[ u; v ]} ∪ dom (nodes g).
Proof. unfold add_edge. simpl. rewrite !dom_insert_L. simpl. set_solver. Qed.

Lemma add_edge_edges u v g : edges (add_edge u v g) = {[ (u, v) ]} ∪ edges g.
Proof. done. Qed.

Lemma load_port_dom file_kind sid port info g :
  dom (nodes (load_port file_kind sid port info g))
  = port_nodes sid port info ∪ dom (nodes g).
Proof.
  unfold load_port, port_nodes, identity_of.
  destruct (fi_hash info) as [h|]; [destruct (String.eqb h "")|];
    destruct file_kind; simpl;
    rewrite ?add_edge_dom, ?add_node_dom, ?add_edge_dom, ?add_node_dom;
    set_solver.
Qed.

Lemma load_port_edges file_kind sid port info g :
  edges (load_port file_kind sid port info g)
  = port_edges file_kind sid port info ∪ edges g.
Proof.
  unfold load_port, port_edges, identity_of.
  destruct (fi_hash info) as [h|]; [destruct (String.eqb h "")|];
    destruct file_kind; simpl; set_solver.
Qed.

(** The loop over the ports of one kind, by membership. *)
Lemma load_ports_dom file_kind sid (ports : gmap string file_info) g x :
  x ∈ dom (nodes (map_fold (load_port file_kind sid) g ports)) ↔
  x ∈ dom (nodes g) ∨
  ∃ port info, ports !! port = Some info ∧ x ∈ port_nodes sid port info.
Proof.
  revert ports. apply (map_fold_weak_ind (λ g' ports,
    x ∈ dom (nodes g') ↔
    x ∈ dom (nodes g) ∨
    ∃ port info, ports !! port = Some info ∧ x ∈ port_nodes sid port info)).
  - split; [auto|]. intros [?|(port & info & Hl & _)]; [done|].
    by rewrite lookup_empty in Hl.
  - intros port info ports g' Hfresh IH. rewrite load_port_dom, elem_of_union, IH.
    split.
    + intros [Hx|[Hx|(p & i & Hl & Hx)]]; [right|by left|right].
      * exists port, info. by rewrite lookup_insert_eq.
      * exists p, i. split; [|done]. rewrite lookup_insert_ne; [done|].
        intros ->. congruence.
    + intros [Hx|(p & i & Hl & Hx)]; [by right; left|].
      apply lookup_insert_Some in Hl as [[<- <-]|[_ Hl]]; [by left|].
      right; right. eauto.
Qed.

Lemma load_ports_edges file_kind sid (ports : gmap string file_info) g e :
  e ∈ edges (map_fold (load_port file_kind sid) g ports) ↔
  e ∈ edges g ∨
  ∃ port info, ports !! port = Some info ∧ e ∈ port_edges file_kind sid port info.
Proof.
  revert ports. apply (map_fold_weak_ind (λ g' ports,
    e ∈ edges g' ↔
    e ∈ edges g ∨
    ∃ port info, ports !! port = Some info ∧
                 e ∈ port_edges file_kind sid port info)).
  - split; [auto|]. intros [?|(port & info & Hl & _)]; [done|].
    by rewrite lookup_empty in Hl.
  - intros port info ports g' Hfresh IH. rewrite load_port_edges, elem_of_union, IH.
    split.
    + intros [He|[He|(p & i & Hl & He)]]; [right|by left|right].
      * exists port, info. by rewrite lookup_insert_eq.
      * exists p, i. split; [|done]. rewrite lookup_insert_ne; [done|].
        intros ->. congruence.
    + intros [He|(p & i & Hl & He)]; [by right; left|].
      apply lookup_insert_Some in Hl as [[<- <-]|[_ Hl]]; [by left|].
      right; right. eauto.
Qed.

Lemma load_record_dom r g x :
  x ∈ dom (nodes (load_record r g)) ↔ x ∈ dom (nodes g) ∨ record_node r x.
Proof.
  unfold load_record, record_node.
  rewrite load_ports_dom, load_ports_dom, add_node_dom, elem_of_union,
    elem_of_singleton.
  split.
  - intros [[[->|Hx]|(p & i & Hl & Hx)]|(p & i & Hl & Hx)]; auto.
    + right; right. by exists Input, p, i.
    + right; right. by exists Output, p, i.
  - intros [Hx|[->|(k & p & i & Hl & Hx)]]; auto.
    destruct k; simpl in Hl; [left; right|right]; eauto.
Qed.

Lemma load_record_edges r g e :
  e ∈ edges (load_record r g) ↔ e ∈ edges g ∨ record_edge r e.
Proof.
  unfold load_record, record_edge.
  rewrite load_ports_edges, load_ports_edges, add_node_edges.
  split.
  - intros [[He|(p & i & Hl & He)]|(p & i & Hl & He)]; auto.
    + right. by exists Input, p, i.
    + right. by exists Output, p, i.
  - intros [He|(k & p & i & Hl & He)]; auto.
    destruct k; simpl in Hl; [left; right|right]; eauto.
Qed.

Lemma load_listing_dom listing g x :
  x ∈ dom (nodes (load_listing listing g)) ↔
  x ∈ dom (nodes g) ∨ ∃ r, loaded listing r ∧ record_node r x.
Proof.
  revert g. induction listing as [|[fname r] rest IH]; intros g; simpl.
  - split; [auto|]. intros [?|(r & (f & Hin & _) & _)]; [done|].
    by apply elem_of_nil in Hin.
  - rewrite IH. unfold loaded. destruct (endswith fname ".json") eqn:Hjson.
    + rewrite load_record_dom. split.
      * intros [[Hx|Hx]|(r' & (f & Hin & Hj) & Hx)]; auto.
        -- right. exists r. split; [|done]. exists fname. split; [|done].
           apply elem_of_cons. by left.
        -- right. exists r'. split; [|done]. exists f. split; [|done].
           apply elem_of_cons. by right.
      * intros [Hx|(r' & (f & Hin & Hj) & Hx)]; auto.
        apply elem_of_cons in Hin as [[= -> ->]|Hin]; [by left; right|].
        right. exists r'. split; [|done]. by exists f.
    + split.
      * intros [Hx|(r' & (f & Hin & Hj) & Hx)]; auto.
        right. exists r'. split; [|done]. exists f. split; [|done].
        apply elem_of_cons. by right.
      * intros [Hx|(r' & (f & Hin & Hj) & Hx)]; auto.
        apply elem_of_cons in Hin as [[= -> ->]|Hin]; [congruence|].
        right. exists r'. split; [|done]. by exists f.
Qed.

Lemma load_listing_edges listing g e :
  e ∈ edges (load_listing listing g) ↔
  e ∈ edges g ∨ ∃ r, loaded listing r ∧ record_edge r e.
Proof.
  revert g. induction listing as [|[fname r] rest IH]; intros g; simpl.
  - split; [auto|]. intros [?|(r & (f & Hin & _) & _)]; [done|].
    by apply elem_of_nil in Hin.
  - rewrite IH. unfold loaded. destruct (endswith fname ".json") eqn:Hjson.
    + rewrite load_record_edges. split.
      * intros [[Hx|Hx]|(r' & (f & Hin & Hj) & Hx)]; auto.
        -- right. exists r. split; [|done]. exists fname. split; [|done].
           apply elem_of_cons. by left.
        -- right. exists r'. split; [|done]. exists f. split; [|done].
           apply elem_of_cons. by right.
      * intros [Hx|(r' & (f & Hin & Hj) & Hx)]; auto.
        apply elem_of_cons in Hin as [[= -> ->]|Hin]; [by left; right|].
        right. exists r'. split; [|done]. by exists f.
    + split.
      * intros [Hx|(r' & (f & Hin & Hj) & Hx)]; auto.
        right. exists r'. split; [|done]. exists f. split; [|done].
        apply elem_of_cons. by right.
      * intros [Hx|(r' & (f & Hin & Hj) & Hx)]; auto.
        apply elem_of_cons in Hin as [[= -> ->]|Hin]; [congruence|].
        right. exists r'. split; [|done]. by exists f.
Qed.

Lemma identity_of_Some info h :
  identity_of info = Some h ↔ fi_hash info = Some h ∧ h ≠ "".
Proof.
  unfold identity_of. destruct (fi_hash info) as [h'|]; [|naive_solver].
  destruct (String.eqb_spec h' ""); naive_solver.
Qed.

Lemma no_entry_for_absent_key {A} (l : list (string * A)) k :
  k ∉ l.*1 → filter (λ kv, kv.1 = k) l = [].
Proof.
  induction l as [|[k' v'] l IH]; simpl; [done|]. intros Hnot.
  apply not_elem_of_cons in Hnot as [Hne Hnot].
  rewrite filter_cons_False by (simpl; congruence). auto.
Qed.

(** A node table has one entry per key. *)
Lemma one_entry_per_key {A} (l : list (string * A)) k v :
  NoDup l.*1 → (k, v) ∈ l → length (filter (λ kv, kv.1 = k) l) = 1%nat.
Proof.
  induction l as [|[k' v'] l IH]; simpl; intros Hnd Hin.
  - by apply elem_of_nil in Hin.
  - apply NoDup_cons in Hnd as [Hfresh Hnd].
    destruct (decide (k' = k)) as [->|Hne].
    + rewrite filter_cons_True by done. simpl.
      by rewrite (no_entry_for_absent_key l k Hfresh).
    + rewrite filter_cons_False by done. apply IH; [done|].
      apply elem_of_cons in Hin as [[= <- <-]|Hin]; done.
Qed.

Lemma one_node_per_key (g : DiGraph) k :
  k ∈ dom (nodes g) →
  length (filter (λ kv, kv.1 = k) (map_to_list (nodes g))) = 1%nat.
Proof.
  intros [attrs Hk]%elem_of_dom.
  apply (one_entry_per_key _ k attrs).
  - apply NoDup_fst_map_to_list.
  - by apply elem_of_map_to_list.
Qed.

Lemma ProvenanceGraph_load_bound g0 environ listdir path dir listing :
  store_path environ path = Ok dir →
  listdir dir = Done listing →
  ProvenanceGraph_load (Some g0) environ listdir path
  = (Ok (load_listing listing g0), Some (load_listing listing g0)).
Proof.
  intros Hp Hl. unfold ProvenanceGraph_load. rewrite Hp. simpl. by rewrite Hl.
Qed.

(** *** The attributes of a file node *)

Lemma add_node_lookup_ne n attrs g h :
  n ≠ h → nodes (add_node n attrs g) !! h = nodes g !! h.
Proof. intros Hne. unfold add_node. simpl. by rewrite lookup_insert_ne. Qed.

Lemma add_edge_lookup_ne u v g h :
  u ≠ h → v ≠ h → nodes (add_edge u v g) !! h = nodes g !! h.
Proof.
  intros Hu Hv. unfold add_edge, add_node. simpl.
  by rewrite !lookup_insert_ne.
Qed.

Lemma add_file_node h g :
  file_node_or_absent h g →
  nodes (add_node h {[ "node_kind" := VStr "file" ]} g) !! h
  = Some {[ "node_kind" := VStr "file" ]}.
Proof.
  intros [Hg|Hg]; unfold add_node; simpl; rewrite lookup_insert_eq, Hg; simpl.
  - by rewrite (right_id_L ∅ (∪)).
  - by rewrite (idemp_L (∪)).
Qed.

Lemma add_edge_lookup_eq (u v : string) g h attrs :
  nodes g !! h = Some attrs → nodes (add_edge u v g) !! h = Some attrs.
Proof.
  intros Hg.
  change (nodes (add_node v ∅ (add_node u ∅ g)) !! h = Some attrs).
  assert (Hone : ∀ n g', nodes g' !! h = Some attrs →
                         nodes (add_node n ∅ g') !! h = Some attrs).
  { intros n g' Hg'. destruct (decide (n = h)) as [->|Hne].
    - unfold add_node. simpl. rewrite lookup_insert_eq, Hg'. simpl.
      by rewrite (left_id_L ∅ (∪)).
    - by rewrite add_node_lookup_ne. }
  by apply Hone, Hone.
Qed.

Lemma load_port_file_node file_kind sid port info g h :
  sid ≠ h → port_id sid port ≠ h →
  file_node_or_absent h g →
  file_node_or_absent h (load_port file_kind sid port info g).
Proof.
  intros Hs Hp Hg. unfold load_port. cbv zeta.
  set (g3 := match file_kind with
             | Input => add_edge (port_id sid port) sid _
             | Output => add_edge sid (port_id sid port) _
             end).
  assert (H3 : file_node_or_absent h g3).
  { unfold file_node_or_absent, g3.
    destruct file_kind; rewrite add_edge_lookup_ne by done;
      rewrite !add_node_lookup_ne by done; done. }
  destruct (fi_hash info) as [file_id|]; [|done].
  destruct (String.eqb file_id ""); simpl; [done|].
  destruct (decide (file_id = h)) as [->|Hne].
  - right. destruct file_kind; by apply add_edge_lookup_eq, add_file_node.
  - unfold file_node_or_absent.
    destruct file_kind; rewrite add_edge_lookup_ne, add_node_lookup_ne; done.
Qed.

Lemma load_ports_file_node file_kind sid (ports : gmap string file_info) g h :
  sid ≠ h →
  (∀ port, is_Some (ports !! port) → port_id sid port ≠ h) →
  file_node_or_absent h g →
  file_node_or_absent h (map_fold (load_port file_kind sid) g ports).
Proof.
  intros Hs Hports Hg. revert ports Hports.
  apply (map_fold_weak_ind (λ g' ports,
    (∀ port, is_Some (ports !! port) → port_id sid port ≠ h) →
    file_node_or_absent h g')); [done|].
  intros port info ports g' Hfresh IH Hports.
  apply load_port_file_node; [done| |].
  - apply Hports. by rewrite lookup_insert_eq.
  - apply IH. intros p Hp. apply Hports.
    rewrite lookup_insert_ne; [done|]. intros ->. rewrite Hfresh in Hp.
    by destruct Hp.
Qed.

Lemma load_record_file_node r g h :
  ¬ step_or_port_id r h →
  file_node_or_absent h g → file_node_or_absent h (load_record r g).
Proof.
  intros Hnot Hg. unfold load_record.
  assert (Hs : step_id (sd_step r) ≠ h) by (intros <-; apply Hnot; by left).
  assert (Hp : ∀ k port, is_Some (files_of_role k r !! port) →
                         port_id (step_id (sd_step r)) port ≠ h).
  { intros k port Hl <-. apply Hnot. right. by exists k, port. }
  apply load_ports_file_node; [done|apply (Hp Output)|].
  apply load_ports_file_node; [done|apply (Hp Input)|].
  unfold file_node_or_absent. by rewrite add_node_lookup_ne.
Qed.

Lemma load_listing_file_node listing g h :
  (∀ r, loaded listing r → ¬ step_or_port_id r h) →
  file_node_or_absent h g → file_node_or_absent h (load_listing listing g).
Proof.
  revert g. induction listing as [|[fname r] rest IH]; intros g Hnot Hg; simpl;
    [done|].
  apply IH.
  - intros r' (f & Hin & Hj). apply Hnot. exists f. split; [|done].
    apply elem_of_cons. by right.
  - destruct (endswith fname ".json") eqn:Hjson; [|done].
    apply load_record_file_node; [|done]. apply Hnot. exists fname.
    split; [|done]. apply elem_of_cons. by left.
Qed.

(** When [load] runs with the name [pgraph] bound to a graph, it
    returns a graph in which every port whose entry has a non-empty identity
    [h] is joined to the node keyed by [h], of which the graph has exactly
    one: an input port by an edge from that node, an output port by an edge
    to it, next to the edge between the port and its step.  Hence when an
    output of step [A] and an input of step [B] have the same identity, the
    graph has the path [A], port, file, port, [B].  A node that is new and
    is named like no step and no port has the kind [file] and no other
    attribute. *)
Theorem ports_share_file_node g0 environ listdir path dir listing :
  store_path environ path = Ok dir →
  listdir dir = Done listing →
  ∃ G,
    ProvenanceGraph_load (Some g0) environ listdir path = (Ok G, Some G) ∧
    (∀ r file_kind port info h,
       loaded listing r →
       files_of_role file_kind r !! port = Some info →
       fi_hash info = Some h → h ≠ "" →
       h ∈ dom (nodes G) ∧
       length (filter (λ kv, kv.1 = h) (map_to_list (nodes G))) = 1%nat ∧
       port_id (step_id (sd_step r)) port ∈ dom (nodes G) ∧
       step_id (sd_step r) ∈ dom (nodes G) ∧
       match file_kind with
       | Input =>
           (h, port_id (step_id (sd_step r)) port) ∈ edges G ∧
           (port_id (step_id (sd_step r)) port, step_id (sd_step r)) ∈ edges G
       | Output =>
           (step_id (sd_step r), port_id (step_id (sd_step r)) port) ∈ edges G ∧
           (port_id (step_id (sd_step r)) port, h) ∈ edges G
       end) ∧
    (∀ A B port_a port_b info_a info_b h,
       loaded listing A → loaded listing B →
       out_files A !! port_a = Some info_a →
       in_files B !! port_b = Some info_b →
       fi_hash info_a = Some h → fi_hash info_b = Some h → h ≠ "" →
       (step_id (sd_step A), port_id (step_id (sd_step A)) port_a) ∈ edges G ∧
       (port_id (step_id (sd_step A)) port_a, h) ∈ edges G ∧
       (h, port_id (step_id (sd_step B)) port_b) ∈ edges G ∧
       (port_id (step_id (sd_step B)) port_b, step_id (sd_step B)) ∈ edges G) ∧
    (∀ h,
       h ∈ dom (nodes G) → nodes g0 !! h = None →
       (∀ r, loaded listing r → ¬ step_or_port_id r h) →
       nodes G !! h = Some {[ "node_kind" := VStr "file" ]}).
Proof.
  intros Hpath Hl. exists (load_listing listing g0).
  split; [by eapply ProvenanceGraph_load_bound|].
  assert (Hport : ∀ r file_kind port info h,
    loaded listing r →
    files_of_role file_kind r !! port = Some info →
    fi_hash info = Some h → h ≠ "" →
    (∀ x, x ∈ port_nodes (step_id (sd_step r)) port info →
          x ∈ dom (nodes (load_listing listing g0))) ∧
    (∀ e, e ∈ port_edges file_kind (step_id (sd_step r)) port info →
          e ∈ edges (load_listing listing g0)) ∧
    identity_of info = Some h).
  { intros r k port info h Hr Hp Hh Hne. split; [|split].
    - intros x Hx. apply load_listing_dom. right. exists r. split; [done|].
      right. by exists k, port, info.
    - intros e He. apply load_listing_edges. right. exists r. split; [done|].
      by exists k, port, info.
    - by apply identity_of_Some. }
  split; [|split].
  - intros r k port info h Hr Hp Hh Hne.
    destruct (Hport r k port info h) as (Hn & He & Hid); try done.
    assert (Hin : h ∈ dom (nodes (load_listing listing g0))).
    { apply Hn. unfold port_nodes. rewrite Hid. set_solver. }
    split; [done|]. split; [by apply one_node_per_key|].
    split; [apply Hn; unfold port_nodes; set_solver|].
    split; [apply Hn; unfold port_nodes; set_solver|].
    destruct k; split; apply He; unfold port_edges; rewrite Hid; set_solver.
  - intros A B pa pb ia ib h HA HB Hpa Hpb Hha Hhb Hne.
    destruct (Hport A Output pa ia h) as (_ & HeA & HidA); try done.
    destruct (Hport B Input pb ib h) as (_ & HeB & HidB); try done.
    split; [apply HeA|split; [apply HeA|split; [apply HeB|apply HeB]]];
      unfold port_edges; rewrite ?HidA, ?HidB; set_solver.
  - intros h Hin Hnew Hnot.
    destruct (load_listing_file_node listing g0 h Hnot) as [Hnone|Hfile];
      [by left| |done].
    apply elem_of_dom in Hin as [attrs Hattrs]. congruence.
Qed.

(** C4, at the input where it fails.  [load] builds no graph of its own: as
    the module stands, the name [pgraph] is bound to nothing, and the call
    raises for every store. *)
Theorem load_without_graph_raises environ listdir path :
  raises (ProvenanceGraph_load None environ listdir path).1.
Proof.
  unfold ProvenanceGraph_load.
  destruct (_ ≫= _) as [listing|e]; done.
Qed.

(** C2, at the input where it fails.  For a store that can be listed, and
    so for one with a record whose output has the content identity of the
    input of another record, [load] as the module stands ends in
    [NameError] for the name [pgraph]: it returns no graph, hence none with a
    shared file node, and it leaves the name unbound. *)
Theorem load_of_listed_store_raises_NameError environ listdir path dir listing :
  store_path environ path = Ok dir →
  listdir dir = Done listing →
  ProvenanceGraph_load None environ listdir path
  = (Raise (NameError "pgraph"), None).
Proof.
  intros Hpath Hlisting. unfold ProvenanceGraph_load.
  rewrite Hpath. simpl. by rewrite Hlisting.
Qed.

(** When the name is bound, what [load] returns is that one graph, updated in
    place: it keeps whatever it held before the call and stays bound. *)
Theorem load_returns_shared_graph g0 environ listdir path dir listing :
  store_path environ path = Ok dir →
  listdir dir = Done listing →
  ∃ G,
    ProvenanceGraph_load (Some g0) environ listdir path = (Ok G, Some G) ∧
    dom (nodes g0) ⊆ dom (nodes G) ∧ edges g0 ⊆ edges G.
Proof.
  intros Hpath Hl. exists (load_listing listing g0).
  split; [by eapply ProvenanceGraph_load_bound|]. split.
  - intros x Hx. apply load_listing_dom. by left.
  - intros e He. apply load_listing_edges. by left.
Qed.

Lemma loaded_Permutation listing listing' r :
  listing ≡ₚ listing' → loaded listing r → loaded listing' r.
Proof. intros Hp (f & Hin & Hj). exists f. by rewrite <-Hp. Qed.

(** The loop itself does not depend on the order of the directory listing,
    as far as the sets of nodes and of edges go. *)
Theorem load_listing_order_independent listing listing' g :
  listing ≡ₚ listing' →
  dom (nodes (load_listing listing g)) = dom (nodes (load_listing listing' g)) ∧
  edges (load_listing listing g) = edges (load_listing listing' g).
Proof.
  intros Hp. split; apply leibniz_equiv; intros x.
  - rewrite !load_listing_dom. split;
      (intros [?|(r & Hr & Hx)]; [by left|right; exists r; split; [|done]]);
      eauto using loaded_Permutation.
    eapply loaded_Permutation; [symmetry; exact Hp|done].
  - rewrite !load_listing_edges. split;
      (intros [?|(r & Hr & Hx)]; [by left|right; exists r; split; [|done]]);
      eauto using loaded_Permutation.
    eapply loaded_Permutation; [symmetry; exact Hp|done].
Qed.

(** * Further properties of the module *)

(** ** The tracking switch and the file-role types *)

(** [metadata_dir] returns the directory exactly when tracking is enabled,
    and raises [KeyError] exactly when it is not. *)
Theorem metadata_dir_iff_enabled environ :
  (is_metadata_tracking_enabled environ = true ↔
   ∃ d, metadata_dir environ = Ok d) ∧
  (is_metadata_tracking_enabled environ = false ↔
   metadata_dir environ = Raise (KeyError "VIRAL_NGS_METADATA_PATH")).
Proof.
  unfold is_metadata_tracking_enabled, metadata_dir.
  rewrite bool_decide_eq_true, bool_decide_eq_false, elem_of_dom.
  destruct (environ !! "VIRAL_NGS_METADATA_PATH") as [d|].
  - split; split; [eauto|eauto| |done]. intros Hno. destruct Hno. eauto.
  - split; split; [by intros [? ?]|by intros [? ?]|done|].
    intros _ [? ?]. done.
Qed.

(** ** Content identity *)

Lemma append_nonempty (s t : string) : t ≠ "" → s +:+ t ≠ "".
Proof. destruct s; simpl; [done|]. discriminate. Qed.

(** The identity in closed form: the algorithm name, an underscore and the
    digest of the bytes for a regular file that can be read, the empty
    string for every other path; so an identity is empty exactly when the
    file was not hashed. *)
Theorem Hasher_call_closed_form alg fs p :
  Hasher_call alg fs p
  = Ok (if isfile fs p && readable_path fs p
        then alg +:+ "_" +:+ digest alg (default [] (i_bytes <$> fs_files fs !! p))
        else "") ∧
  (Hasher_call alg fs p = Ok "" ↔ isfile fs p && readable_path fs p = false).
Proof.
  assert (Hform : Hasher_call alg fs p
    = Ok (if isfile fs p && readable_path fs p
          then alg +:+ "_" +:+ digest alg (default [] (i_bytes <$> fs_files fs !! p))
          else "")).
  { unfold Hasher_call, isfile, readable_path, os_stat, hash_file, open_read, S_ISFIFO.
    destruct (fs_files fs !! p) as [i|] eqn:Hp; [|done]. simpl.
    destruct (decide (i_kind i = Regular)) as [Hk|Hk].
    - rewrite !Hk. simpl. destruct (i_readable i); done.
    - rewrite (bool_decide_eq_false_2 _ Hk). done. }
  split; [done|]. rewrite Hform.
  destruct (isfile fs p && readable_path fs p); [|done].
  split; [|done]. intros [= Habs]. exfalso.
  by apply (append_nonempty alg ("_" +:+ digest alg
              (default [] (i_bytes <$> fs_files fs !! p)))).
Qed.

(** ** Run identifiers *)

Lemma length_slice_to n s : (String.length (slice_to n s) ≤ n)%nat.
Proof.
  unfold slice_to. revert s. induction n as [|n IH]; intros [|a s]; simpl;
    try lia. specialize (IH s). lia.
Qed.

(** A run identifier has at most 210 characters, and [create_run_id] fails
    exactly when the user name or the working directory cannot be had. *)
Theorem create_run_id_bounded sys uuid4 t :
  (∀ rid, create_run_id sys uuid4 t = Ok rid → (String.length rid ≤ 210)%nat) ∧
  (raises (create_run_id sys uuid4 t) ↔
   (∃ cls msg, sys_getuser sys = Fails cls msg) ∨
   (∃ cls msg, sys_getcwd sys = Fails cls msg)).
Proof.
  unfold create_run_id.
  destruct (sys_getuser sys) as [user|c1 m1]; simpl;
    [destruct (sys_getcwd sys) as [cwd|c2 m2]; simpl|].
  - split.
    + intros rid [= <-]. apply length_slice_to.
    + split; [done|]. intros [(? & ? & ?)|(? & ? & ?)]; done.
  - split; [done|]. split; [eauto|done].
  - split; [done|]. split; [eauto|done].
Qed.

(** ** The persisted record *)

Lemma call_Ok {A} (o : outcome A) a : call o = Ok a → o = Done a.
Proof. destruct o; simpl; [by intros [= ->]|done]. Qed.

Lemma assemble_step_data_identifiers environ sys m c args_dict res ce fs path doc :
  assemble_step_data environ sys m c args_dict res ce fs = Ok (path, doc) →
  ∃ fresh stamp md,
    create_run_id sys (sys_uuid4_a sys) (sys_beg_time sys) = Ok fresh ∧
    create_run_id sys (sys_uuid4_b sys) (sys_beg_time sys) = Ok stamp ∧
    metadata_dir environ = Ok md ∧
    run_id (sd_step doc) = default fresh (environ !! "VIRAL_NGS_METADATA_RUN_ID") ∧
    step_id (sd_step doc) = stamp +:+ "__" +:+ m +:+ "__" +:+ c ∧
    cmd_module (sd_step doc) = m ∧ cmd_name (sd_step doc) = c ∧
    path = path_join md (step_id (sd_step doc) +:+ ".json") ∧
    beg_time (st_run_info (sd_step doc)) = sys_beg_time sys ∧
    end_time (st_run_info (sd_step doc)) = sys_end_time sys ∧
    duration (st_run_info (sd_step doc)) = sys_end_time sys - sys_beg_time sys ∧
    metadata_from_cmd_line (sd_step doc)
      = match dict_get "metadata" args_dict with
        | Some v => if truthy v then v else VDict []
        | None => VDict []
        end.
Proof.
  unfold assemble_step_data. intros Ha. ok_inv Ha.
  injection Ha as <- <-. simpl.
  repeat match goal with
         | Hx : metadata_dir environ = Ok ?x, Hy : metadata_dir environ = Ok ?y |- _ =>
             assert (x = y) as -> by congruence; clear Hx
         end.
  eexists _, _, _. repeat split; eauto.
Qed.

Lemma assemble_step_data_collaborators environ sys m c args_dict res ce fs path doc :
  assemble_step_data environ sys m c args_dict res ce fs = Ok (path, doc) →
  ¬ failed (sys_getuser sys) ∧ ¬ failed (sys_getcwd sys) ∧
  ¬ failed (sys_get_version sys) ∧ ¬ failed (sys_get_project_path sys) ∧
  ¬ failed (sys_platform sys) ∧ ¬ failed (sys_available_cpu_count sys) ∧
  ¬ failed (sys_getfqdn sys).
Proof.
  unfold assemble_step_data. intros Ha. ok_inv Ha.
  repeat match goal with
         | Hc : call _ = Ok _ |- _ => apply call_Ok in Hc; rewrite Hc
         end.
  simpl. tauto.
Qed.

Lemma new_document_run_id environ sys m c cmd_main args w path doc :
  is_Some (dict_get "metadata" args) →
  w_store (_run_cmd_with_tracking environ sys m c cmd_main args w).2 !! path
    = Some doc →
  w_store w !! path ≠ Some doc →
  match environ !! "VIRAL_NGS_METADATA_RUN_ID" with
  | Some given => run_id (sd_step doc) = given
  | None =>
      create_run_id sys (sys_uuid4_a sys) (sys_beg_time sys)
      = Ok (run_id (sd_step doc))
  end.
Proof.
  intros Hm Hnew Hold.
  destruct (run_cmd_with_tracking_new_document _ _ _ _ _ _ _ _ _ Hm Hnew Hold)
    as (_ & _ & _ & Ha).
  apply assemble_step_data_identifiers in Ha
    as (fresh & stamp & md & Hfresh & _ & _ & Hrun & _).
  destruct (environ !! "VIRAL_NGS_METADATA_RUN_ID"); simpl in Hrun; congruence.
Qed.

(** The identifiers of a persisted record.  Its step identifier is a fresh
    run identifier followed by the module and the command name; the
    document is stored in the tracking directory under the step identifier
    with the suffix [.json]; its run identifier is the one given in the
    environment, or else another fresh one of its own. *)
Theorem record_identifiers environ sys m c cmd_main args w path doc :
  is_Some (dict_get "metadata" args) →
  w_store (_run_cmd_with_tracking environ sys m c cmd_main args w).2 !! path
    = Some doc →
  w_store w !! path ≠ Some doc →
  ∃ stamp md,
    create_run_id sys (sys_uuid4_b sys) (sys_beg_time sys) = Ok stamp ∧
    environ !! "VIRAL_NGS_METADATA_PATH" = Some md ∧
    step_id (sd_step doc) = stamp +:+ "__" +:+ m +:+ "__" +:+ c ∧
    cmd_module (sd_step doc) = m ∧ cmd_name (sd_step doc) = c ∧
    path = path_join md (step_id (sd_step doc) +:+ ".json") ∧
    sd_format doc = "1.0.0" ∧
    match environ !! "VIRAL_NGS_METADATA_RUN_ID" with
    | Some given => run_id (sd_step doc) = given
    | None =>
        create_run_id sys (sys_uuid4_a sys) (sys_beg_time sys)
        = Ok (run_id (sd_step doc))
    end.
Proof.
  intros Hm Hnew Hold.
  destruct (run_cmd_with_tracking_new_document _ _ _ _ _ _ _ _ _ Hm Hnew Hold)
    as (_ & _ & _ & Ha).
  pose proof (assemble_step_data_fields _ _ _ _ _ _ _ _ _ _ Ha) as (Hfmt & _).
  apply assemble_step_data_identifiers in Ha
    as (fresh & stamp & md & Hfresh & Hstamp & Hmd & Hrun & Hsid & Hmod & Hname
        & Hpath & _).
  exists stamp, md. unfold metadata_dir in Hmd.
  destruct (environ !! "VIRAL_NGS_METADATA_PATH") as [d|] eqn:Hd; [|done].
  injection Hmd as ->. repeat split; try done.
  exact (new_document_run_id _ _ _ _ _ _ _ _ _ Hm Hnew Hold).
Qed.

(** After [set_run_id], the tracking switch and the skip switch are as
    before, and every record that a later invocation persists carries the
    identifier that was set: the steps of the workflow share it. *)
Theorem set_run_id_shared_by_steps sys0 uuid4 now environ environ' :
  set_run_id sys0 uuid4 now environ = Ok environ' →
  ∃ rid,
    create_run_id sys0 uuid4 now = Ok rid ∧
    environ' !! "VIRAL_NGS_METADATA_RUN_ID" = Some rid ∧
    is_metadata_tracking_enabled environ' = is_metadata_tracking_enabled environ ∧
    skip_cmd environ' = skip_cmd environ ∧
    ∀ sys m c cmd_main args w path doc,
      is_Some (dict_get "metadata" args) →
      w_store (_run_cmd_with_tracking environ' sys m c cmd_main args w).2 !! path
        = Some doc →
      w_store w !! path ≠ Some doc →
      run_id (sd_step doc) = rid.
Proof.
  unfold set_run_id. intros Hset. apply bind_Ok in Hset as (rid & Hrid & Hset).
  injection Hset as <-. exists rid. split; [done|].
  split; [by rewrite lookup_insert_eq|].
  split; [|split].
  - unfold is_metadata_tracking_enabled. apply bool_decide_ext.
    rewrite dom_insert_L. set_solver.
  - unfold skip_cmd. apply bool_decide_ext. rewrite dom_insert_L. set_solver.
  - intros sys m c cmd_main args w path doc Hm Hnew Hold.
    pose proof (new_document_run_id _ _ _ _ _ _ _ _ _ Hm Hnew Hold) as Hrun.
    by rewrite lookup_insert_eq in Hrun.
Qed.

Lemma dict_get_pop_eq k d : dict_get k (dict_pop k d) = None.
Proof.
  induction d as [|[k' v] d IH]; simpl; [done|].
  destruct (String.eqb k k') eqn:Hk; [done|]. simpl. by rewrite Hk.
Qed.

Lemma dict_get_pop_ne k k' d :
  k ≠ k' → dict_get k' (dict_pop k d) = dict_get k' d.
Proof.
  intros Hne. induction d as [|[k2 v] d IH]; simpl; [done|].
  destruct (String.eqb_spec k k2) as [->|Hk2]; simpl.
  - destruct (String.eqb_spec k' k2) as [->|_]; [done|apply IH].
  - by rewrite IH.
Qed.

(** Looking an argument up in the [args] field of a persisted record gives
    what the command was called with, except that [metadata] and
    [func_main] are never there; what [--metadata] gave is kept apart, as an
    empty mapping when the option was not used. *)
Theorem recorded_args_lookup environ sys m c cmd_main args w path doc :
  is_Some (dict_get "metadata" args) →
  w_store (_run_cmd_with_tracking environ sys m c cmd_main args w).2 !! path
    = Some doc →
  w_store w !! path ≠ Some doc →
  dict_get "metadata" (st_args (sd_step doc)) = None ∧
  dict_get "func_main" (st_args (sd_step doc)) = None ∧
  (∀ k, k ≠ "metadata" → k ≠ "func_main" →
        dict_get k (st_args (sd_step doc)) = dict_get k args) ∧
  ∃ given, dict_get "metadata" args = Some given ∧
           metadata_from_cmd_line (sd_step doc)
           = if truthy given then given else VDict [].
Proof.
  intros Hm Hnew Hold.
  destruct (run_cmd_with_tracking_new_document _ _ _ _ _ _ _ _ _ Hm Hnew Hold)
    as (_ & _ & _ & Ha).
  pose proof (assemble_step_data_fields _ _ _ _ _ _ _ _ _ _ Ha)
    as (_ & _ & _ & -> & _).
  apply assemble_step_data_identifiers in Ha
    as (? & ? & ? & _ & _ & _ & _ & _ & _ & _ & _ & _ & _ & _ & Hline).
  split; [|split; [|split]].
  - rewrite dict_get_pop_ne by done. apply dict_get_pop_eq.
  - apply dict_get_pop_eq.
  - intros k H1 H2. by rewrite !dict_get_pop_ne.
  - destruct Hm as [given Hgiven]. exists given. split; [done|].
    by rewrite Hline, Hgiven.
Qed.

(** How the body ended is in the record: the exception text exactly when an
    [Exception] was caught, the returned mapping as returned metadata and
    nothing for any other return value, and the skip flag as the
    environment has it. *)
Theorem record_reflects_outcome environ sys m c cmd_main args w path doc :
  is_Some (dict_get "metadata" args) →
  w_store (_run_cmd_with_tracking environ sys m c cmd_main args w).2 !! path
    = Some doc →
  w_store w !! path ≠ Some doc →
  cmd_was_skipped (st_run_info (sd_step doc)) = skip_cmd environ ∧
  match (run_body environ cmd_main (dict_pop "metadata" args) w).1 with
  | Ok returned =>
      exception (st_run_info (sd_step doc)) = None ∧
      metadata_from_cmd_return (sd_step doc)
      = match returned with VDict d => d | _ => [] end
  | Raise e =>
      exception (st_run_info (sd_step doc))
      = (if exn_is_Exception e then Some (format_exc e) else None) ∧
      metadata_from_cmd_return (sd_step doc) = []
  end.
Proof.
  intros Hm Hnew Hold.
  destruct (run_cmd_with_tracking_new_document _ _ _ _ _ _ _ _ _ Hm Hnew Hold)
    as (_ & _ & _ & Ha).
  apply assemble_step_data_fields in Ha as (_ & Hsk & Hex & _ & Hret & _).
  split; [done|].
  destruct (run_body environ cmd_main (dict_pop "metadata" args) w).1 as [v|e];
    simpl in *; [done|].
  by destruct (exn_is_Exception e).
Qed.


(** Recording needs every collaborator: when the user name, the working
    directory, the version, the project path, the platform, the processor
    count or the host name cannot be had, or when the store cannot be
    written, the invocation persists nothing.  This holds even when the run
    identifier comes from the environment, since a fresh one is made
    first. *)
Theorem no_record_when_a_collaborator_fails environ sys m c cmd_main args w :
  failed (sys_getuser sys) ∨ failed (sys_getcwd sys) ∨
  failed (sys_get_version sys) ∨ failed (sys_get_project_path sys) ∨
  failed (sys_platform sys) ∨ failed (sys_available_cpu_count sys) ∨
  failed (sys_getfqdn sys) ∨ (∀ path, failed (sys_dump_file sys path)) →
  w_store (_run_cmd_with_tracking environ sys m c cmd_main args w).2 = w_store w.
Proof.
  intros Hfail.
  destruct (delattr args "metadata") as [args1|e] eqn:Hdel;
    [|by unfold _run_cmd_with_tracking; rewrite Hdel].
  rewrite (run_cmd_with_tracking_eq _ _ _ _ _ _ _ _ Hdel). simpl.
  pose proof (recorded_world_cases environ sys m c args
                (run_body environ cmd_main args1 w).1
                (run_body environ cmd_main args1 w).2)
    as (_ & _ & [Hsame|(p & d & _ & Ha & Hd & _)]).
  - by rewrite Hsame, run_body_store.
  - exfalso.
    apply assemble_step_data_collaborators in Ha
      as (H1 & H2 & H3 & H4 & H5 & H6 & H7).
    destruct Hfail as [?|[?|[?|[?|[?|[?|[?|Hdump]]]]]]]; try done.
    specialize (Hdump p). by rewrite Hd in Hdump.
Qed.

(** The wrapper deletes the [metadata] attribute before anything else: on
    arguments without it, and so on the arguments that an earlier invocation
    has left behind, it raises [AttributeError] with the body not run and
    nothing recorded. *)
Theorem wrapper_needs_metadata_attribute environ sys m c cmd_main args w :
  (dict_get "metadata" args = None →
   _run_cmd_with_tracking environ sys m c cmd_main args w
   = (Raise (AttributeError "metadata"), w)) ∧
  _run_cmd_with_tracking environ sys m c cmd_main (dict_pop "metadata" args) w
  = (Raise (AttributeError "metadata"), w).
Proof.
  assert (Hnone : ∀ a, dict_get "metadata" a = None →
            _run_cmd_with_tracking environ sys m c cmd_main a w
            = (Raise (AttributeError "metadata"), w)).
  { intros a Ha. unfold _run_cmd_with_tracking, delattr. by rewrite Ha. }
  split; [apply Hnone|]. apply Hnone, dict_get_pop_eq.
Qed.

(** ** Discovery of the tracked files *)

Lemma get_FileArgs_list l idx_prefix occ :
  occ ∈ get_FileArgs (VList l) idx_prefix ↔
  ∃ i v, l !! i = Some v ∧ occ ∈ get_FileArgs v (idx_prefix ++ [i]).
Proof.
  simpl.
  assert (Hgen : ∀ vs n,
    occ ∈ (fix enumerate (i : nat) (vs : list pyval) :=
             match vs with
             | [] => []
             | v :: vs' =>
                 get_FileArgs v (idx_prefix ++ [i]) ++ enumerate (S i) vs'
             end) n vs ↔
    ∃ j v, vs !! j = Some v ∧ occ ∈ get_FileArgs v (idx_prefix ++ [(n + j)%nat])).
  { induction vs as [|v vs IH]; intros n.
    - split; [by intros ?%elem_of_nil|]. by intros (j & ? & ? & _).
    - rewrite elem_of_app, IH. split.
      + intros [Hv|(j & v' & Hj & Hocc)].
        * exists 0%nat, v. by rewrite Nat.add_0_r.
        * exists (S j), v'. split; [done|]. by rewrite Nat.add_succ_r.
      + intros ([|j] & v' & Hj & Hocc); simpl in Hj.
        * injection Hj as <-. left. by rewrite Nat.add_0_r in Hocc.
        * right. exists j, v'. split; [done|]. by rewrite Nat.add_succ_r in Hocc. }
  apply (Hgen l 0%nat).
Qed.

(** Induction on values, with the elements of a list as premises. *)
Lemma pyval_list_ind (P : pyval → Prop) :
  P VNone → (∀ b, P (VBool b)) → (∀ z, P (VInt z)) → (∀ s, P (VStr s)) →
  (∀ r s, P (VFileArg r s)) →
  (∀ l, Forall P l → P (VList l)) →
  (∀ l, P (VTuple l)) → (∀ d, P (VDict d)) →
  ∀ v, P v.
Proof.
  intros HNone HBool HInt HStr HFile HList HTuple HDict. fix IH 1.
  intros [|b|z|s|r s|l|l|d];
    [apply HNone|apply HBool|apply HInt|apply HStr|apply HFile|
     |apply HTuple|apply HDict].
  apply HList. induction l as [|v l IHl]; constructor; [apply IH|apply IHl].
Qed.

(** What [get_FileArgs] returns is exactly the file arguments with a
    non-empty name that can be reached through nested lists, to any depth,
    each with the positions that lead to it; values inside tuples or
    mappings, plain strings and file arguments with an empty name are not
    returned. *)
Theorem get_FileArgs_finds_nested_files val idx_prefix idx r f :
  (idx, (r, f)) ∈ get_FileArgs val idx_prefix ↔
  ∃ positions,
    idx = idx_prefix ++ positions ∧
    value_at val positions = Some (VFileArg r f) ∧ f ≠ "".
Proof.
  revert idx_prefix.
  induction val as [|b|z|s|r' s|l IHl|l|d] using pyval_list_ind; intros idx_prefix;
    try (split; [by intros ?%elem_of_nil|];
         intros ([|i positions] & _ & Hv & _); simpl in Hv; done).
  - simpl. destruct (String.eqb_spec s "") as [->|Hne]; simpl.
    + split; [by intros ?%elem_of_nil|].
      intros ([|i positions] & _ & Hv & Hf); simpl in Hv; [|done].
      by injection Hv as <- <-.
    + split.
      * intros [= -> -> ->]%list_elem_of_singleton. exists [].
        by rewrite app_nil_r.
      * intros ([|i positions] & -> & Hv & Hf); simpl in Hv; [|done].
        injection Hv as <- <-. rewrite app_nil_r. by apply list_elem_of_singleton.
  - rewrite get_FileArgs_list. split.
    + intros (i & v & Hi & Hocc).
      apply (Forall_lookup_1 _ _ _ _ IHl Hi) in Hocc
        as (positions & -> & Hv & Hf).
      exists (i :: positions). rewrite <-app_assoc. simpl.
      split; [done|]. by rewrite Hi.
    + intros ([|i positions] & -> & Hv & Hf); simpl in Hv; [done|].
      destruct (l !! i) as [v|] eqn:Hi; simpl in Hv; [|done].
      exists i, v. split; [done|].
      apply (Forall_lookup_1 _ _ _ _ IHl Hi). exists positions.
      by rewrite <-app_assoc.
Qed.

(** ** The port mappings of a record *)

(** The ports of a persisted record are the file arguments found in the
    recorded arguments and in the mapping that the body returned, with one
    entry for each role and port name: a mapping has an entry under a port
    name exactly when a file argument of its role has that port name, and
    the entry is the one of the last such file argument in the order of the
    loops, with its name, its paths, its argument and its positions.  An
    earlier file argument with the same role and port name leaves no entry
    of its own. *)
Theorem ports_are_the_discovered_files environ sys m c cmd_main args w path doc :
  is_Some (dict_get "metadata" args) →
  w_store (_run_cmd_with_tracking environ sys m c cmd_main args w).2 !! path
    = Some doc →
  w_store w !! path ≠ Some doc →
  (∀ r port,
     is_Some (files_of_role r doc !! port) ↔
     ∃ arg val idx f,
       (arg, val) ∈ st_args (sd_step doc) ++ metadata_from_cmd_return (sd_step doc) ∧
       (idx, (r, f)) ∈ get_FileArgs val [] ∧
       port = port_name arg idx) ∧
  (∀ r port,
     match last_occurrence r port
             (occurrences_of
                (st_args (sd_step doc) ++ metadata_from_cmd_return (sd_step doc))) with
     | Some (arg, idx, _, f) =>
         ∃ info,
           files_of_role r doc !! port = Some info ∧
           fi_fname info = f ∧ fi_arg info = arg ∧ fi_arg_idx info = idx ∧
           fi_realpath info = realpath f ∧ fi_abspath info = abspath f
     | None => files_of_role r doc !! port = None
     end).
Proof.
  intros Hm Hnew Hold.
  split;
    [|intros r port;
      exact (new_document_port _ _ _ _ _ _ _ _ _ r port Hm Hnew Hold)].
  intros r port.
  pose proof (new_document_port _ _ _ _ _ _ _ _ _ r port Hm Hnew Hold) as Hport.
  destruct (last_occurrence r port _) as [[[[arg idx] r0] f]|] eqn:Hlast;
    simpl in Hport.
  - apply last_occurrence_Some in Hlast as (Hin & -> & <-).
    apply elem_of_occurrences_of in Hin as (val & Hin & Hocc).
    destruct Hport as (info & Hl & _). split; [|by rewrite Hl].
    intros _. by exists arg, val, idx, f.
  - rewrite Hport. split; [by intros [? ?]|].
    intros (arg & val & idx & f & Hin & Hocc & ->).
    destruct (last_occurrence_None _ _ _ arg idx f Hlast); [|done].
    apply elem_of_occurrences_of. by exists val.
Qed.

Lemma new_document_full_entry environ sys m c cmd_main args w path doc r port info :
  is_Some (dict_get "metadata" args) →
  w_store (_run_cmd_with_tracking environ sys m c cmd_main args w).2 !! path
    = Some doc →
  w_store w !! path ≠ Some doc →
  files_of_role r doc !! port = Some info →
  match r, cmd_exception_of
             (run_body environ cmd_main (dict_pop "metadata" args) w).1 with
  | Output, Some _ => path_only_entry info
  | _, _ =>
      full_entry (w_fs (run_body environ cmd_main (dict_pop "metadata" args) w).2)
        info
  end.
Proof.
  intros Hm Hnew Hold Hl.
  destruct (run_cmd_with_tracking_new_document _ _ _ _ _ _ _ _ _ Hm Hnew Hold)
    as (_ & _ & _ & Ha).
  apply assemble_step_data_fields in Ha as (_ & _ & _ & _ & _ & Hfiles & _).
  apply record_params_entries_made in Hfiles as [Hin Hout]; [|by split].
  destruct r; simpl in Hl.
  - destruct (Hin _ _ Hl) as (arg & idx & f & Hi).
    by apply make_file_info_entry in Hi as (_ & _ & _ & _ & _ & Hi).
  - destruct (Hout _ _ Hl) as (arg & idx & f & Hi).
    by apply make_file_info_entry in Hi as (_ & _ & _ & _ & _ & Hi).
Qed.

Lemma full_entry_of_regular_file fs info i :
  full_entry fs info →
  fs_files fs !! fi_fname info = Some i → i_kind i = Regular →
  i_readable i = true →
  fi_hash info = Some ("sha1_" +:+ digest "sha1" (i_bytes i)) ∧
  fi_size info = Some (i_size i) ∧ fi_mtime info = Some (i_mtime i) ∧
  fi_ctime info = Some (i_ctime i).
Proof.
  intros [(h & Hh & Hcall) Hstat] Hfile Hk Hr.
  rewrite (Hasher_call_regular _ _ _ _ Hfile Hk Hr) in Hcall.
  injection Hcall as <-. unfold stat_fields_of in Hstat. rewrite Hfile in Hstat.
  by destruct Hstat as (? & ? & ? & _).
Qed.

(** The identity recorded for a file is a function of its bytes alone: an
    entry that is an input, or an output when no exception was caught, and
    whose file is after the body a regular file that can be read, holds
    [sha1_] followed by the digest of the bytes, with the size and the times
    of the file. *)
Theorem recorded_identity_is_digest_of_bytes
    environ sys m c cmd_main args w path doc r port info i :
  is_Some (dict_get "metadata" args) →
  w_store (_run_cmd_with_tracking environ sys m c cmd_main args w).2 !! path
    = Some doc →
  w_store w !! path ≠ Some doc →
  files_of_role r doc !! port = Some info →
  r = Input ∨
  cmd_exception_of (run_body environ cmd_main (dict_pop "metadata" args) w).1
  = None →
  fs_files (w_fs (_run_cmd_with_tracking environ sys m c cmd_main args w).2)
    !! fi_fname info = Some i →
  i_kind i = Regular → i_readable i = true →
  fi_hash info = Some ("sha1_" +:+ digest "sha1" (i_bytes i)) ∧
  fi_size info = Some (i_size i) ∧ fi_mtime info = Some (i_mtime i) ∧
  fi_ctime info = Some (i_ctime i).
Proof.
  intros Hm Hnew Hold Hl Hrole Hfile Hk Hr.
  destruct (run_cmd_with_tracking_new_document _ _ _ _ _ _ _ _ _ Hm Hnew Hold)
    as (_ & _ & Hfs & _).
  rewrite Hfs in Hfile.
  pose proof (new_document_full_entry _ _ _ _ _ _ _ _ _ _ _ _ Hm Hnew Hold Hl)
    as Hentry.
  eapply full_entry_of_regular_file; [|exact Hfile|exact Hk|exact Hr].
  destruct r; [by destruct (cmd_exception_of _)|].
  destruct Hrole as [|Hnone]; [done|]. by rewrite Hnone in Hentry.
Qed.

(** ** The loaded graph *)

Lemma port_nodes_elem sid port info x :
  x ∈ port_nodes sid port info ↔
  x = port_id sid port ∨ x = sid ∨ (fi_hash info = Some x ∧ x ≠ "").
Proof.
  unfold port_nodes. destruct (identity_of info) as [h|] eqn:Hid.
  - apply identity_of_Some in Hid as [Hh Hne]. rewrite Hh.
    rewrite !elem_of_union, !elem_of_singleton. naive_solver.
  - rewrite elem_of_union, elem_of_union, !elem_of_singleton, elem_of_empty.
    split; [naive_solver|]. intros [?|[?|[Hh Hne]]]; auto.
    assert (identity_of info = Some x) by by apply identity_of_Some.
    congruence.
Qed.

Lemma port_edges_elem file_kind sid port info u v :
  (u, v) ∈ port_edges file_kind sid port info ↔
  match file_kind with
  | Input =>
      (u = port_id sid port ∧ v = sid) ∨
      (fi_hash info = Some u ∧ u ≠ "" ∧ v = port_id sid port)
  | Output =>
      (u = sid ∧ v = port_id sid port) ∨
      (u = port_id sid port ∧ fi_hash info = Some v ∧ v ≠ "")
  end.
Proof.
  unfold port_edges. destruct (identity_of info) as [h|] eqn:Hid.
  - apply identity_of_Some in Hid as [Hh Hne]. rewrite Hh.
    destruct file_kind; rewrite elem_of_union, !elem_of_singleton; naive_solver.
  - assert (Hno : ∀ x, fi_hash info = Some x → x ≠ "" → False).
    { intros x Hh Hne.
      assert (identity_of info = Some x) by by apply identity_of_Some.
      congruence. }
    destruct file_kind;
      rewrite elem_of_union, elem_of_singleton, elem_of_empty; naive_solver.
Qed.

(** The graph that [load] returns holds what the bound graph held before and
    what the documents with a name in [.json] bring, and nothing else: a
    node for each step, one for each port, one for each non-empty identity,
    and for each port the edge that joins it to its step and the edge that
    joins it to its identity, directed by the kind of the port. *)
Theorem loaded_graph_is_exactly_the_records g0 environ listdir path dir listing :
  store_path environ path = Ok dir →
  listdir dir = Done listing →
  ∃ G,
    ProvenanceGraph_load (Some g0) environ listdir path = (Ok G, Some G) ∧
    (∀ x, x ∈ dom (nodes G) ↔
          x ∈ dom (nodes g0) ∨
          ∃ r, loaded listing r ∧
               (x = step_id (sd_step r) ∨
                ∃ file_kind port info,
                  files_of_role file_kind r !! port = Some info ∧
                  (x = port_id (step_id (sd_step r)) port ∨
                   (fi_hash info = Some x ∧ x ≠ "")))) ∧
    (∀ u v, (u, v) ∈ edges G ↔
            (u, v) ∈ edges g0 ∨
            ∃ r file_kind port info,
              loaded listing r ∧
              files_of_role file_kind r !! port = Some info ∧
              match file_kind with
              | Input =>
                  (u = port_id (step_id (sd_step r)) port ∧
                   v = step_id (sd_step r)) ∨
                  (fi_hash info = Some u ∧ u ≠ "" ∧
                   v = port_id (step_id (sd_step r)) port)
              | Output =>
                  (u = step_id (sd_step r) ∧
                   v = port_id (step_id (sd_step r)) port) ∨
                  (u = port_id (step_id (sd_step r)) port ∧
                   fi_hash info = Some v ∧ v ≠ "")
              end).
Proof.
  intros Hpath Hl. exists (load_listing listing g0).
  split; [by eapply ProvenanceGraph_load_bound|]. split.
  - intros x. rewrite load_listing_dom. unfold record_node. split.
    + intros [?|(r & Hr & [->|(k & port & info & Hp & Hx)])]; [by left|..].
      * right. exists r. auto.
      * right. exists r. split; [done|].
        apply port_nodes_elem in Hx as [?|[?|?]]; [|by left|];
          right; exists k, port, info; auto.
    + intros [?|(r & Hr & [->|(k & port & info & Hp & Hx)])]; [by left|..];
        right; exists r; (split; [done|]); [by left|].
      right. exists k, port, info. split; [done|].
      apply port_nodes_elem. destruct Hx; auto.
  - intros u v. rewrite load_listing_edges. unfold record_edge. split.
    + intros [?|(r & Hr & k & port & info & Hp & He)]; [by left|].
      right. exists r, k, port, info. by rewrite <-port_edges_elem.
    + intros [?|(r & k & port & info & Hr & Hp & He)]; [by left|].
      right. exists r. split; [done|]. exists k, port, info.
      by rewrite port_edges_elem.
Qed.

(** Every edge of the graph joins two of its nodes, before the call and
    hence after it. *)
Theorem load_keeps_edges_between_nodes listing g :
  (∀ u v, (u, v) ∈ edges g → u ∈ dom (nodes g) ∧ v ∈ dom (nodes g)) →
  ∀ u v, (u, v) ∈ edges (load_listing listing g) →
         u ∈ dom (nodes (load_listing listing g)) ∧
         v ∈ dom (nodes (load_listing listing g)).
Proof.
  intros Hg u v. rewrite !load_listing_dom, load_listing_edges.
  intros [He|(r & Hr & k & port & info & Hp & He)].
  - destruct (Hg u v He). auto.
  - assert (Hends : u ∈ port_nodes (step_id (sd_step r)) port info ∧
                    v ∈ port_nodes (step_id (sd_step r)) port info).
    { apply port_edges_elem in He. rewrite !port_nodes_elem.
      destruct k; naive_solver. }
    destruct Hends. split; right; exists r; (split; [done|]); right;
      by exists k, port, info.
Qed.

(** Directory entries whose name does not end in [.json] are passed over:
    the graph is the one built from the other entries alone. *)
Theorem load_reads_json_files_only listing g :
  load_listing listing g
  = load_listing (filter (λ entry, endswith entry.1 ".json" = true) listing) g.
Proof.
  revert g. induction listing as [|[fname r] rest IH]; intros g; simpl; [done|].
  destruct (endswith fname ".json") eqn:Hjson.
  - rewrite filter_cons_True by done. simpl. by rewrite Hjson, IH.
  - rewrite filter_cons_False by (simpl; congruence). apply IH.
Qed.

(** *** Loading again *)

Lemma writes_only_compose f1 f2 :
  writes_only f1 → writes_only f2 → writes_only (λ g, f2 (f1 g)).
Proof.
  intros (A1 & E1 & H1) (A2 & E2 & H2).
  exists (λ n, match A2 n, A1 n with
               | Some a2, Some a1 => Some (a2 ∪ a1)
               | Some a2, None => Some a2
               | None, o => o
               end), (E2 ∪ E1).
  intros g. destruct (H1 g) as [Hn1 He1]. destruct (H2 (f1 g)) as [Hn2 He2].
  split.
  - intros n. rewrite Hn2, Hn1.
    destruct (A2 n) as [a2|], (A1 n) as [a1|]; simpl; try done.
    by rewrite (assoc_L (∪)).
  - rewrite He2, He1. by rewrite (assoc_L (∪)).
Qed.

Lemma writes_only_skip : writes_only (λ g, g).
Proof.
  exists (λ _, None), ∅. intros g. split; [done|]. by rewrite (left_id_L ∅ (∪)).
Qed.

Lemma writes_only_add_node n attrs : writes_only (add_node n attrs).
Proof.
  exists (λ x, if decide (x = n) then Some attrs else None), ∅.
  intros g. split.
  - intros x. unfold add_node. simpl. destruct (decide (x = n)) as [->|Hne].
    + by rewrite lookup_insert_eq.
    + by rewrite lookup_insert_ne.
  - simpl. by rewrite (left_id_L ∅ (∪)).
Qed.

Lemma writes_only_add_edge u v : writes_only (add_edge u v).
Proof.
  apply (writes_only_compose (λ g, add_node v ∅ (add_node u ∅ g))
           (λ g1, Graph (nodes g1) ({[ (u, v) ]} ∪ edges g1))).
  - apply (writes_only_compose (add_node u ∅) (add_node v ∅));
      apply writes_only_add_node.
  - exists (λ _, None), {[ (u, v) ]}. by intros g.
Qed.

Ltac writes_only_steps :=
  lazymatch goal with
  | |- writes_only (λ g, g) => apply writes_only_skip
  | |- writes_only (λ g, add_node ?n ?a (@?f g)) =>
      apply (writes_only_compose f (add_node n a));
      [writes_only_steps|apply writes_only_add_node]
  | |- writes_only (λ g, add_edge ?u ?v (@?f g)) =>
      apply (writes_only_compose f (add_edge u v));
      [writes_only_steps|apply writes_only_add_edge]
  end.

Lemma writes_only_load_port file_kind sid port info :
  writes_only (load_port file_kind sid port info).
Proof.
  unfold load_port. cbv zeta.
  destruct (fi_hash info) as [file_id|];
    [destruct (negb (String.eqb file_id ""))|]; destruct file_kind;
    writes_only_steps.
Qed.

Lemma writes_only_load_ports file_kind sid (ports : gmap string file_info) :
  writes_only (λ g, map_fold (load_port file_kind sid) g ports).
Proof.
  assert (Hlist : ∀ l : list (string * file_info),
            writes_only (λ g, foldr (uncurry (load_port file_kind sid)) g l)).
  { induction l as [|[port info] l IH]; simpl; [apply writes_only_skip|].
    apply (writes_only_compose _ (load_port file_kind sid port info));
      [done|apply writes_only_load_port]. }
  destruct (Hlist (map_to_list ports)) as (A & E & Hspec).
  exists A, E. intros g. rewrite map_fold_foldr. apply Hspec.
Qed.

Lemma writes_only_load_record r : writes_only (load_record r).
Proof.
  unfold load_record. cbv zeta.
  apply (writes_only_compose _
           (λ g, map_fold (load_port Output (step_id (sd_step r))) g (out_files r)));
    [|apply writes_only_load_ports].
  apply (writes_only_compose _
           (λ g, map_fold (load_port Input (step_id (sd_step r))) g (in_files r)));
    [|apply writes_only_load_ports].
  apply writes_only_add_node.
Qed.

Lemma writes_only_load_listing listing : writes_only (load_listing listing).
Proof.
  induction listing as [|[fname r] rest IH]; simpl; [apply writes_only_skip|].
  apply (writes_only_compose _ (load_listing rest)); [|done].
  destruct (endswith fname ".json");
    [apply writes_only_load_record|apply writes_only_skip].
Qed.

Lemma graph_eq g1 g2 : nodes g1 = nodes g2 → edges g1 = edges g2 → g1 = g2.
Proof. destruct g1, g2; simpl. by intros -> ->. Qed.

Lemma writes_only_idempotent f g : writes_only f → f (f g) = f g.
Proof.
  intros (A & E & Hspec).
  destruct (Hspec g) as [Hn He]. destruct (Hspec (f g)) as [Hn2 He2].
  assert (Hnodes : nodes (f (f g)) = nodes (f g)).
  { apply map_eq. intros n. rewrite Hn2, Hn.
    destruct (A n) as [a|]; [|done]. simpl.
    by rewrite (assoc_L (∪)), (idemp_L (∪)). }
  assert (Hedges : edges (f (f g)) = edges (f g)).
  { rewrite He2, He. by rewrite (assoc_L (∪)), (idemp_L (∪)). }
  by apply graph_eq.
Qed.

(** Loading a store a second time into the graph that the first call left
    bound changes nothing: the second call returns the same graph, with the
    same nodes, attributes and edges. *)
Theorem loading_again_changes_nothing g0 environ listdir path dir listing :
  store_path environ path = Ok dir →
  listdir dir = Done listing →
  ∃ G,
    ProvenanceGraph_load (Some g0) environ listdir path = (Ok G, Some G) ∧
    ProvenanceGraph_load (Some G) environ listdir path = (Ok G, Some G).
Proof.
  intros Hpath Hl. exists (load_listing listing g0).
  rewrite !(ProvenanceGraph_load_bound _ _ _ _ _ _ Hpath Hl).
  split; [done|].
  by rewrite (writes_only_idempotent _ _ (writes_only_load_listing listing)).
Qed.

(** ** From the recorder to the graph *)

Lemma append_cons a (s t : string) : String a s +:+ t = String a (s +:+ t).
Proof. reflexivity. Qed.

Lemma string_append_assoc (s t u : string) : (s +:+ t) +:+ u = s +:+ (t +:+ u).
Proof. induction s as [|a s IH]; [done|]. by rewrite !append_cons, IH. Qed.

Lemma rev_app_append (s t : string) :
  String.rev_app s t = String.rev s +:+ t.
Proof.
  unfold String.rev. revert t. induction s as [|a s IH]; intros t; simpl; [done|].
  rewrite (IH (String a t)), (IH (String a "")).
  by rewrite string_append_assoc.
Qed.

Lemma rev_append (s t : string) :
  String.rev (s +:+ t) = String.rev t +:+ String.rev s.
Proof.
  unfold String.rev at 1.
  assert (Hgen : ∀ u, String.rev_app (s +:+ t) u
                      = String.rev_app t (String.rev_app s u)).
  { induction s as [|a s IH]; intros u; [done|]. rewrite append_cons. simpl. apply IH. }
  rewrite Hgen, rev_app_append. done.
Qed.

Lemma prefix_append (s t : string) : String.prefix s (s +:+ t) = true.
Proof.
  induction s as [|a s IH]; [by destruct t|]. rewrite append_cons. simpl.
  by destruct (Ascii.ascii_dec a a).
Qed.

Lemma endswith_append (s suffix : string) : endswith (s +:+ suffix) suffix = true.
Proof. unfold endswith. rewrite rev_append. apply prefix_append. Qed.

Lemma loaded_port_in_graph listing g r file_kind port info h :
  loaded listing r →
  files_of_role file_kind r !! port = Some info →
  fi_hash info = Some h → h ≠ "" →
  h ∈ dom (nodes (load_listing listing g)) ∧
  match file_kind with
  | Input =>
      (h, port_id (step_id (sd_step r)) port) ∈ edges (load_listing listing g) ∧
      (port_id (step_id (sd_step r)) port, step_id (sd_step r))
      ∈ edges (load_listing listing g)
  | Output =>
      (step_id (sd_step r), port_id (step_id (sd_step r)) port)
      ∈ edges (load_listing listing g) ∧
      (port_id (step_id (sd_step r)) port, h) ∈ edges (load_listing listing g)
  end.
Proof.
  intros Hr Hp Hh Hne. split.
  - apply load_listing_dom. right. exists r. split; [done|]. right.
    exists file_kind, port, info. split; [done|]. apply port_nodes_elem. auto.
  - destruct file_kind; split; apply load_listing_edges; right; exists r;
      (split; [done|]); [exists Input|exists Input|exists Output|exists Output];
      exists port, info; (split; [done|]); apply port_edges_elem; auto.
Qed.

(** What the recorder writes, the loader reads.  The record of an
    invocation, found in the listing of the tracking directory under its
    step identifier with the suffix [.json], gives the graph a node for the
    step; and each of its files that is an input, or an output when no
    exception was caught, and that is a regular readable file after the
    body, gives a file node named by the digest of its bytes, joined to the
    step through the port. *)
Theorem recorded_step_appears_in_graph
    environ sys m c cmd_main args w path doc listing g :
  is_Some (dict_get "metadata" args) →
  w_store (_run_cmd_with_tracking environ sys m c cmd_main args w).2 !! path
    = Some doc →
  w_store w !! path ≠ Some doc →
  (step_id (sd_step doc) +:+ ".json", doc) ∈ listing →
  step_id (sd_step doc) ∈ dom (nodes (load_listing listing g)) ∧
  ∀ r port info i,
    files_of_role r doc !! port = Some info →
    r = Input ∨
    cmd_exception_of (run_body environ cmd_main (dict_pop "metadata" args) w).1
    = None →
    fs_files (w_fs (_run_cmd_with_tracking environ sys m c cmd_main args w).2)
      !! fi_fname info = Some i →
    i_kind i = Regular → i_readable i = true →
    "sha1_" +:+ digest "sha1" (i_bytes i) ∈ dom (nodes (load_listing listing g)) ∧
    match r with
    | Input =>
        ("sha1_" +:+ digest "sha1" (i_bytes i),
         port_id (step_id (sd_step doc)) port) ∈ edges (load_listing listing g) ∧
        (port_id (step_id (sd_step doc)) port, step_id (sd_step doc))
        ∈ edges (load_listing listing g)
    | Output =>
        (step_id (sd_step doc), port_id (step_id (sd_step doc)) port)
        ∈ edges (load_listing listing g) ∧
        (port_id (step_id (sd_step doc)) port,
         "sha1_" +:+ digest "sha1" (i_bytes i)) ∈ edges (load_listing listing g)
    end.
Proof.
  intros Hm Hnew Hold Hin.
  assert (Hloaded : loaded listing doc).
  { exists (step_id (sd_step doc) +:+ ".json"). split; [done|].
    apply endswith_append. }
  split.
  - apply load_listing_dom. right. exists doc. split; [done|]. by left.
  - intros r port info i Hl Hrole Hfile Hk Hr.
    destruct (run_cmd_with_tracking_new_document _ _ _ _ _ _ _ _ _ Hm Hnew Hold)
      as (_ & _ & Hfs & _).
    rewrite Hfs in Hfile.
    pose proof (new_document_full_entry _ _ _ _ _ _ _ _ _ _ _ _ Hm Hnew Hold Hl)
      as Hentry.
    assert (Hfull : full_entry
              (w_fs (run_body environ cmd_main (dict_pop "metadata" args) w).2)
              info).
    { destruct r; [by destruct (cmd_exception_of _)|].
      destruct Hrole as [|Hnone]; [done|]. by rewrite Hnone in Hentry. }
    destruct (full_entry_of_regular_file _ _ _ Hfull Hfile Hk Hr) as (Hh & _).
    apply (loaded_port_in_graph listing g doc r port info); done.
Qed.

(** The output of a failed step is not tied to any content.  When an
    exception of the body was caught, loading an output port of the record
    adds the port node and the edge from the step to it, and neither a file
    node nor an edge to one. *)
Theorem failed_step_output_has_no_file_node
    environ sys m c cmd_main args w path doc e port info g :
  is_Some (dict_get "metadata" args) →
  w_store (_run_cmd_with_tracking environ sys m c cmd_main args w).2 !! path
    = Some doc →
  w_store w !! path ≠ Some doc →
  cmd_exception_of (run_body environ cmd_main (dict_pop "metadata" args) w).1
  = Some e →
  out_files doc !! port = Some info →
  dom (nodes (load_port Output (step_id (sd_step doc)) port info g))
  = {[ port_id (step_id (sd_step doc)) port; step_id (sd_step doc) ]}
    ∪ dom (nodes g) ∧
  edges (load_port Output (step_id (sd_step doc)) port info g)
  = {[ (step_id (sd_step doc), port_id (step_id (sd_step doc)) port) ]}
    ∪ edges g.
Proof.
  intros Hm Hnew Hold Hexc Hl.
  pose proof (new_document_full_entry _ _ _ _ _ _ _ _ _ Output port info
                Hm Hnew Hold Hl) as Hentry.
  rewrite Hexc in Hentry. destruct Hentry as (Hh & _).
  rewrite load_port_dom, load_port_edges.
  unfold port_nodes, port_edges, identity_of. rewrite Hh.
  by rewrite !(right_id_L ∅ (∪)).
Qed.

(** ** Tagging the code version *)

Lemma run_cmd_done sh cmd trace rc out :
  Git.run_and_print sh (Git.argv_of cmd) = Done (rc, out) →
  Git.run_cmd sh cmd trace
  = (Ok (if rc =? 0 then Git.strip out else ""), trace ++ [Git.argv_of cmd]).
Proof. intros Hrun. unfold Git.run_cmd. by rewrite Hrun. Qed.

Lemma run_cmd_trace sh cmd trace :
  (Git.run_cmd sh cmd trace).2 = trace ++ [Git.argv_of cmd].
Proof.
  unfold Git.run_cmd.
  by destruct (call (Git.run_and_print sh (Git.argv_of cmd))) as [[rc out]|e].
Qed.

(** When the project directory can be entered and no git command raises,
    [tag_code_version] returns what [git stash create] printed, if it
    succeeded and printed anything, and otherwise what [git log] printed on
    success (the empty string if that failed too); it runs [git log] only in
    the second case, then tags the hash, and after that pushes the tag
    exactly when a non-empty remote was given. *)
Theorem tag_code_version_when_git_runs
    sh project_path dir tag push_to trace rc1 out1 rc2 out2 :
  project_path = Done dir →
  Git.chdir sh dir = Done tt →
  (∀ argv, ¬ failed (Git.run_and_print sh argv)) →
  Git.run_and_print sh (Git.argv_of Git.git_stash_create) = Done (rc1, out1) →
  Git.run_and_print sh (Git.argv_of Git.git_log) = Done (rc2, out2) →
  let stash := if rc1 =? 0 then Git.strip out1 else "" in
  let code_hash :=
    if String.eqb stash ""
    then (if rc2 =? 0 then Git.strip out2 else "")
    else stash in
  Git.tag_code_version sh project_path tag push_to trace
  = (code_hash,
     trace ++ [Git.argv_of Git.git_stash_create]
       ++ (if String.eqb stash "" then [Git.argv_of Git.git_log] else [])
       ++ [Git.argv_of ("git tag " +:+ tag +:+ " " +:+ code_hash)]
       ++ match push_to with
          | Some remote =>
              if String.eqb remote "" then []
              else [Git.argv_of ("git push " +:+ remote +:+ " " +:+ tag)]
          | None => []
          end).
Proof.
  intros -> Hcd Hsafe Hstash Hlog stash code_hash.
  unfold Git.tag_code_version. simpl. rewrite Hcd. simpl.
  rewrite (run_cmd_done _ _ _ _ _ Hstash). fold stash. simpl.
  assert (Hfound :
    (if negb (String.eqb stash "") then (Ok stash, trace ++ [Git.argv_of Git.git_stash_create])
     else Git.run_cmd sh Git.git_log (trace ++ [Git.argv_of Git.git_stash_create]))
    = (Ok code_hash,
       trace ++ [Git.argv_of Git.git_stash_create]
         ++ (if String.eqb stash "" then [Git.argv_of Git.git_log] else []))).
  { unfold code_hash. destruct (String.eqb stash ""); simpl.
    - rewrite (run_cmd_done _ _ _ _ _ Hlog). by rewrite <-app_assoc.
    - done. }
  rewrite Hfound.
  destruct (Git.run_and_print sh
              (Git.argv_of ("git tag " +:+ tag +:+ " " +:+ code_hash)))
    as [[rc3 out3]|cls msg] eqn:Htag;
    [|by destruct (Hsafe (Git.argv_of ("git tag " +:+ tag +:+ " " +:+ code_hash)));
         rewrite Htag].
  rewrite (run_cmd_done _ _ _ _ _ Htag).
  destruct push_to as [remote|]; simpl.
  - destruct (String.eqb remote ""); simpl.
    + by rewrite <-!app_assoc.
    + rewrite run_cmd_trace. by rewrite <-!app_assoc.
  - by rewrite <-!app_assoc.
Qed.

Lemma run_cmd_cases sh cmd trace :
  (∃ rc out,
     Git.run_and_print sh (Git.argv_of cmd) = Done (rc, out) ∧
     Git.run_cmd sh cmd trace
     = (Ok (if rc =? 0 then Git.strip out else ""), trace ++ [Git.argv_of cmd])) ∨
  (∃ e, Git.run_cmd sh cmd trace = (Raise e, trace ++ [Git.argv_of cmd])).
Proof.
  unfold Git.run_cmd.
  destruct (Git.run_and_print sh (Git.argv_of cmd)) as [[rc out]|cls msg]; simpl;
    eauto.
Qed.

Lemma tag_code_version_cases sh project_path tag push_to trace :
  ∃ code_hash started,
    Git.tag_code_version sh project_path tag push_to trace
    = (code_hash, trace ++ started) ∧
    (length started ≤ 4)%nat ∧
    (failed project_path ∨
     (∃ dir, project_path = Done dir ∧ failed (Git.chdir sh dir)) →
     code_hash = "" ∧ started = []) ∧
    (code_hash ≠ "" →
     ∃ out,
       code_hash = Git.strip out ∧
       (Git.run_and_print sh (Git.argv_of Git.git_stash_create) = Done (0, out) ∨
        Git.run_and_print sh (Git.argv_of Git.git_log) = Done (0, out))).
Proof.
  unfold Git.tag_code_version.
  destruct project_path as [dir|cls msg]; simpl.
  2: { exists "", []. rewrite app_nil_r. repeat split; simpl; (done || lia). }
  destruct (Git.chdir sh dir) as [[]|cls msg] eqn:Hcd; simpl.
  2: { exists "", []. rewrite app_nil_r. repeat split; simpl; (done || lia). }
  assert (Hproj : failed (Done dir) ∨
            (∃ dir0, Done dir = Done dir0 ∧ failed (Git.chdir sh dir0)) → False).
  { intros [[]|(d & [= <-] & Hf)]. by rewrite Hcd in Hf. }
  destruct (run_cmd_cases sh Git.git_stash_create trace)
    as [(rc1 & out1 & Hstash & ->)|(e & ->)].
  2: { exists "", [Git.argv_of Git.git_stash_create].
       repeat split; simpl; (done || lia || by intros ?%Hproj). }
  set (stash := if rc1 =? 0 then Git.strip out1 else "").
  assert (Hstash_from : stash ≠ "" →
    ∃ out, stash = Git.strip out ∧
      (Git.run_and_print sh (Git.argv_of Git.git_stash_create) = Done (0, out) ∨
       Git.run_and_print sh (Git.argv_of Git.git_log) = Done (0, out))).
  { unfold stash. destruct (Z.eqb_spec rc1 0) as [->|]; [|done].
    intros _. exists out1. auto. }
  assert (Hafter : ∀ code_hash t2 before,
    t2 = trace ++ before → (length before ≤ 2)%nat →
    ∃ started,
      (let '(r0, t3) :=
         Git.run_cmd sh ("git tag " +:+ tag +:+ " " +:+ code_hash) t2 in
       match r0 with
       | Ok _ =>
           if truthy (from_option VStr VNone push_to)
           then (code_hash,
                 (Git.run_cmd sh
                    ("git push " +:+ default "" push_to +:+ " " +:+ tag) t3).2)
           else (code_hash, t3)
       | Raise _ => (code_hash, t3)
       end) = (code_hash, trace ++ started) ∧ (length started ≤ 4)%nat).
  { intros code_hash t2 before -> Hlen.
    destruct (run_cmd_cases sh ("git tag " +:+ tag +:+ " " +:+ code_hash)
                (trace ++ before)) as [(rc3 & out3 & _ & ->)|(e & ->)].
    - destruct (truthy (from_option VStr VNone push_to)).
      + rewrite run_cmd_trace, <-!app_assoc. eexists. split; [reflexivity|].
        rewrite !length_app. simpl. lia.
      + rewrite <-app_assoc. eexists. split; [reflexivity|].
        rewrite !length_app. simpl. lia.
    - rewrite <-app_assoc. eexists. split; [reflexivity|].
      rewrite !length_app. simpl. lia. }
  destruct (String.eqb stash "") eqn:Hempty; simpl.
  - destruct (run_cmd_cases sh Git.git_log (trace ++ [Git.argv_of Git.git_stash_create]))
      as [(rc2 & out2 & Hlog & ->)|(e & ->)].
    + destruct (Hafter (if rc2 =? 0 then Git.strip out2 else "")
                  ((trace ++ [Git.argv_of Git.git_stash_create])
                     ++ [Git.argv_of Git.git_log])
                  [Git.argv_of Git.git_stash_create; Git.argv_of Git.git_log])
        as (started & -> & Hlen); [by rewrite <-app_assoc|simpl; lia|].
      eexists _, started. split; [reflexivity|]. split; [done|].
      split; [by intros ?%Hproj|].
      destruct (Z.eqb_spec rc2 0) as [->|]; [|done].
      intros _. exists out2. auto.
    + exists "", [Git.argv_of Git.git_stash_create; Git.argv_of Git.git_log].
      rewrite <-app_assoc.
      repeat split; simpl; (done || lia || by intros ?%Hproj).
  - destruct (Hafter stash (trace ++ [Git.argv_of Git.git_stash_create])
                [Git.argv_of Git.git_stash_create])
      as (started & -> & Hlen); [done|simpl; lia|].
    eexists _, started. split; [reflexivity|]. split; [done|].
    split; [by intros ?%Hproj|done].
Qed.

(** Whatever the shell does, [tag_code_version] returns normally.  Without a
    project directory that can be entered it runs nothing and returns the
    empty string; in every case it starts at most four commands, and a hash
    that it returns was printed by [git stash create] or by [git log],
    ending with return code [0]. *)
Theorem tag_code_version_is_contained sh project_path tag push_to trace :
  (failed project_path ∨
   (∃ dir, project_path = Done dir ∧ failed (Git.chdir sh dir)) →
   Git.tag_code_version sh project_path tag push_to trace = ("", trace)) ∧
  (∃ started,
     (Git.tag_code_version sh project_path tag push_to trace).2 = trace ++ started ∧
     (length started ≤ 4)%nat) ∧
  ((Git.tag_code_version sh project_path tag push_to trace).1 ≠ "" →
   ∃ out,
     (Git.tag_code_version sh project_path tag push_to trace).1 = Git.strip out ∧
     (Git.run_and_print sh (Git.argv_of Git.git_stash_create) = Done (0, out) ∨
      Git.run_and_print sh (Git.argv_of Git.git_log) = Done (0, out))).
Proof.
  destruct (tag_code_version_cases sh project_path tag push_to trace)
    as (code_hash & started & -> & Hlen & Hproj & Hfrom).
  simpl. split; [|split; [eauto|done]].
  intros Hfail. destruct (Hproj Hfail) as [-> ->]. by rewrite app_nil_r.
Qed.

Lemma assemble_step_data_code_hash environ sys m c args_dict res ce fs path doc :
  assemble_step_data environ sys m c args_dict res ce fs = Ok (path, doc) →
  ∃ md,
    metadata_dir environ = Ok md ∧
    code_hash (st_version_info (sd_step doc))
    = tag_code_version sys ("cmd_" +:+ step_id (sd_step doc))
        (if isdir fs (path_join md "code_repo")
         then Some (path_join md "code_repo") else None).
Proof.
  unfold assemble_step_data. intros Ha. ok_inv Ha.
  injection Ha as <- <-. simpl.
  repeat match goal with
         | Hx : metadata_dir environ = Ok ?x, Hy : metadata_dir environ = Ok ?y |- _ =>
             assert (x = y) as -> by congruence; clear Hx
         end.
  eauto.
Qed.

(** The code hash of a record is the hash that [tag_code_version] returns
    for the tag [cmd_] followed by the step identifier, and the tag is
    pushed to [code_repo] under the tracking directory exactly when that is
    a directory at the time of recording. *)
Theorem recorded_code_hash_is_the_tagged_commit
    sh environ sys m c cmd_main args w path doc :
  is_Some (dict_get "metadata" args) →
  w_store (_run_cmd_with_tracking environ (with_git sh sys) m c cmd_main args w).2
    !! path = Some doc →
  w_store w !! path ≠ Some doc →
  ∃ md,
    environ !! "VIRAL_NGS_METADATA_PATH" = Some md ∧
    code_hash (st_version_info (sd_step doc))
    = (Git.tag_code_version sh (sys_get_project_path sys)
         ("cmd_" +:+ step_id (sd_step doc))
         (if isdir
               (w_fs (_run_cmd_with_tracking environ (with_git sh sys) m c
                        cmd_main args w).2)
               (path_join md "code_repo")
          then Some (path_join md "code_repo") else None) []).1.
Proof.
  intros Hm Hnew Hold.
  destruct (run_cmd_with_tracking_new_document _ _ _ _ _ _ _ _ _ Hm Hnew Hold)
    as (_ & _ & -> & Ha).
  apply assemble_step_data_code_hash in Ha as (md & Hmd & ->).
  exists md. split; [|done]. unfold metadata_dir in Hmd.
  destruct (environ !! "VIRAL_NGS_METADATA_PATH"); [by injection Hmd as ->|done].
Qed.

End properties.

(** * The statements on the sample instances *)

Lemma Hasher_call_identity_witness :
  Hasher_call (H := sample_external) "sha1" sample_fs "a"
    = Hasher_call (H := sample_external) "sha1" sample_fs "copy_of_a" ∧
  Hasher_call (H := sample_external) "sha1" sample_fs "a" = Ok "sha1_sha12" ∧
  Hasher_call (H := sample_external) "sha1" sample_fs "dir" = Ok "" ∧
  Hasher_call (H := sample_external) "sha1" sample_fs "missing" = Ok "" ∧
  Hasher_call (H := sample_external) "sha1" sample_fs "secret" = Ok "".
Proof.
  destruct (Hasher_call_identity (H := sample_external) "sha1")
    as (Hsame & Hnofile & Hfail & _).
  destruct (Hsame sample_fs sample_fs "a" "copy_of_a"
              (sample_file [Byte.x41; Byte.x42] 10)
              (sample_file [Byte.x41; Byte.x42] 99))
    as [Heq Hval]; try reflexivity; try (vm_compute; exact id).
  split; [exact Heq|]. split; [exact Hval|].
  split; [apply Hnofile; reflexivity|].
  split; [apply Hnofile; reflexivity|].
  apply Hfail. vm_compute. exact I.
Defined.

Lemma InFile_checks_readability_witness :
  is_metadata_tracking_enabled tracking_on = true ∧
  raises (InFile tracking_on sample_fs "missing") ∧
  raises (InFile tracking_on sample_fs "secret") ∧
  ∃ v, InFile tracking_on sample_fs "a" = Ok v ∧
       as_str v = Some "a" ∧
       py_eq v (VStr "a") = true ∧ py_eq (VStr "a") v = true ∧
       py_hash (H := sample_external) v = py_hash (H := sample_external) (VStr "a").
Proof.
  split; [reflexivity|].
  split; [apply (InFile_checks_readability (H := sample_external)); reflexivity|].
  split; [apply (InFile_checks_readability (H := sample_external)); reflexivity|].
  apply (InFile_checks_readability (H := sample_external)); reflexivity.
Defined.

(** C8 fails as stated: with [VIRAL_NGS_SKIP_CMD] in the environment,
    [OutFile] accepts an existing file that cannot be written, and an
    existing directory. *)
Lemma OutFile_skip_cmd_accepts_read_only :
  is_metadata_tracking_enabled tracking_on_skip = true ∧
  path_exists sample_fs "ro" = true ∧ access_W_OK sample_fs "ro" = false ∧
  OutFile tracking_on_skip sample_fs "ro" = (Ok (VFileArg Output "ro"), sample_fs) ∧
  path_exists sample_fs "dir" = true ∧ isfile sample_fs "dir" = false ∧
  OutFile tracking_on_skip sample_fs "dir" = (Ok (VFileArg Output "dir"), sample_fs).
Proof. repeat split; reflexivity. Qed.

Lemma OutFile_checks_writability_witness :
  is_metadata_tracking_enabled tracking_on = true ∧
  skip_cmd tracking_on = false ∧
  raises (OutFile tracking_on sample_fs "ro").1 ∧
  raises (OutFile tracking_on sample_fs "dir").1 ∧
  OutFile tracking_on sample_fs "a" = (Ok (VFileArg Output "a"), sample_fs) ∧
  raises (OutFile tracking_on sample_fs "/locked/new").1 ∧
  OutFile tracking_on sample_fs "new" = (Ok (VFileArg Output "new"), sample_fs) ∧
  path_exists (OutFile tracking_on sample_fs "new").2 "new" = false.
Proof.
  assert (Hthm : ∀ fname,
    (path_exists sample_fs fname = true →
     (isfile sample_fs fname && access_W_OK sample_fs fname = false →
      raises (OutFile tracking_on sample_fs fname).1) ∧
     (isfile sample_fs fname && access_W_OK sample_fs fname = true →
      OutFile tracking_on sample_fs fname = (Ok (VFileArg Output fname), sample_fs))) ∧
    (path_exists sample_fs fname = false →
     (raises (open_write sample_fs fname) →
      raises (OutFile tracking_on sample_fs fname).1) ∧
     (∀ fs1, open_write sample_fs fname = Ok fs1 →
        OutFile tracking_on sample_fs fname = (Ok (VFileArg Output fname), sample_fs) ∧
        path_exists (OutFile tracking_on sample_fs fname).2 fname = false))).
  { intros fname.
    destruct (OutFile_checks_writability tracking_on sample_fs fname eq_refl)
      as [Hcheck _].
    destruct (Hcheck eq_refl) as [Hex Hnew]. split.
    - intros Hp. destruct (Hex Hp) as [Hbad Hgood]. split; [|done].
      intros Hb. by destruct (Hbad Hb).
    - intros Hp. destruct (Hnew Hp) as [Hbad Hgood]. split.
      + intros Hb. by destruct (Hbad Hb).
      + intros fs1 Hw. by destruct (Hgood fs1 Hw) as (_ & _ & _ & ? & ?). }
  split; [reflexivity|]. split; [reflexivity|].
  split; [exact (proj1 (proj1 (Hthm "ro") eq_refl) eq_refl)|].
  split; [exact (proj1 (proj1 (Hthm "dir") eq_refl) eq_refl)|].
  split; [exact (proj2 (proj1 (Hthm "a") eq_refl) eq_refl)|].
  split; [apply (proj1 (proj2 (Hthm "/locked/new") eq_refl)); vm_compute; exact I|].
  destruct (open_write sample_fs "new") as [fs1|e] eqn:Hw; [|by vm_compute in Hw].
  exact (proj2 (proj2 (Hthm "new") eq_refl) fs1 Hw).
Defined.

Lemma sample_args_metadata : is_Some (dict_get "metadata" sample_args).
Proof. by exists VNone. Defined.

Lemma falsy_exception_not_reraised_witness :
  (failing_body empty_error_list (dict_pop "metadata" sample_args) sample_fs).1
    = Raise empty_error_list ∧
  (_run_cmd_with_tracking (H := sample_external) tracking_on sample_sys
     "mod" "cmd" (failing_body empty_error_list) sample_args sample_world).1
    = Ok VNone.
Proof.
  split; [reflexivity|].
  eapply (falsy_exception_not_reraised (H := sample_external));
    [exact sample_args_metadata|reflexivity..].
Defined.

(** C3 fails as stated: a body that returns without writing one of its
    declared output files leaves, for that output, an entry with an empty
    identity and no statistics. *)
Lemma successful_step_output_without_statistics :
  (sample_body (dict_pop "metadata" sample_args) sample_fs).1 = Ok (VInt 0) ∧
  (w_store (_run_cmd_with_tracking (H := sample_external) tracking_on sample_sys
              "mod" "cmd" sample_body sample_args sample_world).2
     !! sample_step_path ≫= λ doc, out_files doc !! "outs_1")
  = Some (FileInfo "c" "/data/c" "/data/c" "outs" [1%nat]
            (Some "") None None None None).
Proof. split; vm_compute; reflexivity. Qed.

Lemma file_entries_of_record_witness :
  ∃ doc,
    w_store (_run_cmd_with_tracking (H := sample_external) tracking_on sample_sys
               "mod" "cmd" (failing_body ValueError) sample_args sample_world).2
      !! sample_step_path = Some doc ∧
    is_Some (in_files doc !! "inp") ∧ is_Some (out_files doc !! "outs_0") ∧
    (∀ port info, in_files doc !! port = Some info →
       full_entry (H := sample_external)
         (w_fs (_run_cmd_with_tracking (H := sample_external) tracking_on
                  sample_sys "mod" "cmd" (failing_body ValueError) sample_args
                  sample_world).2) info) ∧
    (∀ port info, out_files doc !! port = Some info → path_only_entry info).
Proof.
  destruct (w_store (_run_cmd_with_tracking (H := sample_external) tracking_on
                       sample_sys "mod" "cmd" (failing_body ValueError)
                       sample_args sample_world).2 !! sample_step_path)
    as [doc|] eqn:Hdoc; [|by vm_compute in Hdoc].
  exists doc. split; [reflexivity|].
  assert (Hports : is_Some (in_files doc !! "inp") ∧
                   is_Some (out_files doc !! "outs_0")).
  { vm_compute in Hdoc. injection Hdoc as <-. split; vm_compute; eauto. }
  destruct Hports as [Hin Hout]. split; [exact Hin|]. split; [exact Hout|].
  destruct (file_entries_of_record (H := sample_external) tracking_on sample_sys
              "mod" "cmd" (failing_body ValueError) sample_args sample_world
              sample_step_path doc sample_args_metadata Hdoc
              (λ Hold, eq_ind None
                         (λ o, match o with None => True | Some _ => False end)
                         I _ Hold)) as [Hinputs Houtputs].
  split; [exact Hinputs|].
  intros port info Hentry. exact (Houtputs port info Hentry eq_refl).
Defined.

(** A body that leaves through [SystemExit] is not caught by
    [except Exception]: the exception goes on to the invoker, no exception
    text is recorded, and the output it left half-written is hashed like the
    output of a successful step. *)
Lemma system_exit_is_recorded_as_success :
  (_run_cmd_with_tracking (H := sample_external) tracking_on sample_sys
     "mod" "cmd" (failing_body SystemExit) sample_args sample_world).1
    = Raise SystemExit ∧
  (exception ∘ st_run_info ∘ sd_step)
    <$> w_store (_run_cmd_with_tracking (H := sample_external) tracking_on
                   sample_sys "mod" "cmd" (failing_body SystemExit) sample_args
                   sample_world).2 !! sample_step_path
  = Some None ∧
  (w_store (_run_cmd_with_tracking (H := sample_external) tracking_on sample_sys
              "mod" "cmd" (failing_body SystemExit) sample_args sample_world).2
     !! sample_step_path ≫= λ doc, fi_hash <$> out_files doc !! "outs_0")
  = Some (Some "sha1_sha11").
Proof. repeat split; vm_compute; reflexivity. Qed.

(** C5 fails as stated: with tracking disabled and [VIRAL_NGS_SKIP_CMD] in
    the environment, a body that would raise is not run, and the invoker
    sees a normal return instead of the error of the body. *)
Lemma skipped_body_error_not_observed :
  is_metadata_tracking_enabled tracking_off_skip = false ∧
  (failing_body ValueError (dict_pop "metadata" sample_args) sample_fs).1
    = Raise ValueError ∧
  _run_cmd_with_tracking (H := sample_external) tracking_off_skip sample_sys
    "mod" "cmd" (failing_body ValueError) sample_args sample_world
    = (Ok VNone, sample_world).
Proof. repeat split; reflexivity. Qed.

(** The wrapper has no [return]: the value that the body returns does not
    reach the invoker either. *)
Lemma return_value_not_passed_on :
  is_metadata_tracking_enabled tracking_off = false ∧
  skip_cmd tracking_off = false ∧
  (sample_body (dict_pop "metadata" sample_args) sample_fs).1 = Ok (VInt 0) ∧
  (_run_cmd_with_tracking (H := sample_external) tracking_off sample_sys
     "mod" "cmd" sample_body sample_args sample_world).1 = Ok VNone.
Proof. repeat split; reflexivity. Qed.

(** With tracking enabled and a store that cannot be written, no record is
    persisted. *)
Lemma failed_write_leaves_no_record :
  is_metadata_tracking_enabled tracking_on = true ∧
  _run_cmd_with_tracking (H := sample_external) tracking_on sample_sys_full_disk
    "mod" "cmd" sample_body sample_args sample_world
  = (Ok VNone, World (sample_body (dict_pop "metadata" sample_args) sample_fs).2 ∅ 1).
Proof. split; vm_compute; reflexivity. Qed.

Lemma tracking_disabled_writes_nothing_witness :
  is_metadata_tracking_enabled tracking_off = false ∧
  skip_cmd tracking_off = false ∧
  w_store (_run_cmd_with_tracking (H := sample_external) tracking_off sample_sys
             "mod" "cmd" (failing_body ValueError) sample_args sample_world).2
    = ∅ ∧
  w_body_calls (_run_cmd_with_tracking (H := sample_external) tracking_off
                  sample_sys "mod" "cmd" (failing_body ValueError) sample_args
                  sample_world).2 = 1%nat ∧
  (_run_cmd_with_tracking (H := sample_external) tracking_off sample_sys
     "mod" "cmd" (failing_body ValueError) sample_args sample_world).1
    = Raise ValueError ∧
  is_Some (w_store (_run_cmd_with_tracking (H := sample_external) tracking_on
                      sample_sys "mod" "cmd" sample_body sample_args
                      sample_world).2 !! sample_step_path).
Proof.
  destruct (tracking_disabled_writes_nothing (H := sample_external) tracking_off
              sample_sys "mod" "cmd" (failing_body ValueError) sample_args
              sample_world sample_args_metadata) as (Hoff & _ & _).
  destruct (Hoff eq_refl) as (Hstore & Hrun & _).
  destruct (Hrun eq_refl) as (_ & Hcalls & _ & Hraise).
  split; [reflexivity|]. split; [reflexivity|]. split; [exact Hstore|].
  split; [exact Hcalls|]. split; [exact (Hraise ValueError eq_refl (or_introl eq_refl))|].
  destruct (tracking_disabled_writes_nothing (H := sample_external) tracking_on
              sample_sys "mod" "cmd" sample_body sample_args
              sample_world sample_args_metadata) as (_ & _ & Hon).
  destruct (assemble_step_data (H := sample_external) tracking_on sample_sys
              "mod" "cmd" sample_args
              (cmd_result_of (run_body tracking_on sample_body
                                (dict_pop "metadata" sample_args) sample_world).1)
              (cmd_exception_of (run_body tracking_on sample_body
                                   (dict_pop "metadata" sample_args) sample_world).1)
              (w_fs (run_body tracking_on sample_body
                       (dict_pop "metadata" sample_args) sample_world).2))
    as [[path doc]|e] eqn:Ha; [|by vm_compute in Ha].
  assert (path = sample_step_path) as ->
    by (vm_compute in Ha; by injection Ha as <- _).
  rewrite (Hon eq_refl sample_step_path doc eq_refl eq_refl).
  rewrite lookup_insert_eq. by exists doc.
Defined.

(** C9 fails as stated: the file arguments are among the recorded [args]. *)
Lemma args_field_holds_file_arguments :
  (st_args ∘ sd_step)
    <$> w_store (_run_cmd_with_tracking (H := sample_external) tracking_on
                   sample_sys "mod" "cmd" sample_body sample_args
                   sample_world).2 !! sample_step_path
  = Some [("inp", VFileArg Input "a");
          ("outs", VList [VFileArg Output "b"; VFileArg Output "c"]);
          ("n", VInt 3)] ∧
  get_FileArgs (VFileArg Input "a") [] = [([], (Input, "a"))].
Proof. split; vm_compute; reflexivity. Qed.

Lemma sample_run_occurrences doc :
  w_store sample_run.2 !! sample_step_path = Some doc →
  st_args (sd_step doc)
  = [("inp", VFileArg Input "a");
     ("outs", VList [VFileArg Output "b"; VFileArg Output "c"]);
     ("n", VInt 3)] ∧
  occurrences_of (st_args (sd_step doc) ++ metadata_from_cmd_return (sd_step doc))
  = [("inp", [], Input, "a"); ("outs", [0%nat], Output, "b");
     ("outs", [1%nat], Output, "c")].
Proof.
  intros Hdoc. vm_compute in Hdoc. injection Hdoc as <-.
  split; vm_compute; reflexivity.
Qed.

(** Two file arguments with one port name: [reads[0]] and [reads_0] are both
    among the recorded arguments, and [in_files] has the single entry
    [reads_0], which describes the second of them. *)
Lemma colliding_port_names_keep_last :
  (st_args ∘ sd_step)
    <$> w_store (_run_cmd_with_tracking (H := sample_external) tracking_on
                   sample_sys "mod" "cmd" sample_body colliding_args
                   sample_world).2 !! sample_step_path
  = Some [("reads", VList [VFileArg Input "a"]); ("reads_0", VFileArg Input "ro")] ∧
  (λ doc, map_to_list (fi_fname <$> in_files doc))
    <$> w_store (_run_cmd_with_tracking (H := sample_external) tracking_on
                   sample_sys "mod" "cmd" sample_body colliding_args
                   sample_world).2 !! sample_step_path
  = Some [("reads_0", "ro")].
Proof. split; vm_compute; reflexivity. Qed.

Lemma args_field_of_record_witness :
  ∃ doc inp out,
    w_store (_run_cmd_with_tracking (H := sample_external) tracking_on sample_sys
               "mod" "cmd" sample_body sample_args sample_world).2
      !! sample_step_path = Some doc ∧
    st_args (sd_step doc) = dict_pop "func_main" (dict_pop "metadata" sample_args) ∧
    in_files doc !! "inp" = Some inp ∧ fi_fname inp = "a" ∧
    out_files doc !! "outs_1" = Some out ∧ fi_fname out = "c" ∧
    fi_arg out = "outs" ∧ fi_arg_idx out = [1%nat].
Proof.
  destruct (w_store (_run_cmd_with_tracking (H := sample_external) tracking_on
                       sample_sys "mod" "cmd" sample_body sample_args
                       sample_world).2 !! sample_step_path)
    as [doc|] eqn:Hdoc; [|by vm_compute in Hdoc].
  destruct (sample_run_occurrences doc Hdoc) as [Hlist Hoccs].
  destruct (args_field_of_record (H := sample_external) tracking_on sample_sys
              "mod" "cmd" sample_body sample_args sample_world
              sample_step_path doc sample_args_metadata Hdoc
              (λ Hold, eq_ind None
                         (λ o, match o with None => True | Some _ => False end)
                         I _ Hold)) as [Hargs Hports].
  destruct (Hports "inp" (VFileArg Input "a") [] Input "a")
    as (inp & arg1 & idx1 & f1 & Hinp & Hlast1 & Hname1 & _).
  { rewrite Hlist. vm_compute. repeat constructor. }
  { vm_compute. repeat constructor. }
  destruct (Hports "outs" (VList [VFileArg Output "b"; VFileArg Output "c"])
              [1%nat] Output "c")
    as (out & arg2 & idx2 & f2 & Hout & Hlast2 & Hname2 & Harg2 & Hidx2 & _).
  { rewrite Hlist. vm_compute. repeat constructor. }
  { vm_compute. repeat constructor. }
  rewrite Hoccs in Hlast1, Hlast2.
  vm_compute in Hlast1. injection Hlast1 as <- <- <-.
  vm_compute in Hlast2. injection Hlast2 as <- <- <-.
  exists doc, inp, out. split; [reflexivity|]. split; [exact Hargs|].
  split; [exact Hinp|]. split; [exact Hname1|]. split; [exact Hout|].
  split; [exact Hname2|]. split; [exact Harg2|exact Hidx2].
Defined.

Lemma skip_cmd_controls_execution_witness :
  skip_cmd tracking_on_skip = true ∧
  w_body_calls (add_metadata_tracking (H := sample_external) tracking_on_skip
                  sample_sys sample_body "mod" "cmd" sample_args sample_world).2
    = 0%nat ∧
  (cmd_was_skipped ∘ st_run_info ∘ sd_step)
    <$> w_store (add_metadata_tracking (H := sample_external) tracking_on_skip
                   sample_sys sample_body "mod" "cmd" sample_args sample_world).2
        !! sample_step_path = Some true ∧
  skip_cmd tracking_on = false ∧
  w_body_calls (add_metadata_tracking (H := sample_external) tracking_on
                  sample_sys sample_body "mod" "cmd" sample_args sample_world).2
    = 1%nat.
Proof.
  destruct (skip_cmd_controls_execution (H := sample_external) tracking_on_skip
              sample_sys sample_body "mod" "cmd" sample_args sample_world
              sample_args_metadata) as [Hskip _].
  destruct (Hskip eq_refl) as (Hcalls & _ & _ & Hdocs).
  destruct (skip_cmd_controls_execution (H := sample_external) tracking_on
              sample_sys sample_body "mod" "cmd" sample_args sample_world
              sample_args_metadata) as [_ Hrun].
  destruct (Hrun eq_refl) as [Hcalls1 _].
  split; [reflexivity|]. split; [exact Hcalls|]. split; [|split; [reflexivity|exact Hcalls1]].
  destruct (w_store (add_metadata_tracking (H := sample_external) tracking_on_skip
                       sample_sys sample_body "mod" "cmd" sample_args
                       sample_world).2 !! sample_step_path)
    as [doc|] eqn:Hdoc; [|by vm_compute in Hdoc].
  simpl. f_equal.
  apply (Hdocs sample_step_path doc Hdoc). intros Hold. by vm_compute in Hold.
Defined.

Lemma record_A_loaded :
  loaded [("A.json", record_A); ("A.json.bak", record_A); ("B.json", record_B)]
    record_A.
Proof. exists "A.json". split; [repeat constructor|reflexivity]. Defined.

Lemma record_B_loaded :
  loaded [("A.json", record_A); ("A.json.bak", record_A); ("B.json", record_B)]
    record_B.
Proof. exists "B.json". split; [repeat constructor|reflexivity]. Defined.

Lemma sample_identity_is_no_step_or_port r :
  loaded [("A.json", record_A); ("A.json.bak", record_A); ("B.json", record_B)] r →
  ¬ step_or_port_id r "sha1_x".
Proof.
  intros (f & Hin & Hj) Hid.
  assert (Hr : r = record_A ∨ r = record_B).
  { apply elem_of_cons in Hin as [Hin|Hin]; [left; congruence|].
    apply elem_of_cons in Hin as [Hin|Hin]; [left; congruence|].
    apply elem_of_cons in Hin as [Hin|Hin]; [right; congruence|].
    by apply elem_of_nil in Hin. }
  destruct Hr as [-> | ->];
    (destruct Hid as [Heq|(k & port & _ & Heq)];
     [discriminate Heq|unfold port_id in Heq; simpl in Heq; discriminate Heq]).
Defined.

Lemma ports_share_file_node_witness :
  ∃ G,
    ProvenanceGraph_load (Some empty_graph) tracking_on sample_listdir (Some "md")
      = (Ok G, Some G) ∧
    length (filter (λ kv, kv.1 = "sha1_x") (map_to_list (nodes G))) = 1%nat ∧
    nodes G !! "sha1_x" = Some {[ "node_kind" := VStr "file" ]} ∧
    ("A", "A__out") ∈ edges G ∧ ("A__out", "sha1_x") ∈ edges G ∧
    ("sha1_x", "B__inp") ∈ edges G ∧ ("B__inp", "B") ∈ edges G.
Proof.
  destruct (ports_share_file_node empty_graph tracking_on sample_listdir
              (Some "md") "md" _ eq_refl eq_refl)
    as (G & Hload & Hports & Hchain & Hfile).
  destruct (Hports record_A Output "out" (sample_entry "b" "out" (Some "sha1_x"))
              "sha1_x" record_A_loaded eq_refl eq_refl) as (Hin & Hone & _);
    [discriminate|].
  exists G. split; [exact Hload|]. split; [exact Hone|]. split.
  - apply Hfile; [exact Hin|reflexivity|exact sample_identity_is_no_step_or_port].
  - apply (Hchain record_A record_B "out" "inp"
             (sample_entry "b" "out" (Some "sha1_x"))
             (sample_entry "renamed_b" "inp" (Some "sha1_x")) "sha1_x"
             record_A_loaded record_B_loaded eq_refl eq_refl eq_refl eq_refl).
    discriminate.
Defined.

Lemma load_of_listed_store_raises_NameError_witness :
  fi_hash <$> out_files record_A !! "out" = Some (Some "sha1_x") ∧
  fi_hash <$> in_files record_B !! "inp" = Some (Some "sha1_x") ∧
  ProvenanceGraph_load None tracking_on sample_listdir (Some "md")
  = (Raise (NameError "pgraph"), None).
Proof.
  split; [reflexivity|]. split; [reflexivity|].
  exact (load_of_listed_store_raises_NameError tracking_on sample_listdir
           (Some "md") "md" _ eq_refl eq_refl).
Defined.

(** * The further properties on the sample instances *)

Lemma sample_world_store_empty path doc : w_store sample_world !! path ≠ Some doc.
Proof.
  intros Hold.
  exact (eq_ind None (λ o, match o with None => True | Some _ => False end)
           I _ Hold).
Defined.

Lemma record_identifiers_witness :
  ∃ doc stamp md,
    w_store (_run_cmd_with_tracking (H := sample_external) tracking_on sample_sys
               "mod" "cmd" sample_body sample_args sample_world).2
      !! sample_step_path = Some doc ∧
    create_run_id (H := sample_external) sample_sys "uuid-b" 100 = Ok stamp ∧
    tracking_on !! "VIRAL_NGS_METADATA_PATH" = Some md ∧
    step_id (sd_step doc) = stamp +:+ "__" +:+ "mod" +:+ "__" +:+ "cmd" ∧
    sample_step_path
    = path_join (External := sample_external) md
        (step_id (sd_step doc) +:+ ".json") ∧
    create_run_id (H := sample_external) sample_sys "uuid-a" 100
    = Ok (run_id (sd_step doc)).
Proof.
  destruct (w_store (_run_cmd_with_tracking (H := sample_external) tracking_on
                       sample_sys "mod" "cmd" sample_body sample_args
                       sample_world).2 !! sample_step_path)
    as [doc|] eqn:Hdoc; [|by vm_compute in Hdoc].
  destruct (record_identifiers (H := sample_external) tracking_on sample_sys
              "mod" "cmd" sample_body sample_args sample_world sample_step_path
              doc sample_args_metadata Hdoc (sample_world_store_empty _ _))
    as (stamp & md & Hstamp & Hmd & Hsid & _ & _ & Hpath & _ & Hrun).
  exists doc, stamp, md.
  split; [reflexivity|]. split; [exact Hstamp|]. split; [exact Hmd|].
  split; [exact Hsid|]. split; [exact Hpath|]. exact Hrun.
Defined.

Lemma sample_run_record :
  ∃ doc inp out,
    w_store sample_run.2 !! sample_step_path = Some doc ∧
    in_files doc !! "inp" = Some inp ∧
    fs_files (w_fs sample_run.2) !! fi_fname inp
    = Some (sample_file [Byte.x41; Byte.x42] 10) ∧
    out_files doc !! "outs_0" = Some out ∧
    fs_files (w_fs sample_run.2) !! fi_fname out
    = Some (sample_file [Byte.x41; Byte.x42; Byte.x43] 60).
Proof.
  destruct (w_store sample_run.2 !! sample_step_path) as [doc|] eqn:Hdoc;
    [|by vm_compute in Hdoc].
  vm_compute in Hdoc. injection Hdoc as <-.
  do 3 eexists. split; [reflexivity|].
  split; [vm_compute; reflexivity|]. split; [vm_compute; reflexivity|].
  split; vm_compute; reflexivity.
Qed.

Lemma sample_failed_run_record :
  ∃ doc out,
    w_store sample_failed_run.2 !! sample_step_path = Some doc ∧
    out_files doc !! "outs_0" = Some out.
Proof.
  destruct (w_store sample_failed_run.2 !! sample_step_path) as [doc|] eqn:Hdoc;
    [|by vm_compute in Hdoc].
  vm_compute in Hdoc. injection Hdoc as <-.
  do 2 eexists. split; [reflexivity|]. vm_compute; reflexivity.
Qed.

Lemma set_run_id_shared_by_steps_witness :
  ∃ environ' rid,
    set_run_id (H := sample_external) sample_sys "uuid-r" 50 tracking_on
    = Ok environ' ∧
    create_run_id (H := sample_external) sample_sys "uuid-r" 50 = Ok rid ∧
    environ' !! "VIRAL_NGS_METADATA_RUN_ID" = Some rid ∧
    is_metadata_tracking_enabled environ' = true ∧
    ∀ doc,
      w_store (_run_cmd_with_tracking (H := sample_external) environ' sample_sys
                 "mod" "cmd" sample_body sample_args sample_world).2
        !! sample_step_path = Some doc →
      run_id (sd_step doc) = rid.
Proof.
  destruct (set_run_id (H := sample_external) sample_sys "uuid-r" 50 tracking_on)
    as [environ'|e] eqn:Hset; [|by vm_compute in Hset].
  destruct (set_run_id_shared_by_steps (H := sample_external) sample_sys "uuid-r"
              50 tracking_on environ' Hset)
    as (rid & Hrid & Hlookup & Henabled & _ & Hsteps).
  exists environ', rid. split; [reflexivity|]. split; [exact Hrid|].
  split; [exact Hlookup|]. split; [by rewrite Henabled|].
  intros doc Hdoc.
  exact (Hsteps sample_sys "mod" "cmd" sample_body sample_args sample_world
           sample_step_path doc sample_args_metadata Hdoc
           (sample_world_store_empty _ _)).
Defined.

Lemma recorded_args_lookup_witness :
  ∃ doc,
    w_store sample_run.2 !! sample_step_path = Some doc ∧
    dict_get "metadata" (st_args (sd_step doc)) = None ∧
    dict_get "func_main" (st_args (sd_step doc)) = None ∧
    dict_get "n" (st_args (sd_step doc)) = Some (VInt 3) ∧
    metadata_from_cmd_line (sd_step doc) = VDict [].
Proof.
  destruct sample_run_record as (doc & _ & _ & Hdoc & _).
  destruct (recorded_args_lookup (H := sample_external) tracking_on sample_sys
              "mod" "cmd" sample_body sample_args sample_world sample_step_path
              doc sample_args_metadata Hdoc (sample_world_store_empty _ _))
    as (Hmeta & Hfunc & Hother & given & Hgiven & Hline).
  exists doc. split; [exact Hdoc|]. split; [exact Hmeta|]. split; [exact Hfunc|].
  split.
  - rewrite (Hother "n"); [reflexivity|discriminate|discriminate].
  - injection Hgiven as <-. exact Hline.
Defined.

Lemma record_reflects_outcome_witness :
  ∃ doc,
    w_store sample_failed_run.2 !! sample_step_path = Some doc ∧
    cmd_was_skipped (st_run_info (sd_step doc)) = false ∧
    exception (st_run_info (sd_step doc)) = Some (format_exc ValueError) ∧
    metadata_from_cmd_return (sd_step doc) = [].
Proof.
  destruct sample_failed_run_record as (doc & _ & Hdoc & _).
  exists doc. split; [exact Hdoc|].
  exact (record_reflects_outcome (H := sample_external) tracking_on sample_sys
           "mod" "cmd" (failing_body ValueError) sample_args sample_world
           sample_step_path doc sample_args_metadata Hdoc
           (sample_world_store_empty _ _)).
Defined.

Lemma no_record_when_a_collaborator_fails_witness :
  failed (sys_getuser sample_sys_no_user) ∧
  w_store (_run_cmd_with_tracking (H := sample_external) tracking_on
             sample_sys_no_user "mod" "cmd" sample_body sample_args
             sample_world).2
  = w_store sample_world.
Proof.
  split; [exact I|].
  exact (no_record_when_a_collaborator_fails (H := sample_external) tracking_on
           sample_sys_no_user "mod" "cmd" sample_body sample_args sample_world
           (or_introl I)).
Defined.

Lemma ports_are_the_discovered_files_witness :
  ∃ doc info,
    w_store (_run_cmd_with_tracking (H := sample_external) tracking_on sample_sys
               "mod" "cmd" sample_body colliding_args sample_world).2
      !! sample_step_path = Some doc ∧
    in_files doc !! "reads_0" = Some info ∧
    fi_fname info = "ro" ∧ fi_arg info = "reads_0" ∧ fi_arg_idx info = [] ∧
    in_files doc !! "reads" = None ∧ out_files doc !! "reads_0" = None.
Proof.
  destruct (w_store (_run_cmd_with_tracking (H := sample_external) tracking_on
                       sample_sys "mod" "cmd" sample_body colliding_args
                       sample_world).2 !! sample_step_path)
    as [doc|] eqn:Hdoc; [|by vm_compute in Hdoc].
  assert (Hoccs : occurrences_of
                    (st_args (sd_step doc) ++ metadata_from_cmd_return (sd_step doc))
                  = [("reads", [0%nat], Input, "a"); ("reads_0", [], Input, "ro")]).
  { vm_compute in Hdoc. injection Hdoc as <-. vm_compute. reflexivity. }
  destruct (ports_are_the_discovered_files (H := sample_external) tracking_on
              sample_sys "mod" "cmd" sample_body colliding_args sample_world
              sample_step_path doc (ex_intro _ VNone eq_refl) Hdoc
              (sample_world_store_empty _ _)) as [_ Hports].
  pose proof (Hports Input "reads_0") as Hlast.
  pose proof (Hports Input "reads") as Hnone.
  pose proof (Hports Output "reads_0") as Hother.
  rewrite Hoccs in Hlast, Hnone, Hother.
  vm_compute in Hlast. destruct Hlast as (info & Hentry & Hname & Harg & Hidx & _).
  exists doc, info. split; [reflexivity|]. split; [exact Hentry|].
  split; [exact Hname|]. split; [exact Harg|]. split; [exact Hidx|].
  split; [exact Hnone|exact Hother].
Defined.

Lemma recorded_identity_is_digest_of_bytes_witness :
  ∃ doc inp out,
    w_store sample_run.2 !! sample_step_path = Some doc ∧
    in_files doc !! "inp" = Some inp ∧
    out_files doc !! "outs_0" = Some out ∧
    fi_hash inp = Some "sha1_sha12" ∧ fi_size inp = Some 2 ∧
    fi_mtime inp = Some 10 ∧
    fi_hash out = Some "sha1_sha13" ∧ fi_size out = Some 3 ∧
    fi_mtime out = Some 60.
Proof.
  destruct sample_run_record as (doc & inp & out & Hdoc & Hinp & Ha & Hout & Hb).
  destruct (recorded_identity_is_digest_of_bytes (H := sample_external)
              tracking_on sample_sys "mod" "cmd" sample_body sample_args
              sample_world sample_step_path doc Input "inp" inp
              (sample_file [Byte.x41; Byte.x42] 10)
              sample_args_metadata Hdoc (sample_world_store_empty _ _) Hinp
              (or_introl eq_refl) Ha eq_refl eq_refl)
    as (Hh1 & Hs1 & Hm1 & _).
  destruct (recorded_identity_is_digest_of_bytes (H := sample_external)
              tracking_on sample_sys "mod" "cmd" sample_body sample_args
              sample_world sample_step_path doc Output "outs_0" out
              (sample_file [Byte.x41; Byte.x42; Byte.x43] 60)
              sample_args_metadata Hdoc (sample_world_store_empty _ _) Hout
              (or_intror eq_refl) Hb eq_refl eq_refl)
    as (Hh2 & Hs2 & Hm2 & _).
  exists doc, inp, out. split; [exact Hdoc|]. split; [exact Hinp|].
  split; [exact Hout|]. split; [exact Hh1|]. split; [exact Hs1|].
  split; [exact Hm1|]. split; [exact Hh2|]. split; [exact Hs2|]. exact Hm2.
Defined.

Lemma sample_graph_edges_between_nodes u v :
  (u, v) ∈ edges sample_graph →
  u ∈ dom (nodes sample_graph) ∧ v ∈ dom (nodes sample_graph).
Proof.
  unfold sample_graph, add_edge, add_node, empty_graph. simpl.
  rewrite elem_of_union, elem_of_singleton, !dom_insert, !elem_of_union,
    !elem_of_singleton.
  intros [[= -> ->]|Hin]; [tauto|by apply elem_of_empty in Hin].
Qed.

Lemma loaded_graph_is_exactly_the_records_witness :
  ∃ G,
    ProvenanceGraph_load (Some sample_graph) tracking_on sample_listdir (Some "md")
      = (Ok G, Some G) ∧
    "A" ∈ dom (nodes G) ∧ ("A", "A__out") ∈ edges G ∧
    ("old_step", "old_port") ∈ edges G ∧
    ∀ x, x ∈ dom (nodes G) →
         x ∈ dom (nodes sample_graph) ∨
         ∃ r, loaded [("A.json", record_A); ("A.json.bak", record_A);
                      ("B.json", record_B)] r ∧
              (x = step_id (sd_step r) ∨
               ∃ file_kind port info,
                 files_of_role file_kind r !! port = Some info ∧
                 (x = port_id (step_id (sd_step r)) port ∨
                  (fi_hash info = Some x ∧ x ≠ ""))).
Proof.
  destruct (loaded_graph_is_exactly_the_records sample_graph tracking_on
              sample_listdir (Some "md") "md" _ eq_refl eq_refl)
    as (G & Hload & Hnodes & Hedges).
  exists G. split; [exact Hload|]. split; [|split; [|split]].
  - apply Hnodes. right. exists record_A. split; [exact record_A_loaded|].
    left. reflexivity.
  - apply Hedges. right.
    exists record_A, Output, "out", (sample_entry "b" "out" (Some "sha1_x")).
    split; [exact record_A_loaded|]. split; [reflexivity|].
    left. split; reflexivity.
  - apply Hedges. left. unfold sample_graph, add_edge. simpl.
    apply elem_of_union. left. apply elem_of_singleton. reflexivity.
  - intros x Hx. apply Hnodes. exact Hx.
Defined.

Lemma load_keeps_edges_between_nodes_witness :
  ("A", "A__out")
  ∈ edges (load_listing [("A.json", record_A); ("B.json", record_B)] sample_graph) ∧
  "A" ∈ dom (nodes (load_listing [("A.json", record_A); ("B.json", record_B)]
                      sample_graph)) ∧
  "A__out" ∈ dom (nodes (load_listing [("A.json", record_A); ("B.json", record_B)]
                           sample_graph)).
Proof.
  assert (Hedge : ("A", "A__out")
                  ∈ edges (load_listing [("A.json", record_A); ("B.json", record_B)]
                             sample_graph)).
  { apply load_listing_edges. right. exists record_A. split.
    - exists "A.json". split; [apply list_elem_of_here|reflexivity].
    - exists Output, "out", (sample_entry "b" "out" (Some "sha1_x")).
      split; [reflexivity|]. apply elem_of_union. left.
      apply elem_of_singleton. reflexivity. }
  split; [exact Hedge|].
  exact (load_keeps_edges_between_nodes
           [("A.json", record_A); ("B.json", record_B)] sample_graph
           sample_graph_edges_between_nodes "A" "A__out" Hedge).
Defined.

Lemma loading_again_changes_nothing_witness :
  ∃ G,
    ProvenanceGraph_load (Some sample_graph) tracking_on sample_listdir (Some "md")
      = (Ok G, Some G) ∧
    ProvenanceGraph_load (Some G) tracking_on sample_listdir (Some "md")
      = (Ok G, Some G).
Proof.
  exact (loading_again_changes_nothing sample_graph tracking_on sample_listdir
           (Some "md") "md" _ eq_refl eq_refl).
Defined.

Lemma load_listing_order_independent_witness :
  dom (nodes (load_listing [("A.json", record_A); ("B.json", record_B)]
                sample_graph))
  = dom (nodes (load_listing [("B.json", record_B); ("A.json", record_A)]
                  sample_graph)) ∧
  edges (load_listing [("A.json", record_A); ("B.json", record_B)] sample_graph)
  = edges (load_listing [("B.json", record_B); ("A.json", record_A)] sample_graph).
Proof.
  exact (load_listing_order_independent
           [("A.json", record_A); ("B.json", record_B)]
           [("B.json", record_B); ("A.json", record_A)] sample_graph
           (perm_swap _ _ _)).
Defined.

Lemma recorded_step_appears_in_graph_witness :
  ∃ doc,
    w_store sample_run.2 !! sample_step_path = Some doc ∧
    step_id (sd_step doc)
    ∈ dom (nodes (load_listing [(step_id (sd_step doc) +:+ ".json", doc)]
                    sample_graph)) ∧
    "sha1_sha12"
    ∈ dom (nodes (load_listing [(step_id (sd_step doc) +:+ ".json", doc)]
                    sample_graph)) ∧
    ("sha1_sha12", port_id (step_id (sd_step doc)) "inp")
    ∈ edges (load_listing [(step_id (sd_step doc) +:+ ".json", doc)] sample_graph) ∧
    (port_id (step_id (sd_step doc)) "outs_0", "sha1_sha13")
    ∈ edges (load_listing [(step_id (sd_step doc) +:+ ".json", doc)] sample_graph).
Proof.
  destruct sample_run_record as (doc & inp & out & Hdoc & Hinp & Ha & Hout & Hb).
  destruct (recorded_step_appears_in_graph (H := sample_external) tracking_on
              sample_sys "mod" "cmd" sample_body sample_args sample_world
              sample_step_path doc [(step_id (sd_step doc) +:+ ".json", doc)]
              sample_graph sample_args_metadata Hdoc
              (sample_world_store_empty _ _) (list_elem_of_here _ _))
    as [Hstep Hports].
  destruct (Hports Input "inp" inp (sample_file [Byte.x41; Byte.x42] 10) Hinp
              (or_introl eq_refl) Ha eq_refl eq_refl) as (Hnode & Hedge & _).
  destruct (Hports Output "outs_0" out
              (sample_file [Byte.x41; Byte.x42; Byte.x43] 60) Hout
              (or_intror eq_refl) Hb eq_refl eq_refl) as (_ & _ & Hedge').
  exists doc. split; [exact Hdoc|]. split; [exact Hstep|].
  split; [exact Hnode|]. split; [exact Hedge|exact Hedge'].
Defined.

Lemma failed_step_output_has_no_file_node_witness :
  ∃ doc out,
    w_store sample_failed_run.2 !! sample_step_path = Some doc ∧
    out_files doc !! "outs_0" = Some out ∧
    dom (nodes (load_port Output (step_id (sd_step doc)) "outs_0" out empty_graph))
    = {[ port_id (step_id (sd_step doc)) "outs_0"; step_id (sd_step doc) ]}
      ∪ dom (nodes empty_graph) ∧
    edges (load_port Output (step_id (sd_step doc)) "outs_0" out empty_graph)
    = {[ (step_id (sd_step doc), port_id (step_id (sd_step doc)) "outs_0") ]}
      ∪ edges empty_graph.
Proof.
  destruct sample_failed_run_record as (doc & out & Hdoc & Hout).
  exists doc, out. split; [exact Hdoc|]. split; [exact Hout|].
  exact (failed_step_output_has_no_file_node (H := sample_external) tracking_on
           sample_sys "mod" "cmd" (failing_body ValueError) sample_args
           sample_world sample_step_path doc ValueError "outs_0" out empty_graph
           sample_args_metadata Hdoc (sample_world_store_empty _ _) eq_refl Hout).
Defined.

Lemma sample_shell_never_fails argv : ¬ failed (Git.run_and_print sample_shell argv).
Proof.
  unfold sample_shell. simpl.
  destruct (decide _); [exact id|]. destruct (decide _); exact id.
Qed.

Lemma tag_code_version_when_git_runs_witness :
  Git.tag_code_version sample_shell (Done "/opt/viral-ngs") "cmd_x"
    (Some "md/code_repo") []
  = ("abc123",
     [["git"; "stash"; "create"];
      ["git"; "tag"; "cmd_x"; "abc123"];
      ["git"; "push"; "md/code_repo"; "cmd_x"]]).
Proof.
  exact (tag_code_version_when_git_runs sample_shell (Done "/opt/viral-ngs")
           "/opt/viral-ngs" "cmd_x" (Some "md/code_repo") []
           0 ("abc123" +:+ String (Ascii.ascii_of_nat 10) EmptyString)
           0 "fedcba" eq_refl eq_refl sample_shell_never_fails eq_refl eq_refl).
Defined.

Lemma recorded_code_hash_is_the_tagged_commit_witness :
  ∃ doc md,
    w_store (_run_cmd_with_tracking (H := sample_external) tracking_on
               (with_git sample_shell sample_sys) "mod" "cmd" sample_body
               sample_args sample_world).2 !! sample_step_path = Some doc ∧
    tracking_on !! "VIRAL_NGS_METADATA_PATH" = Some md ∧
    code_hash (st_version_info (sd_step doc)) = "abc123" ∧
    code_hash (st_version_info (sd_step doc))
    = (Git.tag_code_version sample_shell (Done "/opt/viral-ngs")
         ("cmd_" +:+ step_id (sd_step doc))
         (if isdir
               (w_fs (_run_cmd_with_tracking (H := sample_external) tracking_on
                        (with_git sample_shell sample_sys) "mod" "cmd"
                        sample_body sample_args sample_world).2)
               (path_join (External := sample_external) md "code_repo")
          then Some (path_join (External := sample_external) md "code_repo")
          else None) []).1.
Proof.
  destruct (w_store (_run_cmd_with_tracking (H := sample_external) tracking_on
                       (with_git sample_shell sample_sys) "mod" "cmd" sample_body
                       sample_args sample_world).2 !! sample_step_path)
    as [doc|] eqn:Hdoc; [|by vm_compute in Hdoc].
  destruct (recorded_code_hash_is_the_tagged_commit (H := sample_external)
              sample_shell tracking_on sample_sys "mod" "cmd" sample_body
              sample_args sample_world sample_step_path doc sample_args_metadata
              Hdoc (sample_world_store_empty _ _)) as (md & Hmd & Hhash).
  exists doc, md. split; [reflexivity|]. split; [exact Hmd|].
  split; [|exact Hhash].
  vm_compute in Hdoc. injection Hdoc as <-. reflexivity.
Defined.

Lemma body_exception_reraised_witness :
  sample_failed_run.1 = Raise ValueError.
Proof.
  exact (body_exception_reraised (H := sample_external) tracking_on sample_sys
           "mod" "cmd" (failing_body ValueError) sample_args sample_world
           ValueError _ sample_args_metadata eq_refl eq_refl (or_introl eq_refl)).
Defined.
